(** * carbura: yearly fuel-price dataset to per-station daily price series

    Shallow embedding of [main.py] (coordinate decoding, station assembly,
    name resolution, forward-filled time series) and the properties of its
    specification.

    Conventions of the embedding
    - Python [str] is [string]; only ASCII code points are modelled.
    - Python [dict] is stdpp's [gmap] (the specification declares insertion
      order irrelevant).
    - A Python [float] is a binary64 value, [spec_float] of the standard
      library; [float(s)] rounds the decimal it reads to nearest-even.
    - An exception is the [Raise] case of [result]; [try/except] is a match.
    - The network and the clock are inputs of the functions that use them. *)

From Stdlib Require Import ZArith Ascii String List Bool Lia.
From Stdlib Require Import Floats.SpecFloat.
From stdpp Require Import base option list gmap strings fin_maps.

Local Open Scope string_scope.
Local Open Scope list_scope.
Local Open Scope Z_scope.

(* ===================================================================== *)
(** * Exceptions                                                          *)
(* ===================================================================== *)

Module Py.

(** The built-in exceptions the program can raise. *)
Inductive exn : Type :=
  | ValueError
  | TypeError
  | AttributeError
  | UnboundLocalError
  | KeyError
  | OverflowError.

Inductive result (A : Type) : Type :=
  | Ok (a : A)
  | Raise (e : exn).
Arguments Ok {A} a.
Arguments Raise {A} e.

Definition bind {A B} (r : result A) (k : A -> result B) : result B :=
  match r with
  | Ok a => k a
  | Raise e => Raise e
  end.

Definition is_ok {A} (r : result A) : bool :=
  match r with Ok _ => true | Raise _ => false end.

(** [x.attr] or [x.method()] on a value that may be [None]. *)
Definition deref {A} (o : option A) : result A :=
  match o with
  | Some a => Ok a
  | None => Raise AttributeError
  end.

(** Passing a value that may be [None] to a built-in that wants a [str]. *)
Definition need_str {A} (o : option A) : result A :=
  match o with
  | Some a => Ok a
  | None => Raise TypeError
  end.

End Py.
Export Py.

(** [x ← c; k] runs [c] and hands its value to [k]; an exception raised by
    [c] is raised by the whole. *)
#[global] Instance result_ret : MRet result := @Ok.
#[global] Instance result_bind : MBind result := fun A B k r => Py.bind r k.

(* ===================================================================== *)
(** * Strings                                                             *)
(* ===================================================================== *)

Module Str.

Definition is_digit (c : ascii) : bool :=
  let n := N_of_ascii c in ((48 <=? n) && (n <=? 57))%N.

(** The white space that [float] and [int] drop around an ASCII text:
    TAB, LF, VT, FF, CR and SPACE. *)
Definition is_space (c : ascii) : bool :=
  let n := N_of_ascii c in
  (((9 <=? n) && (n <=? 13)) || (n =? 32))%N.

Definition digit_val (c : ascii) : Z := Z.of_N (N_of_ascii c) - 48.

(** Every character of [s] is in the class [p]. *)
Fixpoint all (p : ascii -> bool) (s : string) : bool :=
  match s with
  | EmptyString => true
  | String c r => p c && all p r
  end.

Definition all_digits (s : string) : bool := all is_digit s.

Definition is_letter (c : ascii) : bool :=
  let n := N_of_ascii c in
  (((65 <=? n) && (n <=? 90)) || ((97 <=? n) && (n <=? 122)))%N.

Definition is_empty (s : string) : bool :=
  match s with EmptyString => true | _ => false end.

Definition len (s : string) : Z := Z.of_nat (String.length s).

(** [s[:n]] for [0 <= n]. *)
Fixpoint take (n : Z) (s : string) : string :=
  match s with
  | EmptyString => EmptyString
  | String c r => if n <=? 0 then EmptyString else String c (take (n - 1) r)
  end.

(** [s[n:]] for [0 <= n]. *)
Fixpoint drop (n : Z) (s : string) : string :=
  match s with
  | EmptyString => EmptyString
  | String c r => if n <=? 0 then s else drop (n - 1) r
  end.

(** Python's slice bound: a negative index counts from the end and is
    clipped at the start of the string. *)
Definition clip (n : Z) (s : string) : Z :=
  if n <? 0 then Z.max 0 (len s + n) else n.

Definition slice_to (s : string) (n : Z) : string := take (clip n s) s.
Definition slice_from (s : string) (n : Z) : string := drop (clip n s) s.

(** [s.split(".")[0]]: the text before the first ["."]. *)
Fixpoint before_dot (s : string) : string :=
  match s with
  | EmptyString => EmptyString
  | String c r => if Ascii.eqb c "." then EmptyString else String c (before_dot r)
  end.

(** Longest prefix of decimal digits, and what follows it. *)
Fixpoint span_digits (s : string) : string * string :=
  match s with
  | EmptyString => (EmptyString, EmptyString)
  | String c r =>
      if is_digit c
      then let '(d, t) := span_digits r in (String c d, t)
      else (EmptyString, s)
  end.

(** Value of a string of decimal digits, most significant first. *)
Fixpoint digits_acc (acc : Z) (s : string) : Z :=
  match s with
  | EmptyString => acc
  | String c r => digits_acc (10 * acc + digit_val c) r
  end.

Definition digits_value (s : string) : Z := digits_acc 0 s.

Fixpoint lstrip (s : string) : string :=
  match s with
  | EmptyString => EmptyString
  | String c r => if is_space c then lstrip r else s
  end.

Fixpoint rstrip (s : string) : string :=
  match s with
  | EmptyString => EmptyString
  | String c r =>
      let r' := rstrip r in
      if is_space c && is_empty r' then EmptyString else String c r'
  end.

Definition strip (s : string) : string := rstrip (lstrip s).

Definition lower (c : ascii) : ascii :=
  let n := N_of_ascii c in
  if ((65 <=? n) && (n <=? 90))%N then ascii_of_N (n + 32) else c.

Fixpoint lower_str (s : string) : string :=
  match s with
  | EmptyString => EmptyString
  | String c r => String (lower c) (lower_str r)
  end.

(** Numeric literals allow one underscore between two digits.  The scan
    drops the underscores and rejects one that does not follow a digit or
    is not followed by one; [prev] is the previous character. *)
Definition is_underscore (c : ascii) : bool := Ascii.eqb c "_".

Definition after_underscore (prev : option ascii) : bool :=
  match prev with
  | Some p => is_underscore p
  | None => false
  end.

Fixpoint strip_underscores (prev : option ascii) (s : string) : option string :=
  match s with
  | EmptyString => if after_underscore prev then None else Some EmptyString
  | String c r =>
      if is_underscore c then
        match prev with
        | Some p => if is_digit p then strip_underscores (Some c) r else None
        | None => None
        end
      else if after_underscore prev && negb (is_digit c) then None
      else option_map (String c) (strip_underscores (Some c) r)
  end.

(** An optional leading sign: [(negative, rest)]. *)
Definition split_sign (s : string) : bool * string :=
  match s with
  | String c r =>
      if Ascii.eqb c "-" then (true, r)
      else if Ascii.eqb c "+" then (false, r)
      else (false, s)
  | EmptyString => (false, s)
  end.

(** First occurrence of [pat] in [s]: the text before it and after it. *)
Fixpoint strip_prefix (pat s : string) : option string :=
  match pat, s with
  | EmptyString, _ => Some s
  | String p pat', String c s' =>
      if Ascii.eqb p c then strip_prefix pat' s' else None
  | String _ _, EmptyString => None
  end.

Fixpoint find (pat s : string) : option (string * string) :=
  match strip_prefix pat s with
  | Some rest => Some (EmptyString, rest)
  | None =>
      match s with
      | EmptyString => None
      | String c s' =>
          match find pat s' with
          | Some (pre, post) => Some (String c pre, post)
          | None => None
          end
      end
  end.

End Str.

(* ===================================================================== *)
(** * Built-in conversions: [float] and [int]                             *)
(* ===================================================================== *)

Module Num.

Definition float := spec_float.

Definition prec : Z := 53.
Definition emax : Z := 1024.

(** The binary64 nearest (ties to even) to the rational [n / d]. *)
Definition round_ratio (neg : bool) (n d : positive) : float :=
  let '(mz, ez, lz) := SFdiv_core_binary prec emax (Zpos n) 0 (Zpos d) 0 in
  binary_round_aux prec emax neg mz ez lz.

(** The binary64 nearest to [m * 10 ^ e10], [0 <= m]. *)
Definition round_decimal (neg : bool) (m e10 : Z) : float :=
  match m with
  | Zpos n =>
      if 0 <=? e10
      then round_ratio neg (n * Z.to_pos (10 ^ e10)) 1
      else round_ratio neg n (Z.to_pos (10 ^ (- e10)))
  | _ => S754_zero neg
  end.

(** A decimal literal read by the parser: integer digits, fraction digits
    and the exponent. *)
Record decimal := Decimal { int_part : string; frac_part : string; exp10 : Z }.

(** The exponent part after the mantissa: nothing, or [e]/[E], an optional
    sign and at least one digit, up to the end of the text. *)
Definition parse_exponent (s : string) : option Z :=
  match s with
  | EmptyString => Some 0
  | String c r =>
      if Ascii.eqb (Str.lower c) "e" then
        let '(neg, r1) := Str.split_sign r in
        let '(ds, r2) := Str.span_digits r1 in
        if Str.is_empty ds || negb (Str.is_empty r2) then None
        else Some (if neg then - Str.digits_value ds else Str.digits_value ds)
      else None
  end.

(** [digits] [.] [digits] [exponent], with a digit on one side of the
    point at least. *)
Definition parse_fraction (s : string) : string * string :=
  match s with
  | String c r => if Ascii.eqb c "." then Str.span_digits r else (EmptyString, s)
  | EmptyString => (EmptyString, s)
  end.

Definition parse_decimal (s : string) : option decimal :=
  let '(ip, r1) := Str.span_digits s in
  let '(fp, r2) := parse_fraction r1 in
  if Str.is_empty ip && Str.is_empty fp then None
  else option_map (Decimal ip fp) (parse_exponent r2).

Definition decimal_value (neg : bool) (d : decimal) : float :=
  round_decimal neg
    (Str.digits_value (int_part d +:+ frac_part d))
    (exp10 d - Str.len (frac_part d)).

(** [inf], [infinity] and [nan], in any case. *)
Definition parse_special (neg : bool) (s : string) : option float :=
  let l := Str.lower_str s in
  if String.eqb l "inf" || String.eqb l "infinity" then Some (S754_infinity neg)
  else if String.eqb l "nan" then Some S754_nan
  else None.

(** [float(s)] for a [str] of ASCII characters: surrounding white space
    is dropped, then underscores between digits, then a sign, then a
    decimal literal or a special value must fill the rest.  (In a text
    with other characters the interpreter also takes the white space and
    the decimal digits of other scripts; such texts are outside the
    embedding.) *)
Definition py_float (s : string) : result float :=
  match Str.strip_underscores None (Str.strip s) with
  | None => Raise ValueError
  | Some t =>
      let '(neg, body) := Str.split_sign t in
      match parse_decimal body with
      | Some d => Ok (decimal_value neg d)
      | None =>
          match parse_special neg body with
          | Some f => Ok f
          | None => Raise ValueError
          end
      end
  end.

(** [sys.int_info.default_max_str_digits]: the most digits that [int]
    reads from a decimal text; the program leaves the default in place. *)
Definition max_str_digits : Z := 4300.

(** [int(s)] for a [str] of ASCII characters, base ten: white space,
    sign, digits with underscores between them, and no more digits than
    the interpreter's limit. *)
Definition py_int (s : string) : result Z :=
  match Str.strip_underscores None (Str.strip s) with
  | None => Raise ValueError
  | Some t =>
      let '(neg, body) := Str.split_sign t in
      if Str.is_empty body || negb (Str.all_digits body)
         || (max_str_digits <? Str.len body)
      then Raise ValueError
      else Ok (if neg then - Str.digits_value body else Str.digits_value body)
  end.

End Num.
Export Num.

(* ===================================================================== *)
(** * Coordinate decoder                                                  *)
(* ===================================================================== *)

(** [get_coordinate(angle, number_len)]:
<<
    a = angle.split(".")[0]
    return float(a[:number_len] + "." + a[number_len:])
>> *)
Definition get_coordinate (angle : string) (number_len : Z) : result float :=
  let a := Str.before_dot angle in
  py_float (Str.slice_to a number_len +:+ "." +:+ Str.slice_from a number_len).

(* ===================================================================== *)
(** * Dates and times: [datetime.strptime], [strftime], [timedelta]       *)
(* ===================================================================== *)

Module Time.

(** A backtracking matcher: every way to read a value off the front of
    the text, best first, as the regular expressions that [strptime]
    builds from a format try their alternatives in order. *)
Definition matcher (A : Type) : Type := string -> list (A * string).

Definition m_ret {A} (a : A) : matcher A := fun s => [(a, s)].

Definition m_bind {A B} (p : matcher A) (k : A -> matcher B) : matcher B :=
  fun s => concat (List.map (fun '(a, r) => k a r) (p s)).

Definition m_alt {A} (p q : matcher A) : matcher A := fun s => p s ++ q s.

(** One character in the class [ok]; its value as a digit. *)
Definition m_class (ok : ascii -> bool) : matcher Z :=
  fun s =>
    match s with
    | String c r => if ok c then [(Str.digit_val c, r)] else []
    | EmptyString => []
    end.

Definition between (lo hi : ascii) (c : ascii) : bool :=
  ((N_of_ascii lo <=? N_of_ascii c) && (N_of_ascii c <=? N_of_ascii hi))%N.

Definition m_digit : matcher Z := m_class Str.is_digit.
Definition m_range (lo hi : ascii) : matcher Z := m_class (between lo hi).

(** A literal character of the format; the match ignores case. *)
Definition m_lit (c : ascii) : matcher unit :=
  fun s =>
    match s with
    | String c' r => if Ascii.eqb (Str.lower c') (Str.lower c) then [(tt, r)] else []
    | EmptyString => []
    end.

Definition m_two (p q : matcher Z) : matcher Z :=
  m_bind p (fun a => m_bind q (fun b => m_ret (10 * a + b))).

(** [%Y]: [\d\d\d\d] *)
Definition m_Y : matcher Z :=
  m_bind (m_two m_digit m_digit) (fun hi =>
  m_bind (m_two m_digit m_digit) (fun lo => m_ret (100 * hi + lo))).

(** [%m]: [1[0-2]|0[1-9]|[1-9]] *)
Definition m_m : matcher Z :=
  m_alt (m_two (m_range "1" "1") (m_range "0" "2"))
 (m_alt (m_two (m_range "0" "0") (m_range "1" "9"))
        (m_range "1" "9")).

(** [%d]: [3[0-1]|[1-2]\d|0[1-9]|[1-9]| [1-9]] *)
Definition m_d : matcher Z :=
  m_alt (m_two (m_range "3" "3") (m_range "0" "1"))
 (m_alt (m_two (m_range "1" "2") m_digit)
 (m_alt (m_two (m_range "0" "0") (m_range "1" "9"))
 (m_alt (m_range "1" "9")
        (m_bind (m_lit " ") (fun _ => m_range "1" "9"))))).

(** [%H]: [2[0-3]|[0-1]\d|\d] *)
Definition m_H : matcher Z :=
  m_alt (m_two (m_range "2" "2") (m_range "0" "3"))
 (m_alt (m_two (m_range "0" "1") m_digit)
        m_digit).

(** [%M]: [[0-5]\d|\d] *)
Definition m_M : matcher Z :=
  m_alt (m_two (m_range "0" "5") m_digit) m_digit.

(** [%S]: [6[0-1]|[0-5]\d|\d] *)
Definition m_S : matcher Z :=
  m_alt (m_two (m_range "6" "6") (m_range "0" "1"))
 (m_alt (m_two (m_range "0" "5") m_digit)
        m_digit).

Record datetime := Datetime {
  year : Z; month : Z; day : Z; hour : Z; minute : Z; second : Z }.

(** The format ["%Y-%m-%dT%H:%M:%S"]. *)
Definition m_timestamp : matcher datetime :=
  m_bind m_Y (fun y => m_bind (m_lit "-") (fun _ =>
  m_bind m_m (fun mo => m_bind (m_lit "-") (fun _ =>
  m_bind m_d (fun d => m_bind (m_lit "T") (fun _ =>
  m_bind m_H (fun h => m_bind (m_lit ":") (fun _ =>
  m_bind m_M (fun mi => m_bind (m_lit ":") (fun _ =>
  m_bind m_S (fun sec => m_ret (Datetime y mo d h mi sec)))))))))))).

(** The format ["%H.%M"]; the fields it lacks take 1900-01-01 00:00:00. *)
Definition m_hour_minute : matcher datetime :=
  m_bind m_H (fun h => m_bind (m_lit ".") (fun _ =>
  m_bind m_M (fun mi => m_ret (Datetime 1900 1 1 h mi 0)))).

Definition is_leap (y : Z) : bool :=
  (y mod 4 =? 0) && (negb (y mod 100 =? 0) || (y mod 400 =? 0)).

Definition days_in_month (y m : Z) : Z :=
  if m =? 2 then (if is_leap y then 29 else 28)
  else if (m =? 4) || (m =? 6) || (m =? 9) || (m =? 11) then 30
  else 31.

(** What the [datetime] constructor accepts. *)
Definition valid (t : datetime) : bool :=
  (1 <=? year t) && (year t <=? 9999) &&
  (1 <=? month t) && (month t <=? 12) &&
  (1 <=? day t) && (day t <=? days_in_month (year t) (month t)) &&
  (0 <=? hour t) && (hour t <=? 23) &&
  (0 <=? minute t) && (minute t <=? 59) &&
  (0 <=? second t) && (second t <=? 59).

(** [datetime.strptime(s, fmt)]: the first match of the format's
    expression must reach the end of the text and name a real date. *)
Definition strptime (fmt : matcher datetime) (s : string) : result datetime :=
  match fmt s with
  | [] => Raise ValueError
  | (t, rest) :: _ =>
      if Str.is_empty rest && valid t then Ok t else Raise ValueError
  end.

Definition digit_char (n : Z) : ascii := ascii_of_N (Z.to_N (48 + n mod 10)).

Definition pad2 (n : Z) : string :=
  String (digit_char (n / 10)) (String (digit_char n) EmptyString).

Definition pad4 (n : Z) : string := pad2 (n / 100) +:+ pad2 (n mod 100).

(** [strftime("%Y-%m-%d")].  Years are written with four digits, as the C
    library writes them from the year 1000 on; it writes an earlier year
    without leading zeros, so what is proved of a year read back from a
    text carries the bound. *)
Definition strftime_date (y m d : Z) : string :=
  pad4 y +:+ "-" +:+ pad2 m +:+ "-" +:+ pad2 d.

(** Days before the first of month [m] in a common year. *)
Definition days_before_month (m : Z) : Z :=
  nth (Z.to_nat m) [0; 0; 31; 59; 90; 120; 151; 181; 212; 243; 273; 304; 334] 0.

(** Proleptic Gregorian ordinal (0001-01-01 is day 1) to year, month, day:
    the library's [_ord2ymd]. *)
Definition ord2ymd (ordinal : Z) : Z * Z * Z :=
  let n := ordinal - 1 in
  let n400 := n / 146097 in let n := n mod 146097 in
  let n100 := n / 36524 in let n := n mod 36524 in
  let n4 := n / 1461 in let n := n mod 1461 in
  let n1 := n / 365 in let n := n mod 365 in
  let y := n400 * 400 + 1 + n100 * 100 + n4 * 4 + n1 in
  if (n1 =? 4) || (n100 =? 4) then (y - 1, 12, 31)
  else
    let leapyear := (n1 =? 3) && (negb (n4 =? 24) || (n100 =? 3)) in
    let m := Z.shiftr (n + 50) 5 in
    let preceding := days_before_month m + (if (2 <? m) && leapyear then 1 else 0) in
    if n <? preceding
    then
      let m' := m - 1 in
      let preceding' :=
        preceding - (days_in_month 1 m' + (if (m' =? 2) && leapyear then 1 else 0)) in
      (y, m', n - preceding' + 1)
    else (y, m, n - preceding + 1).

Definition max_ordinal : Z := 3652059.

Inductive time := Time (hour minute second : Z).

Definition time_of (t : datetime) : time := Time (hour t) (minute t) (second t).

End Time.

(* ===================================================================== *)
(** * The input document: [xml.etree] elements                            *)
(* ===================================================================== *)

Module ET.

#[warnings="-register-all"]
Inductive element : Type :=
  Element (tag : string) (attrib : gmap string string)
          (text : option string) (children : list element).

Definition tag (e : element) : string := let 'Element t _ _ _ := e in t.
Definition attrib (e : element) : gmap string string := let 'Element _ a _ _ := e in a.
Definition text (e : element) : option string := let 'Element _ _ t _ := e in t.
Definition children (e : element) : list element := let 'Element _ _ _ c := e in c.

(** [e.get(key)] *)
Definition get (key : string) (e : element) : option string := attrib e !! key.

(** [e.findall(tag)]: the direct children with that tag, in document order. *)
Definition findall (t : string) (e : element) : list element :=
  List.filter (fun c => String.eqb (tag c) t) (children e).

(** [e.find(tag)]: the first of them, or [None]. *)
Definition find (t : string) (e : element) : option element :=
  head (findall t e).

(** [key in e.attrib] *)
Definition has_attr (key : string) (e : element) : bool :=
  match attrib e !! key with Some _ => true | None => false end.

(** Truth value of [e.attrib]: the dictionary is not empty. *)
Definition has_attribs (e : element) : bool :=
  negb (bool_decide (attrib e = ∅)).

End ET.

(* ===================================================================== *)
(** * Data model                                                          *)
(* ===================================================================== *)

(** Modelled from the spec: the class [models/HoursRange.py] is not among
    the sources.  "HoursRange: start time-of-day, end time-of-day"; built
    as [HoursRange(hour_start=..., hour_end=...)]. *)
Record HoursRange := mkHoursRange {
  hour_start : Time.time;
  hour_end : Time.time }.

(** Modelled from the spec: the class [models/OpeningHours.py] is not among
    the sources.  "OpeningHours: mapping day index -> DaySchedule", a day
    mapped to an absent range being closed; built as [OpeningHours(days)]. *)
Record OpeningHours := mkOpeningHours {
  days : gmap Z (option HoursRange) }.

(** [gas_price_history]: fuel type -> date -> price.  A fuel type is the
    value of the [nom] attribute, [None] when the attribute is missing. *)
Abbreviation price_history := (gmap string float).
Abbreviation fuel_history := (gmap (option string) (gmap string float)).

(** Modelled from the spec: the class [models/GasStation.py] is not among
    the sources.  "Station: id, optional name, address, decoded latitude,
    decoded longitude, postal code, city, is_always_open, opening hours,
    price history"; built with these keyword arguments. *)
Record GasStation := mkGasStation {
  id : Z;
  name : option string;
  address : option string;
  latitude : float;
  longitude : float;
  postal_code : option string;
  city : option string;
  is_always_open : bool;
  opening_hours : option OpeningHours;
  gas_price_history : fuel_history }.

(* ===================================================================== *)
(** * Name resolution                                                     *)
(* ===================================================================== *)

(** What [requests.get] does for one request: it returns a response or
    raises (connection error, timeout, ...). *)
Inductive http_outcome :=
  | Response (status_code : Z) (text : string)
  | Failed.

(** The remote service: the outcome of the request for a station id. *)
Definition network := Z -> http_outcome.

(** [re.compile(r'<strong>(.*?)</strong>', re.DOTALL).search(html)] and
    its group 1: the search starts at the first opening marker that has a
    closing one after it, and the lazy group stops at the first closing
    marker. *)
Definition search_strong (html : string) : option string :=
  match Str.find "<strong>" html with
  | Some (_, rest) =>
      match Str.find "</strong>" rest with
      | Some (inner, _) => Some inner
      | None => None
      end
  | None => None
  end.

(** [get_name_station(id)]: the name, or [None] when the request raises
    (the bare [except]), the status is not 200 or nothing matches (the
    function falls off its end). *)
Definition get_name_station (net : network) (id : Z) : option string :=
  match net id with
  | Failed => None
  | Response status_code html_content =>
      if status_code =? 200 then search_strong html_content else None
  end.

Definition get_station_name (net : network) (station_id : Z) : Z * option string :=
  (station_id, get_name_station net station_id).

(** ** The thread pool

    [ThreadPoolExecutor(max_workers).map(fn, xs)] creates one future per
    item, in order.  A free worker starts a pending call; a running call
    finishes at any later time with the value of [fn] on its own item;
    the iterator returns the futures' values in the order of [xs], each
    one once it is there. *)
Module Pool.
Section Pool.
Context {A R : Type}.
Variable fn : A -> R.
Variable max_workers : nat.
Variable xs : list A.

Inductive slot := Pending | Running | Done (r : R).

Definition is_running (s : slot) : bool :=
  match s with Running => true | _ => false end.

Definition running (st : list slot) : nat :=
  length (List.filter is_running st).

Definition init : list slot := (fun _ => Pending) <$> xs.

Inductive step : list slot -> list slot -> Prop :=
  | step_start (st : list slot) (i : nat) :
      st !! i = Some Pending ->
      (running st < max_workers)%nat ->
      step st (<[i := Running]> st)
  | step_finish (st : list slot) (i : nat) (x : A) :
      st !! i = Some Running ->
      xs !! i = Some x ->
      step st (<[i := Done (fn x)]> st).

Definition reachable (st : list slot) : Prop := rtc step init st.

Definition slot_result (s : slot) : option R :=
  match s with Done r => Some r | _ => None end.

(** The list the caller gets: there once every future has its value. *)
Fixpoint results (st : list slot) : option (list R) :=
  match st with
  | [] => Some []
  | s :: st' =>
      match slot_result s, results st' with
      | Some r, Some rs => Some (r :: rs)
      | _, _ => None
      end
  end.

(** Work left: a pending call has two steps to take, a running one one. *)
Definition slot_work (s : slot) : nat :=
  match s with Pending => 2 | Running => 1 | Done _ => 0 end.

Definition work (st : list slot) : nat := sum_list (slot_work <$> st).

End Pool.
Arguments slot : clear implicits.
Arguments Pending {R}.
Arguments Running {R}.
Arguments Done {R} r.
End Pool.

(** [list(executor.map(fn, xs))]: the results in the order of [xs]
    ([Pool.results_unique] below: whatever the order of completion). *)
Definition executor_map {A R} (fn : A -> R) (xs : list A) : list R := fn <$> xs.

(* ===================================================================== *)
(** * Station assembly: [parse_data]                                      *)
(* ===================================================================== *)

(** A loop body over a list in the exception monad. *)
Fixpoint traverse {A B} (f : A -> result B) (l : list A) : result (list B) :=
  match l with
  | [] => Ok []
  | x :: l' => y ← f x; ys ← traverse f l'; Ok (y :: ys)
  end.

Fixpoint foldM {A S} (f : S -> A -> result S) (s : S) (l : list A) : result S :=
  match l with
  | [] => Ok s
  | x :: l' => s' ← f s x; foldM f s' l'
  end.

(** [l[:n]] for a list and [0 <= n]. *)
Fixpoint take_upto {A} (n : Z) (l : list A) : list A :=
  match l with
  | [] => []
  | x :: l' => if n <=? 0 then [] else x :: take_upto (n - 1) l'
  end.

Definition maxx : Z := 9999999.

(** Lines 63-67, the body of the [try]: the fields whose failure drops
    the record. *)
Record mandatory := mkMandatory {
  m_address : option string;
  m_latitude : float;
  m_longitude : float;
  m_postal_code : option string;
  m_city : option string }.

Definition mandatory_fields (pdv : ET.element) : result mandatory :=
  adresse ← deref (ET.find "adresse" pdv);
  let address := ET.text adresse in
  lat ← deref (ET.get "latitude" pdv);
  latitude ← get_coordinate lat 2;
  lon ← deref (ET.get "longitude" pdv);
  longitude ← get_coordinate lon 1;
  let postal_code := ET.get "cp" pdv in
  ville ← deref (ET.find "ville" pdv);
  let city := ET.text ville in
  Ok (mkMandatory address latitude longitude postal_code city).

(** [datetime.strptime(s, "%H.%M").time()] *)
Definition parse_time (s : option string) : result Time.time :=
  s ← need_str s;
  t ← Time.strptime Time.m_hour_minute s;
  Ok (Time.time_of t).

(** Lines 79-91, one pass of the loop over the children of [horaires]. *)
Definition parse_day (days : gmap Z (option HoursRange)) (day : ET.element)
  : result (gmap Z (option HoursRange)) :=
  day_id ← (s ← need_str (ET.get "id" day); py_int s);
  hours_range ←
    (if bool_decide (ET.get "ferme" day = Some "1")
        || bool_decide (ET.find "ouverture" day = None)
     then Ok None
     else
       horaire ← deref (ET.find "horaire" day);
       let opening_time := ET.get "ouverture" horaire in
       let closing_time := ET.get "fermeture" horaire in
       start_time ← parse_time opening_time;
       end_time ← parse_time closing_time;
       Ok (Some (mkHoursRange start_time end_time)));
  Ok (<[day_id := hours_range]> days).

(** Lines 76-93: the flag and the weekly schedule of a [horaires] block. *)
Definition parse_horaires (horaires_element : ET.element)
  : result (bool * OpeningHours) :=
  let always_open := ET.has_attr "automate-24-24" horaires_element in
  days ← foldM parse_day ∅ (ET.children horaires_element);
  Ok (always_open, mkOpeningHours days).

(** [str(datetime.strptime(s, "%Y-%m-%dT%H:%M:%S").strftime("%Y-%m-%d"))] *)
Definition parse_update_date (s : option string) : result string :=
  s ← need_str s;
  t ← Time.strptime Time.m_timestamp s;
  Ok (Time.strftime_date (Time.year t) (Time.month t) (Time.day t)).

(** Lines 99-107, one pass of the loop over the [prix] children. *)
Definition parse_prix (gas_price_history : fuel_history) (prix_element : ET.element)
  : result fuel_history :=
  if ET.has_attribs prix_element then
    let fuel_type := ET.get "nom" prix_element in
    price ← (s ← need_str (ET.get "valeur" prix_element); py_float s);
    update_date ← parse_update_date (ET.get "maj" prix_element);
    let by_date := default ∅ (gas_price_history !! fuel_type) in
    Ok (<[fuel_type := <[update_date := price]> by_date]> gas_price_history)
  else Ok gas_price_history.

Definition parse_prices (pdv : ET.element) : result fuel_history :=
  foldM parse_prix ∅ (ET.findall "prix" pdv).

(** The variables of [parse_data] that live across passes of the main
    loop.  [always_open] is bound by the first pass that assigns it:
    [None] is the unbound variable. *)
Record loop_state := mkLoop {
  always_open : option bool;
  gas_stations : list GasStation;
  count : Z }.

Definition read_local (v : option bool) : result bool :=
  match v with
  | Some b => Ok b
  | None => Raise UnboundLocalError
  end.

(** Lines 62-126, one pass of the main loop.  The second component is
    [true] when the pass ends in [break]. *)
Definition process_station (st : loop_state) (item : ET.element * (Z * option string))
  : result (loop_state * bool) :=
  let '(pdv, (station_id, name)) := item in
  match mandatory_fields pdv with
  | Raise _ => Ok (st, false)
  | Ok m =>
      '(always_open, opening_hours) ←
        match ET.find "horaires" pdv with
        | Some horaires_element =>
            '(flag, hours) ← parse_horaires horaires_element;
            Ok (Some flag, Some hours)
        | None => Ok (always_open st, None)
        end;
      is_always_open ← read_local always_open;
      gas_price_history ← parse_prices pdv;
      let gas_station :=
        mkGasStation station_id name (m_address m) (m_latitude m)
          (m_longitude m) (m_postal_code m) (m_city m)
          is_always_open opening_hours gas_price_history in
      let count := count st + 1 in
      Ok (mkLoop always_open (gas_stations st ++ [gas_station]) count,
          bool_decide (maxx < count))
  end.

Fixpoint main_loop (st : loop_state) (items : list (ET.element * (Z * option string)))
  : result loop_state :=
  match items with
  | [] => Ok st
  | item :: items' =>
      '(st', stop) ← process_station st item;
      if (stop : bool) then Ok st' else main_loop st' items'
  end.

Definition station_id_of (pdv : ET.element) : result Z :=
  s ← need_str (ET.get "id" pdv); py_int s.

(** [child.attrib["id"]] *)
Definition attrib_id (child : ET.element) : result string :=
  match ET.attrib child !! "id" with
  | Some v => Ok v
  | None => Raise KeyError
  end.

(** [parse_data()], from the parsed document on: [root] is the root
    element of the file and [net] the remote service. *)
Definition parse_data (net : network) (root : ET.element) : result (list GasStation) :=
  station_ids ← traverse station_id_of (ET.children root);
  let station_ids := take_upto maxx station_ids in
  let station_names := executor_map (get_station_name net) station_ids in
  st ← main_loop (mkLoop None [] 0) (zip (ET.children root) station_names);
  _ ← traverse attrib_id (ET.children root);
  Ok (gas_stations st).

(* ===================================================================== *)
(** * Time series: [create_json_heatmap]                                  *)
(* ===================================================================== *)

(** A number of the output: the literal [0] is an [int], a price a [float]. *)
Inductive number :=
  | Int (n : Z)
  | Float (f : float).

(** Lines 157-163, one pass over a date; [series] is
    [station_json["carburants"][fuel_type]]. *)
Definition fill_step (history : price_history) (series : list number) (date_key : string)
  : list number :=
  let price :=
    match history !! date_key with
    | Some p => Float p
    | None =>
        match last series with
        | Some previous => previous
        | None => Int 0
        end
    end in
  series ++ [price].

(** Lines 152-163: the array of one fuel type. *)
Definition fill_series (date_strings : list string) (history : price_history)
  : list number :=
  fold_left (fill_step history) date_strings [].

Record station_json := mkStationJson {
  j_id : Z;
  j_name : option string;
  j_address : option string;
  j_latitude : float;
  j_longitude : float;
  j_postal_code : option string;
  j_city : option string;
  j_is_always_open : bool;
  carburants : gmap (option string) (list number) }.

Definition station_entry (date_strings : list string) (gas_station : GasStation)
  : station_json :=
  mkStationJson (id gas_station) (name gas_station) (address gas_station)
    (latitude gas_station) (longitude gas_station) (postal_code gas_station)
    (city gas_station) (is_always_open gas_station)
    (fill_series date_strings <$> gas_price_history gas_station).

(** [range(365, 0, -1)] *)
Definition day_numbers : list Z := (fun i => 365 - Z.of_nat i) <$> seq 0 365.

(** [d.strftime("%Y-%m-%d")] for the date of ordinal [ordinal]. *)
Definition isoformat (ordinal : Z) : string :=
  let '(y, m, d) := Time.ord2ymd ordinal in
  Time.strftime_date y m d.

(** [(current_datetime - timedelta(days=day_number)).strftime("%Y-%m-%d")];
    [today] is the ordinal of the current date.  The difference must be a
    date the library can represent. *)
Definition date_string (today day_number : Z) : result string :=
  let ordinal := today - day_number in
  if (1 <=? ordinal) && (ordinal <=? Time.max_ordinal)
  then Ok (isoformat ordinal)
  else Raise OverflowError.

Definition date_strings (today : Z) : result (list string) :=
  traverse (date_string today) day_numbers.

(** [create_json_heatmap(gas_stations)], up to the value that is written
    out: the list under ["stations"]. *)
Definition create_json_heatmap (today : Z) (gas_stations : list GasStation)
  : result (list station_json) :=
  date_strings ← date_strings today;
  Ok (station_entry date_strings <$> gas_stations).

(* ===================================================================== *)
(** * Vocabulary of the properties                                        *)
(* ===================================================================== *)

(** ** Coordinate decoder *)

(** [f] is a positive binary64 within half a unit in the last place of
    [num / den]: the one nearest to it. *)
Definition nearest_to (f : float) (num den : Z) : Prop :=
  match f with
  | S754_finite false m e =>
      2 ^ 52 <= Zpos m < 2 ^ 53
      /\ e < 0
      /\ 2 * Z.abs (den * Zpos m - num * 2 ^ (- e)) < den
  | _ => False
  end.

Definition f_46_201 : float := S754_finite false 6502212699504509 (-47).
Definition f_5_198 : float := S754_finite false 5852427715767960 (-50).
Definition f_4_584829 : float := S754_finite false 5162058543989361 (-50).

(** The precondition of the decoder in the words of the specification:
    "fewer than integerDigits leading digits" and "a numeric string that
    may contain a decimal point followed by arbitrary trailing digits". *)
Definition leading_digits (angle : string) : Z :=
  Str.len (fst (Str.span_digits angle)).

Definition numeric (angle : string) : bool :=
  let '(ip, r) := Str.span_digits angle in
  negb (Str.is_empty ip)
  && match r with
     | EmptyString => true
     | String c fp => Ascii.eqb c "." && Str.all_digits fp
     end.

Definition fails_as_specified (angle : string) (number_len : Z) : Prop :=
  (exists e, get_coordinate angle number_len = Raise e)
  <-> (leading_digits angle < number_len \/ numeric angle = false).

(** ** The texts that [float] reads with a point *)

(** The language reference gives them as
<<
    digitpart   ::=  digit (["_"] digit)*
    number      ::=  [digitpart] "." digitpart | digitpart ["."]
    exponent    ::=  ("e" | "E") [sign] digitpart
    floatnumber ::=  number [exponent]
>>
    between optional white space and after an optional sign. *)

Definition is_ascii (c : ascii) : bool := (N_of_ascii c <? 128)%N.

(** A text of ASCII characters, the texts that the embedding models. *)
Definition ascii_text (s : string) : bool := Str.all is_ascii s.

(** [(["_"] digit)*] *)
Fixpoint digit_tail (s : string) : bool :=
  match s with
  | EmptyString => true
  | String c r =>
      if Str.is_digit c then digit_tail r
      else if Str.is_underscore c then
        match r with
        | String c' r' => Str.is_digit c' && digit_tail r'
        | EmptyString => false
        end
      else false
  end.

Definition digitpart (s : string) : bool :=
  match s with
  | String c r => Str.is_digit c && digit_tail r
  | EmptyString => false
  end.

(** [[digitpart]] *)
Definition opt_digitpart (s : string) : bool := Str.is_empty s || digitpart s.

(** [[sign]] *)
Definition sign_text (s : string) : Prop := s = "" \/ s = "+" \/ s = "-".

(** [[exponent]] *)
Definition exponent_text (s : string) : Prop :=
  s = ""
  \/ exists (c : ascii) (sg ds : string),
       s = String c (sg +:+ ds) /\ (c = "e" \/ c = "E")%char
       /\ sign_text sg /\ digitpart ds = true.

(** The text [before], a point, the text [after] is a decimal literal
    that [float] reads: white space, a sign, digits, the point, digits, an
    exponent, white space, every part optional but for the point and a
    digit on one side of it. *)
Definition decimal_text (before after : string) : Prop :=
  exists l sg ip fp ex r : string,
    before = l +:+ sg +:+ ip /\ after = fp +:+ ex +:+ r
    /\ Str.all Str.is_space l = true /\ Str.all Str.is_space r = true
    /\ sign_text sg
    /\ opt_digitpart ip = true /\ opt_digitpart fp = true
    /\ (ip <> "" \/ fp <> "")
    /\ exponent_text ex.

(** The characters of such a text other than the point. *)
Definition coordinate_char (c : ascii) : bool :=
  Str.is_digit c || Str.is_space c || Str.is_underscore c
  || Ascii.eqb c "+" || Ascii.eqb c "-" || Ascii.eqb c "e" || Ascii.eqb c "E".

(** The text starts with an underscore. *)
Definition starts_underscore (s : string) : bool :=
  match s with
  | String c _ => Str.is_underscore c
  | EmptyString => false
  end.

(** After a run of digits the text [ex'] stops the scan for digits. *)
Definition stops_digits (ex' : string) : Prop :=
  forall digs, Str.all_digits digs = true ->
    Str.span_digits (digs +:+ ex') = (digs, ex').

(** Neither white space nor an underscore. *)
Definition plain (c : ascii) : bool :=
  negb (Str.is_space c) && negb (Str.is_underscore c).

(** ** Forward fill *)

(** The rule in the words of the specification: "if [d] is a key in that
    fuel-type's history, emit its stored price and remember it as the last
    known value; else if a last-known value exists, emit it; else emit 0". *)
Fixpoint forward_fill (history : price_history) (last_known : option float)
    (window : list string) : list number :=
  match window with
  | [] => []
  | d :: window' =>
      match history !! d with
      | Some p => Float p :: forward_fill history (Some p) window'
      | None =>
          match last_known with
          | Some v => Float v :: forward_fill history last_known window'
          | None => Int 0 :: forward_fill history None window'
          end
      end
  end.

(** The stored price of the latest date of [dates] that has one. *)
Definition last_stored (history : price_history) (dates : list string)
  : option float :=
  last (omap (fun d => history !! d) dates).

(** The value the rule gives at a date, from the dates before it. *)
Definition filled (history : price_history) (earlier : list string) (d : string)
  : number :=
  match history !! d with
  | Some p => Float p
  | None =>
      match last_stored history earlier with
      | Some v => Float v
      | None => Int 0
      end
  end.

(** What the last element of the series tells about the prices seen. *)
Definition remembers (series : list number) (last_known : option float) : Prop :=
  match last_known with
  | Some v => last series = Some (Float v)
  | None => last series = None \/ last series = Some (Int 0)
  end.

(** ** Price history *)

(** What a [prix] element with attributes contributes: fuel type, date
    and price, read as [parse_prix] reads them. *)
Definition prix_entry (prix_element : ET.element)
  : result (option string * string * float) :=
  price ← (s ← need_str (ET.get "valeur" prix_element); py_float s);
  update_date ← parse_update_date (ET.get "maj" prix_element);
  Ok (ET.get "nom" prix_element, update_date, price).

(** [gas_price_history[fuel_type][date]], when both keys are there. *)
Definition stored (h : fuel_history) (fuel_type : option string) (date : string)
  : option float :=
  h !! fuel_type ≫= fun by_date => by_date !! date.

Definition record_price (h : fuel_history) (entry : option string * string * float)
  : fuel_history :=
  let '(fuel_type, date, price) := entry in
  <[fuel_type := <[date := price]> (default ∅ (h !! fuel_type))]> h.

(** ** Opening hours *)

(** The test of line 80, negated: the day goes to the [else] branch. *)
Definition day_open (day : ET.element) : bool :=
  negb (bool_decide (ET.get "ferme" day = Some "1")
        || bool_decide (ET.find "ouverture" day = None)).

(** Both times of a [horaire] element are there and in the ["%H.%M"] form. *)
Definition times_parse (horaire : ET.element) : bool :=
  is_ok (parse_time (ET.get "ouverture" horaire))
  && is_ok (parse_time (ET.get "fermeture" horaire)).

(** A day that takes the [else] branch and has no usable [horaire] child. *)
Definition day_unreadable (day : ET.element) : Prop :=
  day_open day = true
  /\ match ET.find "horaire" day with
     | Some horaire => times_parse horaire = false
     | None => True
     end.

(** ** Assembly *)

(** What identifies a station: its id, its name and the mandatory fields. *)
Definition station_key (s : GasStation) : Z * option string * mandatory :=
  (id s, name s,
   mkMandatory (address s) (latitude s) (longitude s) (postal_code s) (city s)).

(** The key of the station a record gives, if its mandatory fields decode. *)
Definition assembled (item : ET.element * (Z * option string))
  : option (Z * option string * mandatory) :=
  match mandatory_fields item.1 with
  | Ok m => Some (item.2.1, item.2.2, m)
  | Raise _ => None
  end.

(** ** Name resolution *)

(** The answer carries [name] between an opening and a closing marker:
    "text wrapped in a specific marker pattern". *)
Definition marked (html name : string) : Prop :=
  exists pre post,
    html = pre +:+ "<strong>" +:+ name +:+ "</strong>" +:+ post.

(** The failures of a lookup, in the words of the specification:
    "non-success response, network error, timeout, absence of the marker". *)
Definition lookup_fails (o : http_outcome) : Prop :=
  match o with
  | Failed => True
  | Response status_code html =>
      status_code <> 200 \/ ~ (exists name, marked html name)
  end.

(** [successes net ids k]: [k] of the lookups for [ids] succeed. *)
Inductive successes (net : network) : list Z -> nat -> Prop :=
  | successes_nil : successes net [] 0
  | successes_hit station_id ids k :
      ~ lookup_fails (net station_id) ->
      successes net ids k ->
      successes net (station_id :: ids) (S k)
  | successes_miss station_id ids k :
      lookup_fails (net station_id) ->
      successes net ids k ->
      successes net (station_id :: ids) k.

(** The pool invariant: a future that has a value has the value of [fn]
    on its own item. *)
Definition consistent {A R} (fn : A -> R) (xs : list A) (st : list (Pool.slot R))
  : Prop :=
  length st = length xs
  /\ forall (i : nat) (r : R), st !! i = Some (Pool.Done r) ->
       exists x, xs !! i = Some x /\ r = fn x.

(* ===================================================================== *)
(** * Sample documents                                                    *)
(* ===================================================================== *)

Module Sample.

Definition node (tag : string) (attributes : list (string * string))
    (children : list ET.element) : ET.element :=
  ET.Element tag (list_to_map attributes) None children.

Definition text_node (tag text : string) : ET.element :=
  ET.Element tag ∅ (Some text) [].

(** <<
    <horaires automate-24-24="1">
      <jour id="1" nom="Lundi" ferme="">
        <horaire ouverture="07.00" fermeture="18.30"/>
      </jour>
    </horaires> >> *)
Definition horaires : ET.element :=
  node "horaires" [("automate-24-24", "1")]
    [node "jour" [("id", "1"); ("nom", "Lundi"); ("ferme", "")]
       [node "horaire" [("ouverture", "07.00"); ("fermeture", "18.30")] []]].

(** A day with an [ouverture] child next to its [horaire] child. *)
Definition jour_ouvert : ET.element :=
  node "jour" [("id", "1"); ("nom", "Lundi"); ("ferme", "")]
    [node "ouverture" [] [];
     node "horaire" [("ouverture", "07.00"); ("fermeture", "18.30")] []].

(** A day with an [ouverture] child and no [horaire] child. *)
Definition jour_sans_horaire : ET.element :=
  node "jour" [("id", "2"); ("nom", "Mardi"); ("ferme", "")]
    [node "ouverture" [] []].

Definition prix (nom valeur maj : string) : ET.element :=
  node "prix" [("nom", nom); ("id", "1"); ("maj", maj); ("valeur", valeur)] [].

(** A [pdv] record with its address, city and coordinates, then [more]. *)
Definition pdv (station_id : string) (more : list ET.element) : ET.element :=
  node "pdv"
    [("id", station_id); ("latitude", "4620100"); ("longitude", "519800");
     ("cp", "01000"); ("pop", "R")]
    (text_node "adresse" "16 Avenue de Marboz"
       :: text_node "ville" "Bourg-en-Bresse" :: more).

Definition document (records : list ET.element) : ET.element :=
  node "pdv_liste" [] records.

(** A service that knows station 1000001 only. *)
Definition net : network :=
  fun station_id =>
    if station_id =? 1000001
    then Response 200 "<p><strong>RELAIS DE LA GARE</strong></p>"
    else Response 404 "".

(** What is checked of a result: the id, the flag and whether the
    schedule is absent, for each station. *)
Definition flags (r : result (list GasStation))
  : result (list (Z * bool * bool)) :=
  match r with
  | Ok l =>
      Ok ((fun s => (id s, is_always_open s,
                     bool_decide (opening_hours s = None))) <$> l)
  | Raise e => Raise e
  end.

Definition f_1_5 : float := S754_finite false 6755399441055744 (-52).
Definition f_1_6 : float := S754_finite false 7205759403792794 (-52).
Definition f_2_0 : float := S754_finite false 4503599627370496 (-51).

(** A station with one fuel type and one price. *)
Definition station : GasStation :=
  mkGasStation 1000001 (Some "RELAIS DE LA GARE") (Some "16 Avenue de Marboz")
    f_46_201 f_5_198 (Some "01000") (Some "Bourg-en-Bresse") true None
    {[Some "Gazole" := {["2022-06-01" := f_1_5]}]}.

End Sample.

(* ===================================================================== *)
(** * Further vocabulary                                                  *)
(* ===================================================================== *)

(** No point in the text. *)
Definition no_dot (c : ascii) : bool := negb (Ascii.eqb c ".").

(** What a [jour] element contributes to the schedule: its day number
    and its range, read as [parse_day] reads them. *)
Definition day_entry (day : ET.element) : result (Z * option HoursRange) :=
  day_id ← (s ← need_str (ET.get "id" day); py_int s);
  hours_range ←
    (if bool_decide (ET.get "ferme" day = Some "1")
        || bool_decide (ET.find "ouverture" day = None)
     then Ok None
     else
       horaire ← deref (ET.find "horaire" day);
       let opening_time := ET.get "ouverture" horaire in
       let closing_time := ET.get "fermeture" horaire in
       start_time ← parse_time opening_time;
       end_time ← parse_time closing_time;
       Ok (Some (mkHoursRange start_time end_time)));
  Ok (day_id, hours_range).

(** A [horaires] block that gives day 1 twice, first closed and then
    open, between other days:
<<
    <horaires>
      <jour id="1" nom="Lundi" ferme="1"/>
      <jour id="2" nom="Mardi" ferme="">
        <ouverture/><horaire ouverture="08.00" fermeture="12.00"/>
      </jour>
      <jour id="1" nom="Lundi" ferme="">
        <ouverture/><horaire ouverture="07.00" fermeture="18.30"/>
      </jour>
      <jour id="3" nom="Mercredi" ferme="1"/>
    </horaires> >> *)
Definition lundi_ferme : ET.element :=
  Sample.node "jour" [("id", "1"); ("nom", "Lundi"); ("ferme", "1")] [].

Definition mardi : ET.element :=
  Sample.node "jour" [("id", "2"); ("nom", "Mardi"); ("ferme", "")]
    [Sample.node "ouverture" [] [];
     Sample.node "horaire" [("ouverture", "08.00"); ("fermeture", "12.00")] []].

Definition mercredi_ferme : ET.element :=
  Sample.node "jour" [("id", "3"); ("nom", "Mercredi"); ("ferme", "1")] [].

Definition horaires_repeated : ET.element :=
  Sample.node "horaires" []
    [lundi_ferme; mardi; Sample.jour_ouvert; mercredi_ferme].

(** The record a station is made of: its id and the name looked up for
    it, its mandatory fields, its prices and its schedule. *)
Definition built_from (net : network) (pdv : ET.element) (s : GasStation) : Prop :=
  station_id_of pdv = Ok (id s)
  /\ name s = get_name_station net (id s)
  /\ mandatory_fields pdv
     = Ok (mkMandatory (address s) (latitude s) (longitude s)
             (postal_code s) (city s))
  /\ parse_prices pdv = Ok (gas_price_history s)
  /\ match ET.find "horaires" pdv with
     | Some horaires_element =>
         exists hours,
           parse_horaires horaires_element
           = Ok (ET.has_attr "automate-24-24" horaires_element, hours)
           /\ opening_hours s = Some hours
           /\ is_always_open s = ET.has_attr "automate-24-24" horaires_element
     | None => opening_hours s = None
     end.

(** The same for an item of the main loop, a record with its pair. *)
Definition built_item (item : ET.element * (Z * option string)) (s : GasStation)
  : Prop :=
  id s = item.2.1
  /\ name s = item.2.2
  /\ mandatory_fields item.1
     = Ok (mkMandatory (address s) (latitude s) (longitude s)
             (postal_code s) (city s))
  /\ parse_prices item.1 = Ok (gas_price_history s)
  /\ match ET.find "horaires" item.1 with
     | Some horaires_element =>
         exists hours,
           parse_horaires horaires_element
           = Ok (ET.has_attr "automate-24-24" horaires_element, hours)
           /\ opening_hours s = Some hours
           /\ is_always_open s = ET.has_attr "automate-24-24" horaires_element
     | None => opening_hours s = None
     end.

(** The mandatory fields of a record decode. *)
Definition decodes (pdv : ET.element) : bool := is_ok (mandatory_fields pdv).

(** The flag a station without a schedule must have, given the flag
    [prev] left by the stations before it. *)
Fixpoint flags_chain (prev : option bool) (l : list GasStation) : Prop :=
  match l with
  | [] => True
  | s :: l' =>
      (opening_hours s = None -> prev = Some (is_always_open s))
      /\ flags_chain (Some (is_always_open s)) l'
  end.

Definition is_float (v : number) : bool :=
  match v with Float _ => true | Int _ => false end.

(** The text of a date and time of day, as [YYYY-MM-DDTHH:MM:SS]. *)
Definition timestamp_text (t : Time.datetime) : string :=
  Time.strftime_date (Time.year t) (Time.month t) (Time.day t) +:+ "T"
  +:+ Time.pad2 (Time.hour t) +:+ ":" +:+ Time.pad2 (Time.minute t)
  +:+ ":" +:+ Time.pad2 (Time.second t).

(** ** The calendar *)

(** The Gregorian calendar repeats every 400 years of 146097 days. *)
Definition cycle_days : Z := 146097.

(** A date as one number, in the order of the calendar. *)
Definition date_number (ymd : Z * Z * Z) : Z :=
  let '(y, m, d) := ymd in y * 10000 + m * 100 + d.

(** What is checked of day [n] of the first cycle (day 0 is 0001-01-01):
    it is a date of the years 1 to 400 (to 399 up to the last day the
    library has in its last cycle), with a real month and day, and the
    day after it comes later in the calendar. *)
Definition day_checked (n : Z) : bool :=
  let '(y, m, d) := Time.ord2ymd (n + 1) in
  (1 <=? y) && (y <=? 400) && ((145730 <? n) || (y <=? 399))
  && (1 <=? m) && (m <=? 12)
  && (1 <=? d) && (d <=? Time.days_in_month y m)
  && (date_number (y, m, d) <? date_number (Time.ord2ymd (n + 2))).

(** [day_checked] on the [len] days from [lo], by halving. *)
Fixpoint days_checked (fuel : nat) (lo len : Z) : bool :=
  match fuel with
  | O => (len <=? 0) || ((len =? 1) && day_checked lo)
  | S fuel' =>
      let h := len / 2 in
      days_checked fuel' lo h && days_checked fuel' (lo + h) (len - h)
  end.

(** ** The whole program *)

(** The body of the script, lines 177 and 179:
<<
    gas_stations = parse_data()
    create_json_heatmap(gas_stations)
>> *)
Definition run (net : network) (today : Z) (root : ET.element)
  : result (list station_json) :=
  gas_stations ← parse_data net root;
  create_json_heatmap today gas_stations.

(** The entry of the output made of a record: its id, the name looked
    up for it, and the series of the prices read from the record. *)
Definition entry_of (net : network) (dates : list string)
    (pdv : ET.element) (e : station_json) : Prop :=
  station_id_of pdv = Ok (j_id e)
  /\ j_name e = get_name_station net (j_id e)
  /\ exists h : fuel_history,
       parse_prices pdv = Ok h
       /\ carburants e = fill_series dates <$> h.

(* ===================================================================== *)
(** * Properties                                                          *)
(* ===================================================================== *)
(* ===================================================================== *)
(** * Strings: classes of characters, slices                              *)
(* ===================================================================== *)

Module StrFacts.
Import Str.

Lemma str_app_cons (c : ascii) (s t : string) : String c s +:+ t = String c (s +:+ t).
Proof. reflexivity. Qed.

Lemma str_app_empty (t : string) : "" +:+ t = t.
Proof. reflexivity. Qed.

Lemma str_app_nil_r (s : string) : s +:+ "" = s.
Proof.
  induction s as [|c s IH]; [reflexivity | now rewrite str_app_cons, IH].
Qed.

Lemma str_app_assoc (s1 s2 s3 : string) : (s1 +:+ s2) +:+ s3 = s1 +:+ (s2 +:+ s3).
Proof.
  induction s1 as [|c s1 IH]; [reflexivity | now rewrite !str_app_cons, IH].
Qed.

Lemma all_app (p : ascii -> bool) (s1 s2 : string) :
  all p (s1 +:+ s2) = all p s1 && all p s2.
Proof.
  induction s1 as [|c s1 IH]; [reflexivity|].
  rewrite str_app_cons. simpl. now rewrite IH, andb_assoc.
Qed.

Lemma all_impl (p q : ascii -> bool) (s : string) :
  (forall c, p c = true -> q c = true) -> all p s = true -> all q s = true.
Proof.
  intros Hpq. induction s as [|c s IH]; simpl; [reflexivity|].
  intros H. apply andb_true_iff in H as [Hc Hs].
  apply andb_true_iff. auto.
Qed.

Lemma take_drop (s : string) : forall k, take k s +:+ drop k s = s.
Proof.
  induction s as [|c s IH]; intros k; simpl; [reflexivity|].
  destruct (k <=? 0); [reflexivity | now rewrite str_app_cons, IH].
Qed.

Lemma slice_split (s : string) (n : Z) : slice_to s n +:+ slice_from s n = s.
Proof. apply take_drop. Qed.

Lemma all_take_drop (p : ascii -> bool) (s : string) (k : Z) :
  all p (take k s) && all p (drop k s) = all p s.
Proof. now rewrite <- all_app, take_drop. Qed.

Lemma before_dot_empty (s : string) :
  before_dot s = "" -> s = "" \/ exists r, s = String "." r.
Proof.
  destruct s as [|c r]; [now left|]. simpl.
  destruct (Ascii.eqb c ".") eqn:Hc; [|discriminate].
  apply Ascii.eqb_eq in Hc as ->. right. now exists r.
Qed.

(** ** What a digit is not *)

Ltac by_cases c := destruct c as [[] [] [] [] [] [] [] []]; vm_compute; congruence.

Lemma digit_not_space c : is_digit c = true -> is_space c = false.
Proof. by_cases c. Qed.

Lemma digit_not_underscore c : is_digit c = true -> is_underscore c = false.
Proof. by_cases c. Qed.

Lemma digit_not_dot c : is_digit c = true -> Ascii.eqb c "." = false.
Proof. by_cases c. Qed.

Lemma digit_not_sign c :
  is_digit c = true -> Ascii.eqb c "-" = false /\ Ascii.eqb c "+" = false.
Proof. destruct c as [[] [] [] [] [] [] [] []]; vm_compute; split; congruence. Qed.

Lemma lower_letter c : is_letter (lower c) = true -> is_letter c = true.
Proof. by_cases c. Qed.

Lemma lower_e_letter c : Ascii.eqb (lower c) "e" = true -> is_letter c = true.
Proof. by_cases c. Qed.

(** ** Digit spans *)

Lemma span_digits_spec (s : string) :
  forall d r, span_digits s = (d, r) -> s = d +:+ r /\ all_digits d = true.
Proof.
  induction s as [|c s IH]; intros d r H; simpl in H.
  - injection H as <- <-. now split.
  - destruct (is_digit c) eqn:Hc.
    + destruct (span_digits s) as [d' t] eqn:Hs. injection H as <- <-.
      destruct (IH d' t eq_refl) as [-> Hd]. split; [reflexivity|].
      unfold all_digits in *. simpl. now rewrite Hc, Hd.
    + injection H as <- <-. now split.
Qed.

Lemma span_digits_all (d : string) :
  all_digits d = true -> span_digits d = (d, "").
Proof.
  unfold all_digits. induction d as [|c d IH]; simpl; [reflexivity|].
  intros H. apply andb_true_iff in H as [Hc Hd]. now rewrite Hc, (IH Hd).
Qed.

Lemma span_digits_stop (d : string) (c : ascii) (r : string) :
  all_digits d = true -> is_digit c = false ->
  span_digits (d +:+ String c r) = (d, String c r).
Proof.
  unfold all_digits. intros Hd Hc.
  induction d as [|c' d IH]; [rewrite str_app_empty | rewrite str_app_cons]; simpl.
  - now rewrite Hc.
  - simpl in Hd. apply andb_true_iff in Hd as [Hc' Hd]. now rewrite Hc', (IH Hd).
Qed.

(** ** White space and underscores *)

Lemma lstrip_all (p : ascii -> bool) (s : string) :
  (forall c, is_space c = true -> p c = true) ->
  all p (lstrip s) = true -> all p s = true.
Proof.
  intros Hsp. induction s as [|c s IH]; simpl; [reflexivity|].
  destruct (is_space c) eqn:Hc.
  - intros H. now rewrite (Hsp c Hc), (IH H).
  - simpl. auto.
Qed.

Lemma rstrip_all (p : ascii -> bool) (s : string) :
  (forall c, is_space c = true -> p c = true) ->
  all p (rstrip s) = true -> all p s = true.
Proof.
  intros Hsp. induction s as [|c s IH]; simpl; [reflexivity|].
  destruct (is_space c && is_empty (rstrip s)) eqn:Hc.
  - apply andb_true_iff in Hc as [Hc He]. intros _.
    rewrite (Hsp c Hc). simpl. apply IH.
    destruct (rstrip s); [reflexivity | discriminate].
  - simpl. intros H. apply andb_true_iff in H as [H1 H2].
    now rewrite H1, (IH H2).
Qed.

Lemma strip_all (p : ascii -> bool) (s : string) :
  (forall c, is_space c = true -> p c = true) ->
  all p (strip s) = true -> all p s = true.
Proof.
  intros Hsp H. apply (lstrip_all p s Hsp), (rstrip_all p _ Hsp), H.
Qed.

Lemma lstrip_id (s : string) :
  all (fun c => negb (is_space c)) s = true -> lstrip s = s.
Proof.
  destruct s as [|c s]; simpl; [reflexivity|].
  intros H. apply andb_true_iff in H as [Hc _].
  now destruct (is_space c).
Qed.

Lemma rstrip_id (s : string) :
  all (fun c => negb (is_space c)) s = true -> rstrip s = s.
Proof.
  induction s as [|c s IH]; simpl; [reflexivity|].
  intros H. apply andb_true_iff in H as [Hc Hs]. rewrite (IH Hs).
  now destruct (is_space c).
Qed.

Lemma strip_id (s : string) :
  all (fun c => negb (is_space c)) s = true -> strip s = s.
Proof. intros H. unfold strip. now rewrite (lstrip_id s H), (rstrip_id s H). Qed.

Lemma strip_underscores_all (p : ascii -> bool) (s : string) :
  p "_"%char = true ->
  forall prev t, strip_underscores prev s = Some t -> all p t = true -> all p s = true.
Proof.
  intros Hu. induction s as [|c s IH]; intros prev t H Ht; simpl in *; [reflexivity|].
  unfold is_underscore in H. destruct (Ascii.eqb c "_") eqn:Hc.
  - apply Ascii.eqb_eq in Hc as ->. rewrite Hu. simpl.
    destruct prev as [q|]; [|discriminate].
    destruct (is_digit q); [|discriminate]. eapply IH; eauto.
  - destruct (after_underscore prev && negb (is_digit c)); [discriminate|].
    destruct (strip_underscores (Some c) s) as [t'|] eqn:Hs; [|discriminate].
    injection H as <-. simpl in Ht. apply andb_true_iff in Ht as [H1 H2].
    rewrite H1. simpl. eapply IH; eauto.
Qed.

Lemma strip_underscores_id (s : string) :
  all (fun c => negb (is_underscore c)) s = true ->
  forall prev, after_underscore prev = false -> strip_underscores prev s = Some s.
Proof.
  induction s as [|c s IH]; intros H prev Hp; simpl in *.
  - now rewrite Hp.
  - apply andb_true_iff in H as [Hc Hs]. apply negb_true_iff in Hc.
    rewrite Hc, Hp. simpl. now rewrite (IH Hs (Some c) Hc).
Qed.

Lemma split_sign_all (p : ascii -> bool) (s : string) neg body :
  p "-"%char = true -> p "+"%char = true ->
  split_sign s = (neg, body) -> all p body = true -> all p s = true.
Proof.
  intros Hm Hp H Hb. destruct s as [|c s]; [reflexivity|].
  unfold split_sign in H.
  destruct (Ascii.eqb c "-") eqn:H1.
  { apply Ascii.eqb_eq in H1 as ->. injection H as <- <-. simpl. now rewrite Hm. }
  destruct (Ascii.eqb c "+") eqn:H2.
  { apply Ascii.eqb_eq in H2 as ->. injection H as <- <-. simpl. now rewrite Hp. }
  now injection H as <- <-.
Qed.

Lemma split_sign_id (c : ascii) (s : string) :
  Ascii.eqb c "-" = false -> Ascii.eqb c "+" = false ->
  split_sign (String c s) = (false, String c s).
Proof. intros H1 H2. unfold split_sign. now rewrite H1, H2. Qed.

Lemma lower_str_letters (s : string) :
  all is_letter (lower_str s) = true -> all is_letter s = true.
Proof.
  induction s as [|c s IH]; simpl; [reflexivity|].
  intros H. apply andb_true_iff in H as [Hc Hs].
  now rewrite (lower_letter c Hc), (IH Hs).
Qed.

(** ** The text before the first point *)

Lemma before_dot_stop (a rest : string) :
  all no_dot a = true -> before_dot (a +:+ String "." rest) = a.
Proof.
  induction a as [|c a IH]; [reflexivity|]. rewrite str_app_cons. simpl.
  intros H. apply andb_true_iff in H as [Hc Ha]. unfold no_dot in Hc.
  apply negb_true_iff in Hc. now rewrite Hc, (IH Ha).
Qed.

Lemma before_dot_id (a : string) : all no_dot a = true -> before_dot a = a.
Proof.
  induction a as [|c a IH]; [reflexivity|]. simpl.
  intros H. apply andb_true_iff in H as [Hc Ha]. unfold no_dot in Hc.
  apply negb_true_iff in Hc. now rewrite Hc, (IH Ha).
Qed.

Lemma digit_no_dot c : is_digit c = true -> no_dot c = true.
Proof. intros H. unfold no_dot. now rewrite (digit_not_dot c H). Qed.

Lemma before_dot_no_dot (s : string) : all no_dot (before_dot s) = true.
Proof.
  induction s as [|c s IH]; [reflexivity|]. simpl.
  destruct (Ascii.eqb c ".") eqn:Hc; [reflexivity|].
  simpl. unfold no_dot at 1. now rewrite Hc.
Qed.

End StrFacts.

(* ===================================================================== *)
(** * [float]: what it accepts                                            *)
(* ===================================================================== *)

Module FloatFacts.
Import Str StrFacts.

(** The only exception of [float] on a text is [ValueError]. *)
Lemma py_float_raises (s : string) (e : exn) :
  py_float s = Raise e -> e = ValueError.
Proof.
  unfold py_float.
  destruct (strip_underscores None (strip s)) as [t|]; [|congruence].
  destruct (split_sign t) as [neg body].
  destruct (parse_decimal body); [discriminate|].
  destruct (parse_special neg body); [discriminate | congruence].
Qed.

Lemma plain_digit c : is_digit c = true -> plain c = true.
Proof.
  intros H. unfold plain.
  now rewrite (digit_not_space c H), (digit_not_underscore c H).
Qed.

(** Digits, a point, digits, with a digit somewhere: accepted, with the
    value of the digits scaled by the length of the fraction. *)
Lemma py_float_point (ip fp : string) :
  all_digits ip = true -> all_digits fp = true ->
  ip +:+ fp <> "" ->
  py_float (ip +:+ "." +:+ fp)
  = Ok (round_decimal false (digits_value (ip +:+ fp)) (0 - len fp)).
Proof.
  intros Hip Hfp Hne. unfold py_float.
  assert (Hplain : all plain (ip +:+ "." +:+ fp) = true).
  { rewrite all_app, (all_impl _ _ ip plain_digit Hip).
    change ("." +:+ fp) with (String "." fp). simpl.
    now rewrite (all_impl _ _ fp plain_digit Hfp). }
  rewrite strip_id
    by (apply (all_impl plain); [|exact Hplain]; intros c H;
        now apply andb_true_iff in H as [-> _]).
  rewrite strip_underscores_id;
    [ | apply (all_impl plain); [|exact Hplain]; intros c H;
        now apply andb_true_iff in H as [_ ->] | reflexivity ].
  assert (Hsign : split_sign (ip +:+ "." +:+ fp) = (false, ip +:+ "." +:+ fp)).
  { destruct ip as [|c ip]; [reflexivity|]. rewrite str_app_cons.
    unfold all_digits in Hip. simpl in Hip. apply andb_true_iff in Hip as [Hc _].
    destruct (digit_not_sign c Hc) as [H1 H2]. now apply split_sign_id. }
  rewrite Hsign. unfold parse_decimal.
  change ("." +:+ fp) with (String "." fp).
  rewrite (span_digits_stop ip "." fp Hip eq_refl).
  unfold parse_fraction. rewrite Ascii.eqb_refl, (span_digits_all fp Hfp).
  replace (is_empty ip && is_empty fp) with false; [reflexivity|].
  destruct ip; [|reflexivity]. destruct fp; [|reflexivity]. now destruct Hne.
Qed.

End FloatFacts.

(* ===================================================================== *)
(** * [float]: the texts with a point that it reads                       *)
(* ===================================================================== *)

Module LiteralFacts.
Import Str StrFacts.

Lemma digit_tail_ind (P : string -> Prop) :
  P "" ->
  (forall c g, is_digit c = true -> digit_tail g = true -> P g -> P (String c g)) ->
  (forall c g, is_digit c = true -> digit_tail g = true -> P g ->
     P (String "_" (String c g))) ->
  forall g, digit_tail g = true -> P g.
Proof.
  intros H0 H1 H2 g.
  assert (H : forall (n : nat) g', (String.length g' <= n)%nat ->
                digit_tail g' = true -> P g').
  { induction n as [|n IH]; intros g' Hlen Hg.
    - destruct g'; [exact H0 | simpl in Hlen; lia].
    - destruct g' as [|c r]; [exact H0|]. simpl in Hg, Hlen.
      destruct (is_digit c) eqn:Hc.
      + apply H1; [exact Hc | exact Hg | apply IH; [lia | exact Hg]].
      + destruct (is_underscore c) eqn:Hu; [|discriminate].
        apply Ascii.eqb_eq in Hu as ->.
        destruct r as [|c' r']; [discriminate|].
        apply andb_true_iff in Hg as [Hc' Hg]. simpl in Hlen.
        apply H2; [exact Hc' | exact Hg | apply IH; [lia | exact Hg]]. }
  exact (H (String.length g) g (le_n _)).
Qed.

(** ** White space around a text *)

Lemma rstrip_spaces (r : string) : all is_space r = true -> rstrip r = "".
Proof.
  induction r as [|c r IH]; simpl; [reflexivity|].
  intros H. apply andb_true_iff in H as [Hc Hr]. now rewrite (IH Hr), Hc.
Qed.

Lemma rstrip_app_spaces (m r : string) :
  all is_space r = true -> rstrip (m +:+ r) = rstrip m.
Proof.
  intros Hr. induction m as [|c m IH].
  - rewrite str_app_empty. now apply rstrip_spaces.
  - rewrite str_app_cons. simpl. now rewrite IH.
Qed.

Lemma lstrip_spaces_app (l s : string) :
  all is_space l = true -> lstrip (l +:+ s) = lstrip s.
Proof.
  induction l as [|c l IH]; [reflexivity|].
  intros H. simpl in H. apply andb_true_iff in H as [Hc Hl].
  rewrite str_app_cons. simpl. now rewrite Hc, (IH Hl).
Qed.

Lemma strip_padded (l m r : string) :
  all is_space l = true -> all is_space r = true ->
  m <> "" -> all (fun c => negb (is_space c)) m = true ->
  strip (l +:+ m +:+ r) = m.
Proof.
  intros Hl Hr Hne Hm. unfold strip. rewrite (lstrip_spaces_app l _ Hl).
  destruct m as [|c m]; [now destruct Hne|].
  assert (Hc : is_space c = false).
  { simpl in Hm. apply andb_true_iff in Hm as [Hc _]. now apply negb_true_iff in Hc. }
  rewrite str_app_cons. simpl lstrip. rewrite Hc, <- str_app_cons.
  rewrite (rstrip_app_spaces _ r Hr). now apply rstrip_id.
Qed.

Lemma lstrip_split (s : string) :
  exists l, s = l +:+ lstrip s /\ all is_space l = true.
Proof.
  induction s as [|c s (l & E & Hl)]; [now exists ""|]. simpl.
  destruct (is_space c) eqn:Hc.
  - exists (String c l). rewrite str_app_cons, <- E. simpl. now rewrite Hc, Hl.
  - now exists "".
Qed.

Lemma rstrip_split (s : string) :
  exists r, s = rstrip s +:+ r /\ all is_space r = true.
Proof.
  induction s as [|c s (r & E & Hr)]; [now exists ""|]. simpl.
  destruct (is_space c && is_empty (rstrip s)) eqn:Hc.
  - apply andb_true_iff in Hc as [Hc He].
    destruct (rstrip s); [|discriminate]. rewrite str_app_empty in E. subst s.
    exists (String c r). rewrite str_app_empty. simpl. now rewrite Hc, Hr.
  - exists r. now rewrite str_app_cons, <- E.
Qed.

Lemma strip_split (s : string) :
  exists l r, s = l +:+ strip s +:+ r
              /\ all is_space l = true /\ all is_space r = true.
Proof.
  destruct (lstrip_split s) as (l & El & Hl).
  destruct (rstrip_split (lstrip s)) as (r & Er & Hr).
  exists l, r. unfold strip. now rewrite <- Er, <- El.
Qed.

(** ** Underscores, forwards: a well-formed text loses its underscores *)

Lemma split_sign_plus (s : string) : split_sign (String "+" s) = (false, s).
Proof. reflexivity. Qed.

Lemma split_sign_minus (s : string) : split_sign (String "-" s) = (true, s).
Proof. reflexivity. Qed.

Lemma su_char (prev : option ascii) (c : ascii) (r : string) :
  is_underscore c = false -> after_underscore prev = false ->
  strip_underscores prev (String c r)
  = option_map (String c) (strip_underscores (Some c) r).
Proof. intros H1 H2. simpl. now rewrite H1, H2. Qed.

Lemma su_end (prev : option ascii) :
  after_underscore prev = false -> strip_underscores prev "" = Some "".
Proof. intros H. simpl. now rewrite H. Qed.

Lemma option_map_append (digs : string) (c : ascii) (o : option string) :
  option_map (String c) (option_map (String.append digs) o)
  = option_map (String.append (String c digs)) o.
Proof. now destruct o. Qed.

Lemma su_tail_fwd (g : string) :
  digit_tail g = true ->
  forall d, is_digit d = true ->
  exists digs d', all_digits digs = true /\ is_digit d' = true
    /\ forall rest, strip_underscores (Some d) (g +:+ rest)
                    = option_map (String.append digs)
                        (strip_underscores (Some d') rest).
Proof.
  revert g.
  apply (digit_tail_ind (fun g => forall d, is_digit d = true ->
    exists digs d', all_digits digs = true /\ is_digit d' = true
      /\ forall rest, strip_underscores (Some d) (g +:+ rest)
                      = option_map (String.append digs)
                          (strip_underscores (Some d') rest))).
  - intros d Hd. exists "", d. split; [reflexivity|]. split; [exact Hd|].
    intros rest. rewrite str_app_empty.
    now destruct (strip_underscores (Some d) rest).
  - intros c g Hc _ IH d Hd. destruct (IH c Hc) as (digs & d' & Hdigs & Hd' & E).
    exists (String c digs), d'. split; [|split; [exact Hd'|]].
    + unfold all_digits in *. simpl. now rewrite Hc, Hdigs.
    + intros rest. rewrite str_app_cons.
      rewrite su_char; [| now apply digit_not_underscore
                        | simpl; now apply digit_not_underscore].
      now rewrite E, option_map_append.
  - intros c g Hc _ IH d Hd. destruct (IH c Hc) as (digs & d' & Hdigs & Hd' & E).
    exists (String c digs), d'. split; [|split; [exact Hd'|]].
    + unfold all_digits in *. simpl. now rewrite Hc, Hdigs.
    + intros rest. rewrite !str_app_cons.
      change (strip_underscores (Some d) (String "_" (String c (g +:+ rest))))
        with (if is_digit d
              then strip_underscores (Some "_"%char) (String c (g +:+ rest))
              else None).
      rewrite Hd. simpl strip_underscores at 1.
      rewrite (digit_not_underscore c Hc), Hc. simpl.
      now rewrite E, option_map_append.
Qed.

Lemma su_group_fwd (g : string) (prev : option ascii) :
  opt_digitpart g = true -> after_underscore prev = false ->
  exists digs prev', all_digits digs = true /\ is_empty digs = is_empty g
    /\ after_underscore prev' = false
    /\ forall rest, strip_underscores prev (g +:+ rest)
                    = option_map (String.append digs)
                        (strip_underscores prev' rest).
Proof.
  intros Hg Hp. destruct g as [|c g].
  - exists "", prev. repeat split; [exact Hp|].
    intros rest. rewrite str_app_empty. now destruct (strip_underscores prev rest).
  - unfold opt_digitpart in Hg. simpl in Hg. apply andb_true_iff in Hg as [Hc Hg].
    destruct (su_tail_fwd g Hg c Hc) as (digs & d' & Hdigs & Hd' & E).
    exists (String c digs), (Some d'). split; [|split; [reflexivity|split]].
    + unfold all_digits in *. simpl. now rewrite Hc, Hdigs.
    + simpl. now apply digit_not_underscore.
    + intros rest. rewrite str_app_cons.
      rewrite su_char; [| now apply digit_not_underscore | exact Hp].
      now rewrite E, option_map_append.
Qed.

(** ** The characters of the parts of a literal *)

Section Parts.
Variable p : ascii -> bool.
Hypothesis p_digit : forall c, is_digit c = true -> p c = true.
Hypothesis p_underscore : p "_" = true.

Lemma digit_tail_all (g : string) : digit_tail g = true -> all p g = true.
Proof.
  revert g. apply digit_tail_ind; [reflexivity | |].
  - intros c g Hc _ IH. simpl. now rewrite (p_digit c Hc), IH.
  - intros c g Hc _ IH. simpl. now rewrite p_underscore, (p_digit c Hc), IH.
Qed.

Lemma opt_digitpart_all (g : string) : opt_digitpart g = true -> all p g = true.
Proof.
  destruct g as [|c g]; [reflexivity|]. unfold opt_digitpart. simpl.
  intros H. apply andb_true_iff in H as [Hc Hg].
  now rewrite (p_digit c Hc), (digit_tail_all g Hg).
Qed.

Hypothesis p_plus : p "+" = true.
Hypothesis p_minus : p "-" = true.

Lemma sign_text_all (sg : string) : sign_text sg -> all p sg = true.
Proof. intros [->|[->| ->]]; simpl; [reflexivity | now rewrite p_plus | now rewrite p_minus]. Qed.

Hypothesis p_e : p "e" = true.
Hypothesis p_E : p "E" = true.

Lemma exponent_text_all (ex : string) : exponent_text ex -> all p ex = true.
Proof.
  intros [->|(c & sg & ds & -> & Hc & Hsg & Hds)]; [reflexivity|].
  simpl. rewrite all_app, (sign_text_all sg Hsg).
  rewrite (opt_digitpart_all ds) by (unfold opt_digitpart; now rewrite Hds, orb_true_r).
  destruct Hc as [->| ->]; [now rewrite p_e | now rewrite p_E].
Qed.

End Parts.

Lemma str_app_not_empty_r (s1 s2 : string) : s2 <> "" -> s1 +:+ s2 <> "".
Proof.
  intros H. destruct s1 as [|c s1]; [exact H|]. rewrite str_app_cons. discriminate.
Qed.

(** ** A well-formed text is read *)

Lemma su_exponent_fwd (ex : string) (prev : option ascii) :
  exponent_text ex -> after_underscore prev = false ->
  exists ex', strip_underscores prev ex = Some ex'
    /\ (exists z, parse_exponent ex' = Some z) /\ stops_digits ex'.
Proof.
  intros [->|(c & sg & ds & -> & Hc & Hsg & Hds)] Hp.
  - exists "". split; [now apply su_end|]. split; [now exists 0|].
    intros digs Hd. rewrite str_app_nil_r. now apply span_digits_all.
  - assert (Hopt : opt_digitpart ds = true)
      by (unfold opt_digitpart; now rewrite Hds, orb_true_r).
    assert (Hcu : is_underscore c = false) by (now destruct Hc as [->| ->]).
    assert (Hcd : is_digit c = false) by (now destruct Hc as [->| ->]).
    assert (Hce : Ascii.eqb (lower c) "e" = true) by (now destruct Hc as [->| ->]).
    assert (Hbody : forall prev1, after_underscore prev1 = false ->
              exists digs, strip_underscores prev1 ds = Some digs
                /\ all_digits digs = true /\ is_empty digs = false).
    { intros prev1 Hp1.
      destruct (su_group_fwd ds prev1 Hopt Hp1) as (digs & p' & Hdigs & He & Hp' & E).
      exists digs. specialize (E ""). rewrite str_app_nil_r, (su_end p' Hp') in E.
      simpl in E. rewrite str_app_nil_r in E. split; [exact E|]. split; [exact Hdigs|].
      rewrite He. now destruct ds. }
    assert (Hexp : forall neg digs, all_digits digs = true -> is_empty digs = false ->
              exists z, (let '(ds0, r2) := span_digits digs in
                         if is_empty ds0 || negb (is_empty r2) then None
                         else Some (if (neg : bool) then - digits_value ds0
                                    else digits_value ds0)) = Some z).
    { intros neg digs Hd He. rewrite (span_digits_all digs Hd), He. simpl. eauto. }
    rewrite (su_char prev c _ Hcu Hp).
    destruct Hsg as [->|[->| ->]].
    + rewrite str_app_empty. assert (Hpc : after_underscore (Some c) = false) by exact Hcu.
      destruct (Hbody (Some c) Hpc) as (digs & E & Hd & He).
      rewrite E. exists (String c digs). split; [reflexivity|]. split.
      * unfold parse_exponent. rewrite Hce.
        destruct digs as [|c0 digs]; [discriminate|].
        unfold all_digits in Hd. pose proof Hd as Hd0. simpl in Hd0.
        apply andb_true_iff in Hd0 as [Hc0 _].
        destruct (digit_not_sign c0 Hc0) as [H1 H2].
        rewrite (split_sign_id c0 digs H1 H2). exact (Hexp false _ Hd eq_refl).
      * intros d0 Hd0. now apply span_digits_stop.
    + change ("+" +:+ ds) with (String "+" ds).
      rewrite su_char; [| reflexivity | exact Hcu].
      destruct (Hbody (Some "+"%char) eq_refl) as (digs & E & Hd & He).
      rewrite E. exists (String c (String "+" digs)). split; [reflexivity|]. split.
      * unfold parse_exponent. rewrite Hce.
        rewrite split_sign_plus. exact (Hexp false _ Hd He).
      * intros d0 Hd0. now apply span_digits_stop.
    + change ("-" +:+ ds) with (String "-" ds).
      rewrite su_char; [| reflexivity | exact Hcu].
      destruct (Hbody (Some "-"%char) eq_refl) as (digs & E & Hd & He).
      rewrite E. exists (String c (String "-" digs)). split; [reflexivity|]. split.
      * unfold parse_exponent. rewrite Hce.
        rewrite split_sign_minus. exact (Hexp true _ Hd He).
      * intros d0 Hd0. now apply span_digits_stop.
Qed.

Lemma parse_decimal_literal (di df ex' : string) (z : Z) :
  all_digits di = true -> all_digits df = true ->
  is_empty di && is_empty df = false ->
  parse_exponent ex' = Some z -> stops_digits ex' ->
  parse_decimal (di +:+ "." +:+ df +:+ ex') = Some (Decimal di df z).
Proof.
  intros Hdi Hdf Hne Hz Hstop. unfold parse_decimal.
  change ("." +:+ df +:+ ex') with (String "." (df +:+ ex')).
  rewrite (span_digits_stop di "." _ Hdi eq_refl).
  unfold parse_fraction. rewrite Ascii.eqb_refl, (Hstop df Hdf), Hne, Hz. reflexivity.
Qed.

Lemma body_fwd (ip fp ex : string) (prev : option ascii) :
  opt_digitpart ip = true -> opt_digitpart fp = true ->
  ip <> "" \/ fp <> "" -> exponent_text ex ->
  after_underscore prev = false ->
  exists body d,
    strip_underscores prev (ip +:+ "." +:+ fp +:+ ex) = Some body
    /\ parse_decimal body = Some d
    /\ split_sign body = (false, body).
Proof.
  intros Hip Hfp Hne Hex Hp.
  destruct (su_group_fwd ip prev Hip Hp) as (di & p1 & Hdi & Ei & Hp1 & E1).
  destruct (su_group_fwd fp (Some "."%char) Hfp eq_refl)
    as (df & p2 & Hdf & Ef & Hp2 & E2).
  destruct (su_exponent_fwd ex p2 Hex Hp2) as (ex' & E3 & [z Hz] & Hstop).
  exists (di +:+ "." +:+ df +:+ ex'), (Decimal di df z).
  split; [|split].
  - rewrite E1. change ("." +:+ fp +:+ ex) with (String "." (fp +:+ ex)).
    rewrite (su_char p1 "." _ eq_refl Hp1), E2, E3. reflexivity.
  - apply parse_decimal_literal; try assumption.
    rewrite Ei, Ef. destruct ip, fp; try reflexivity. now destruct Hne.
  - destruct di as [|c di]; [reflexivity|]. rewrite str_app_cons.
    unfold all_digits in Hdi. simpl in Hdi. apply andb_true_iff in Hdi as [Hc _].
    destruct (digit_not_sign c Hc) as [H1 H2]. now apply split_sign_id.
Qed.

(** A text of the grammar, its point written, is read by [float]. *)
Lemma py_float_decimal_text (before after : string) :
  decimal_text before after ->
  exists f, py_float (before +:+ "." +:+ after) = Ok f.
Proof.
  intros (l & sg & ip & fp & ex & r & -> & -> & Hl & Hr & Hsg & Hip & Hfp & Hne & Hex).
  replace ((l +:+ sg +:+ ip) +:+ "." +:+ fp +:+ ex +:+ r)
    with (l +:+ (sg +:+ ip +:+ "." +:+ fp +:+ ex) +:+ r)
    by (now rewrite !str_app_assoc).
  unfold py_float. rewrite strip_padded; [| exact Hl | exact Hr | |].
  - assert (Hrun : forall prev, after_underscore prev = false ->
              exists body d,
                strip_underscores prev (ip +:+ "." +:+ fp +:+ ex) = Some body
                /\ parse_decimal body = Some d /\ split_sign body = (false, body))
      by (intros prev Hp; now apply body_fwd).
    destruct Hsg as [->|[->| ->]].
    + rewrite str_app_empty. destruct (Hrun None eq_refl) as (body & d & -> & Hd & Hs).
      rewrite Hs. cbv beta iota. rewrite Hd. eauto.
    + change ("+" +:+ ip +:+ "." +:+ fp +:+ ex)
        with (String "+" (ip +:+ "." +:+ fp +:+ ex)).
      rewrite su_char by reflexivity.
      destruct (Hrun (Some "+"%char) eq_refl) as (body & d & -> & Hd & _).
      simpl option_map. cbv beta iota. rewrite split_sign_plus.
      cbv beta iota. rewrite Hd. eauto.
    + change ("-" +:+ ip +:+ "." +:+ fp +:+ ex)
        with (String "-" (ip +:+ "." +:+ fp +:+ ex)).
      rewrite su_char by reflexivity.
      destruct (Hrun (Some "-"%char) eq_refl) as (body & d & -> & Hd & _).
      simpl option_map. cbv beta iota. rewrite split_sign_minus.
      cbv beta iota. rewrite Hd. eauto.
  - do 2 apply str_app_not_empty_r. discriminate.
  - assert (Hns : forall c, is_digit c = true -> negb (is_space c) = true)
      by (intros c Hc; now rewrite (digit_not_space c Hc)).
    rewrite !all_app.
    rewrite (sign_text_all (fun c => negb (is_space c)) eq_refl eq_refl sg Hsg).
    rewrite (opt_digitpart_all _ Hns eq_refl ip Hip).
    rewrite (opt_digitpart_all _ Hns eq_refl fp Hfp).
    rewrite (exponent_text_all _ Hns eq_refl eq_refl eq_refl eq_refl eq_refl ex Hex).
    reflexivity.
Qed.

(** ** Underscores, backwards: what was read had this form *)

Lemma su_start (prev : option ascii) (m u : string) :
  starts_underscore m = false -> strip_underscores prev m = Some u ->
  (m = "" /\ u = "")
  \/ exists c r u1, m = String c r /\ u = String c u1
       /\ is_underscore c = false /\ strip_underscores (Some c) r = Some u1.
Proof.
  destruct m as [|c r]; simpl.
  - intros _ H. destruct (after_underscore prev); [discriminate|].
    injection H as <-. now left.
  - intros Hc H. rewrite Hc in H.
    destruct (after_underscore prev && negb (is_digit c)); [discriminate|].
    destruct (strip_underscores (Some c) r) as [u1|] eqn:E; [|discriminate].
    injection H as <-. right. now exists c, r, u1.
Qed.

Lemma su_head (prev : option ascii) (m : string) (c : ascii) (u1 : string) :
  starts_underscore m = false -> strip_underscores prev m = Some (String c u1) ->
  exists r, m = String c r /\ strip_underscores (Some c) r = Some u1.
Proof.
  intros Hs H. destruct (su_start prev m _ Hs H) as [[_ E]|(c' & r & u' & -> & E & _ & H')].
  - discriminate.
  - injection E as <- <-. now exists r.
Qed.

Lemma su_nil (prev : option ascii) (m : string) :
  starts_underscore m = false -> strip_underscores prev m = Some "" -> m = "".
Proof.
  intros Hs H. destruct (su_start prev m _ Hs H) as [[E _]|(c' & r & u' & _ & E & _)].
  - exact E.
  - discriminate.
Qed.

Lemma su_after_other (c : ascii) (m u : string) :
  is_digit c = false -> strip_underscores (Some c) m = Some u ->
  starts_underscore m = false.
Proof.
  intros Hc. destruct m as [|c' r]; [reflexivity|]. simpl.
  destruct (is_underscore c'); [|reflexivity]. now rewrite Hc.
Qed.

Lemma su_after_none (m u : string) :
  strip_underscores None m = Some u -> starts_underscore m = false.
Proof.
  destruct m as [|c' r]; [reflexivity|]. simpl.
  now destruct (is_underscore c').
Qed.

Lemma su_tail_inv : forall (n : nat) (m : string), (String.length m <= n)%nat ->
  forall d u dd u', is_digit d = true ->
    strip_underscores (Some d) m = Some u -> span_digits u = (dd, u') ->
    exists g m' prev', m = g +:+ m' /\ digit_tail g = true
      /\ strip_underscores prev' m' = Some u' /\ starts_underscore m' = false.
Proof.
  assert (Hbase : forall d u dd u', is_digit d = true ->
            strip_underscores (Some d) "" = Some u -> span_digits u = (dd, u') ->
            exists g m' prev', "" = g +:+ m' /\ digit_tail g = true
              /\ strip_underscores prev' m' = Some u'
              /\ starts_underscore m' = false).
  { intros d u dd u' Hd Hu Hspan. simpl in Hu.
    rewrite (digit_not_underscore d Hd) in Hu. injection Hu as <-.
    simpl in Hspan. injection Hspan as <- <-.
    exists "", "", (Some d). repeat split.
    simpl. now rewrite (digit_not_underscore d Hd). }
  induction n as [|n IH]; intros m Hlen d u dd u' Hd Hu Hspan.
  { destruct m; [now apply (Hbase d u dd) | simpl in Hlen; lia]. }
  destruct m as [|c r]; [now apply (Hbase d u dd)|].
  simpl in Hu, Hlen. destruct (is_underscore c) eqn:Hcu.
  - rewrite Hd in Hu. apply Ascii.eqb_eq in Hcu as ->.
    destruct r as [|c' r']; [discriminate|]. simpl in Hu, Hlen.
    destruct (is_underscore c') eqn:Hcu'; [discriminate|].
    destruct (is_digit c') eqn:Hc'; [|discriminate]. simpl in Hu.
    destruct (strip_underscores (Some c') r') as [u1|] eqn:E; [|discriminate].
    injection Hu as <-. simpl in Hspan. rewrite Hc' in Hspan.
    destruct (span_digits u1) as [dd1 u1'] eqn:Es. injection Hspan as <- <-.
    destruct (IH r' ltac:(lia) c' u1 dd1 u1' Hc' E Es)
      as (g & m' & p' & -> & Hg & Hm' & Hs).
    exists (String "_" (String c' g)), m', p'. split; [reflexivity|].
    split; [simpl; now rewrite Hc', Hg | now split].
  - rewrite (digit_not_underscore d Hd) in Hu. simpl in Hu.
    destruct (strip_underscores (Some c) r) as [u1|] eqn:E; [|discriminate].
    injection Hu as <-. simpl in Hspan. destruct (is_digit c) eqn:Hc.
    + destruct (span_digits u1) as [dd1 u1'] eqn:Es. injection Hspan as <- <-.
      destruct (IH r ltac:(lia) c u1 dd1 u1' Hc E Es)
        as (g & m' & p' & -> & Hg & Hm' & Hs).
      exists (String c g), m', p'. split; [reflexivity|].
      split; [simpl; now rewrite Hc, Hg | now split].
    + injection Hspan as <- <-. exists "", (String c r), (Some d).
      split; [reflexivity|]. split; [reflexivity|]. split; [|exact Hcu].
      simpl. now rewrite Hcu, (digit_not_underscore d Hd), E.
Qed.

Lemma su_span (prev : option ascii) (m u dd u' : string) :
  starts_underscore m = false ->
  strip_underscores prev m = Some u -> span_digits u = (dd, u') ->
  exists g m' prev', m = g +:+ m' /\ opt_digitpart g = true
    /\ is_empty g = is_empty dd
    /\ strip_underscores prev' m' = Some u' /\ starts_underscore m' = false.
Proof.
  intros Hs Hu Hspan.
  destruct (su_start prev m u Hs Hu) as [[-> ->]|(c & r & u1 & -> & -> & Hcu & E)].
  - simpl in Hspan. injection Hspan as <- <-. exists "", "", prev. now repeat split.
  - simpl in Hspan. destruct (is_digit c) eqn:Hc.
    + destruct (span_digits u1) as [dd1 u1'] eqn:Es. injection Hspan as <- <-.
      destruct (su_tail_inv (String.length r) r (le_n _) c u1 dd1 u1' Hc E Es)
        as (g & m' & p' & -> & Hg & Hm' & Hs').
      exists (String c g), m', p'. split; [reflexivity|].
      split; [unfold opt_digitpart; simpl; now rewrite Hc, Hg | now repeat split].
    + injection Hspan as <- <-. exists "", (String c r), prev. now repeat split.
Qed.

Lemma su_sign_inv (prev : option ascii) (m u : string) (neg : bool) (body : string) :
  starts_underscore m = false ->
  strip_underscores prev m = Some u -> split_sign u = (neg, body) ->
  exists sg m1 prev', m = sg +:+ m1 /\ sign_text sg
    /\ strip_underscores prev' m1 = Some body /\ starts_underscore m1 = false.
Proof.
  intros Hs Hu Hsplit.
  destruct (su_start prev m u Hs Hu) as [[-> ->]|(c & r & u1 & -> & -> & Hcu & E)].
  - injection Hsplit as <- <-. exists "", "", prev. repeat split; [now left | exact Hu].
  - unfold split_sign in Hsplit. destruct (Ascii.eqb c "-") eqn:H1.
    { apply Ascii.eqb_eq in H1 as ->. injection Hsplit as <- <-.
      exists "-", r, (Some "-"%char). split; [reflexivity|].
      split; [right; now right|]. split; [exact E|].
      exact (su_after_other "-" r u1 eq_refl E). }
    destruct (Ascii.eqb c "+") eqn:H2.
    { apply Ascii.eqb_eq in H2 as ->. injection Hsplit as <- <-.
      exists "+", r, (Some "+"%char). split; [reflexivity|].
      split; [right; now left|]. split; [exact E|].
      exact (su_after_other "+" r u1 eq_refl E). }
    injection Hsplit as <- <-. exists "", (String c r), prev.
    split; [reflexivity|]. split; [now left|]. now split.
Qed.

Lemma lower_e (c : ascii) :
  Ascii.eqb (lower c) "e" = true -> (c = "e" \/ c = "E")%char.
Proof.
  destruct c as [[] [] [] [] [] [] [] []]; vm_compute; intros H;
    try discriminate; first [left; reflexivity | right; reflexivity].
Qed.

Lemma su_exponent_inv (prev : option ascii) (m r2 : string) (z : Z) :
  starts_underscore m = false ->
  strip_underscores prev m = Some r2 -> parse_exponent r2 = Some z ->
  exponent_text m.
Proof.
  intros Hs Hu Hz. destruct r2 as [|c r3].
  - left. exact (su_nil prev m Hs Hu).
  - unfold parse_exponent in Hz.
    destruct (Ascii.eqb (lower c) "e") eqn:Hce; [|discriminate].
    destruct (split_sign r3) as [neg r4] eqn:Hsg.
    destruct (span_digits r4) as [ds r5] eqn:Hsp.
    destruct (is_empty ds || negb (is_empty r5)) eqn:He; [discriminate|].
    apply orb_false_iff in He as [He1 He2]. apply negb_false_iff in He2.
    destruct r5; [|discriminate].
    destruct (su_head prev m c r3 Hs Hu) as (m5 & -> & E5).
    pose proof (lower_e c Hce) as Hc.
    assert (Hcd : is_digit c = false) by (now destruct Hc as [->| ->]).
    pose proof (su_after_other c m5 r3 Hcd E5) as Hs5.
    destruct (su_sign_inv (Some c) m5 r3 neg r4 Hs5 E5 Hsg)
      as (sgx & m6 & p6 & -> & Hsgx & E6 & Hs6).
    destruct (su_span p6 m6 r4 ds "" Hs6 E6 Hsp)
      as (g & m7 & p7 & -> & Hg & Heg & E7 & Hs7).
    rewrite (su_nil p7 m7 Hs7 E7), str_app_nil_r.
    right. exists c, sgx, g. split; [reflexivity|]. split; [exact Hc|].
    split; [exact Hsgx|]. unfold opt_digitpart in Hg.
    rewrite Heg, He1 in Hg. exact Hg.
Qed.

(** ** Texts without a point *)

Lemma space_no_dot c : is_space c = true -> no_dot c = true.
Proof. by_cases c. Qed.

Lemma letter_no_dot c : is_letter c = true -> no_dot c = true.
Proof. by_cases c. Qed.

Lemma parse_exponent_no_dot (s : string) (z : Z) :
  parse_exponent s = Some z -> all no_dot s = true.
Proof.
  destruct s as [|c r]; [reflexivity|]. unfold parse_exponent.
  destruct (Ascii.eqb (lower c) "e") eqn:Hce; [|discriminate].
  destruct (split_sign r) as [neg r1] eqn:Hsg.
  destruct (span_digits r1) as [ds r2] eqn:Hsp.
  destruct (is_empty ds || negb (is_empty r2)) eqn:He; [discriminate|].
  intros _. apply orb_false_iff in He as [_ He]. apply negb_false_iff in He.
  destruct r2; [|discriminate].
  apply span_digits_spec in Hsp as [-> Hd]. rewrite str_app_nil_r in Hsg.
  simpl. rewrite (letter_no_dot c (lower_e_letter c Hce)). simpl.
  apply (split_sign_all no_dot r neg ds eq_refl eq_refl Hsg).
  exact (all_impl _ _ ds digit_no_dot Hd).
Qed.

Lemma parse_special_no_dot (neg : bool) (s : string) (f : float) :
  parse_special neg s = Some f -> all no_dot s = true.
Proof.
  unfold parse_special. intros H.
  apply (all_impl is_letter), lower_str_letters; [apply letter_no_dot|].
  destruct (String.eqb (lower_str s) "inf") eqn:H1.
  { apply String.eqb_eq in H1 as ->. reflexivity. }
  destruct (String.eqb (lower_str s) "infinity") eqn:H2.
  { apply String.eqb_eq in H2 as ->. reflexivity. }
  destruct (String.eqb (lower_str s) "nan") eqn:H3; [|discriminate].
  apply String.eqb_eq in H3 as ->. reflexivity.
Qed.

(** The first point of a text is where it is. *)
Lemma dot_split_unique (x x' y y' : string) :
  all no_dot x = true -> all no_dot x' = true ->
  x +:+ String "." y = x' +:+ String "." y' -> x = x' /\ y = y'.
Proof.
  revert x'. induction x as [|c x IH]; intros [|c' x'] Hx Hx' E.
  - rewrite !str_app_empty in E. now injection E as <-.
  - rewrite str_app_empty, str_app_cons in E. injection E as <- _.
    simpl in Hx'. discriminate.
  - rewrite str_app_empty, str_app_cons in E. injection E as -> _.
    simpl in Hx. discriminate.
  - rewrite !str_app_cons in E. injection E as <- E. simpl in Hx, Hx'.
    apply andb_true_iff in Hx as [_ Hx]. apply andb_true_iff in Hx' as [_ Hx'].
    destruct (IH x' Hx Hx' E) as [-> ->]. now split.
Qed.

(** ** What is read is a well-formed text *)

Lemma py_float_decimal_inv (before after : string) (f : float) :
  all no_dot before = true ->
  py_float (before +:+ "." +:+ after) = Ok f ->
  decimal_text before after.
Proof.
  intros Hnd H. unfold py_float in H.
  destruct (strip_split (before +:+ "." +:+ after)) as (l & r & Et & Hl & Hr).
  destruct (strip_underscores None (strip (before +:+ "." +:+ after)))
    as [u|] eqn:Hu; [|discriminate].
  destruct (split_sign u) as [neg body] eqn:Hsg.
  assert (Hdot : all no_dot body = true -> False).
  { intros Hb.
    pose proof (split_sign_all no_dot u neg body eq_refl eq_refl Hsg Hb) as H1.
    pose proof (strip_underscores_all no_dot _ eq_refl None u Hu H1) as H2.
    pose proof (strip_all no_dot _ space_no_dot H2) as H3.
    rewrite all_app in H3. apply andb_true_iff in H3 as [_ H3]. discriminate. }
  destruct (parse_decimal body) as [d|] eqn:Hd.
  2:{ destruct (parse_special neg body) as [g|] eqn:Hsp; [|discriminate].
      destruct (Hdot (parse_special_no_dot neg body g Hsp)). }
  clear H.
  pose proof (su_after_none _ _ Hu) as Hs0.
  destruct (su_sign_inv None _ u neg body Hs0 Hu Hsg)
    as (sg & m1 & p1 & Em & Hsign & E1 & Hs1).
  unfold parse_decimal in Hd.
  destruct (span_digits body) as [ip' r1] eqn:Hsp1.
  destruct (parse_fraction r1) as [fp' r2] eqn:Hpf.
  destruct (is_empty ip' && is_empty fp') eqn:Hemp; [discriminate|].
  destruct (parse_exponent r2) as [z|] eqn:Hz; [|discriminate]. clear Hd.
  destruct (su_span p1 m1 body ip' r1 Hs1 E1 Hsp1)
    as (gi & m2 & p2 & -> & Hgi & Hegi & E2 & Hs2).
  assert (Hpoint : exists r1', r1 = String "." r1' /\ span_digits r1' = (fp', r2)).
  { pose proof (span_digits_spec body ip' r1 Hsp1) as [Eb Hip'].
    pose proof (all_impl _ _ ip' digit_no_dot Hip') as Hip''.
    destruct r1 as [|c r1']; unfold parse_fraction in Hpf.
    - injection Hpf as <- <-. destruct Hdot. rewrite Eb, all_app, Hip''. reflexivity.
    - destruct (Ascii.eqb c ".") eqn:Hc.
      + apply Ascii.eqb_eq in Hc as ->. now exists r1'.
      + injection Hpf as <- <-. destruct Hdot.
        rewrite Eb, all_app, Hip''. exact (parse_exponent_no_dot _ z Hz). }
  destruct Hpoint as (r1' & -> & Hsp2).
  destruct (su_head p2 m2 "." r1' Hs2 E2) as (m3 & -> & E3).
  pose proof (su_after_other "." m3 r1' eq_refl E3) as Hs3.
  destruct (su_span (Some "."%char) m3 r1' fp' r2 Hs3 E3 Hsp2)
    as (gf & m4 & p4 & -> & Hgf & Hegf & E4 & Hs4).
  pose proof (su_exponent_inv p4 m4 r2 z Hs4 E4 Hz) as Hex.
  rewrite Em in Et.
  assert (Hx : all no_dot (l +:+ sg +:+ gi) = true).
  { rewrite !all_app, (all_impl _ _ l space_no_dot Hl).
    rewrite (sign_text_all no_dot eq_refl eq_refl sg Hsign).
    now rewrite (opt_digitpart_all no_dot digit_no_dot eq_refl gi Hgi). }
  destruct (dot_split_unique before (l +:+ sg +:+ gi) after (gf +:+ m4 +:+ r) Hnd Hx)
    as [-> ->].
  { change ("." +:+ after) with (String "." after) in Et. rewrite Et.
    now rewrite !str_app_assoc, !str_app_cons, !str_app_assoc. }
  exists l, sg, gi, gf, m4, r. repeat split; try assumption.
  destruct gi; [|left; discriminate]. destruct gf; [|right; discriminate].
  simpl in Hegi, Hegf. rewrite <- Hegi, <- Hegf in Hemp. discriminate.
Qed.

End LiteralFacts.

(* ===================================================================== *)
(** * Coordinate decoder                                                  *)
(* ===================================================================== *)

Section Decoder.
Import Str StrFacts FloatFacts LiteralFacts.

Lemma get_coordinate_unfold (angle : string) (number_len : Z) :
  get_coordinate angle number_len
  = py_float (slice_to (before_dot angle) number_len +:+ "."
              +:+ slice_from (before_dot angle) number_len).
Proof. reflexivity. Qed.

(** C2: the decoder gives 46.201 for ("4620100", 2), 5.198 for
    ("519800", 1) and 4.584829 for ("4584829.0858556", 1): the binary64
    nearest to each of these decimals, which is also what the literal
    denotes; in general the text before the first point is cut after
    [number_len] characters and read with one point at the cut. *)
Theorem get_coordinate_worked_contract :
  (get_coordinate "4620100" 2 = Ok f_46_201
   /\ py_float "46.201" = Ok f_46_201 /\ nearest_to f_46_201 46201 1000)
  /\ (get_coordinate "519800" 1 = Ok f_5_198
      /\ py_float "5.198" = Ok f_5_198 /\ nearest_to f_5_198 5198 1000)
  /\ (get_coordinate "4584829.0858556" 1 = Ok f_4_584829
      /\ py_float "4.584829" = Ok f_4_584829
      /\ nearest_to f_4_584829 4584829 1000000)
  /\ (forall (angle : string) (number_len : Z),
        slice_to (before_dot angle) number_len
          +:+ slice_from (before_dot angle) number_len = before_dot angle
        /\ get_coordinate angle number_len
           = py_float (slice_to (before_dot angle) number_len +:+ "."
                       +:+ slice_from (before_dot angle) number_len)).
Proof.
  repeat split; try (vm_compute; reflexivity); try (vm_compute; congruence).
  apply slice_split.
Qed.

(** ** When the decoder fails *)

(** The numeric text "4" has one leading digit; with two integer digits
    asked for, the decoder reads "4." and returns 4.0. *)
Lemma get_coordinate_short_angle :
  get_coordinate "4" 2 = Ok (S754_finite false 4503599627370496 (-50))
  /\ ~ fails_as_specified "4" 2.
Proof.
  split; [vm_compute; reflexivity|].
  intros [_ H]. destruct H as [e He]; [left; vm_compute; reflexivity|].
  vm_compute in He. discriminate.
Qed.

Lemma get_coordinate_digits (angle : string) (number_len : Z) :
  before_dot angle <> "" ->
  all_digits (before_dot angle) = true ->
  get_coordinate angle number_len
  = Ok (round_decimal false (digits_value (before_dot angle))
          (0 - len (slice_from (before_dot angle) number_len))).
Proof.
  intros Hne Hd. rewrite get_coordinate_unfold.
  pose proof (slice_split (before_dot angle) number_len) as Hsplit.
  assert (Hboth : all_digits (slice_to (before_dot angle) number_len) = true
                  /\ all_digits (slice_from (before_dot angle) number_len) = true).
  { apply andb_true_iff. unfold all_digits, slice_to, slice_from.
    now rewrite all_take_drop. }
  destruct Hboth as [H1 H2].
  rewrite (py_float_point _ _ H1 H2) by now rewrite Hsplit.
  now rewrite Hsplit.
Qed.

(** What the specification calls numeric has a non-empty run of digits
    before its first point, if it has a point. *)
Lemma numeric_before_dot (angle : string) :
  numeric angle = true ->
  before_dot angle <> "" /\ all_digits (before_dot angle) = true.
Proof.
  unfold numeric. destruct (span_digits angle) as [ip r] eqn:Hsp.
  apply span_digits_spec in Hsp as [-> Hip]. intros H.
  apply andb_true_iff in H as [Hne Hr]. apply negb_true_iff in Hne.
  assert (E : before_dot (ip +:+ r) = ip).
  { destruct r as [|c fp].
    - rewrite str_app_nil_r. apply before_dot_id.
      exact (all_impl _ _ ip digit_no_dot Hip).
    - apply andb_true_iff in Hr as [Hc _]. apply Ascii.eqb_eq in Hc as ->.
      apply before_dot_stop. exact (all_impl _ _ ip digit_no_dot Hip). }
  rewrite E. split; [now destruct ip | exact Hip].
Qed.

Lemma get_coordinate_returns_iff (angle : string) (number_len : Z) :
  (exists f, get_coordinate angle number_len = Ok f)
  <-> decimal_text (slice_to (before_dot angle) number_len)
                   (slice_from (before_dot angle) number_len).
Proof.
  rewrite get_coordinate_unfold. split.
  - intros [f H]. apply (py_float_decimal_inv _ _ f); [|exact H].
    pose proof (before_dot_no_dot angle) as Hnd.
    unfold slice_to.
    rewrite <- (all_take_drop no_dot _ (clip number_len (before_dot angle))) in Hnd.
    now apply andb_true_iff in Hnd as [Hnd _].
  - apply py_float_decimal_text.
Qed.

Lemma get_coordinate_raises_iff (angle : string) (number_len : Z) :
  get_coordinate angle number_len = Raise ValueError
  <-> ~ decimal_text (slice_to (before_dot angle) number_len)
                     (slice_from (before_dot angle) number_len).
Proof.
  split.
  - intros H Hd. apply get_coordinate_returns_iff in Hd as [f Hf].
    rewrite H in Hf. discriminate.
  - intros Hd. destruct (get_coordinate angle number_len) as [f|e] eqn:H.
    + destruct Hd. apply get_coordinate_returns_iff. now exists f.
    + rewrite get_coordinate_unfold in H. now rewrite (py_float_raises _ _ H).
Qed.

Lemma space_coordinate_char c : is_space c = true -> coordinate_char c = true.
Proof. unfold coordinate_char. intros ->. now rewrite orb_true_r. Qed.

Lemma digit_coordinate_char c : is_digit c = true -> coordinate_char c = true.
Proof. unfold coordinate_char. now intros ->. Qed.

Lemma decimal_text_chars (before after : string) :
  decimal_text before after ->
  all coordinate_char before = true /\ all coordinate_char after = true.
Proof.
  intros (l & sg & ip & fp & ex & r & -> & -> & Hl & Hr & Hsg & Hip & Hfp & _ & Hex).
  rewrite !all_app.
  rewrite (all_impl _ _ l space_coordinate_char Hl).
  rewrite (all_impl _ _ r space_coordinate_char Hr).
  rewrite (sign_text_all coordinate_char eq_refl eq_refl sg Hsg).
  rewrite (opt_digitpart_all coordinate_char digit_coordinate_char eq_refl ip Hip).
  rewrite (opt_digitpart_all coordinate_char digit_coordinate_char eq_refl fp Hfp).
  rewrite (exponent_text_all coordinate_char digit_coordinate_char
             eq_refl eq_refl eq_refl eq_refl eq_refl ex Hex).
  now split.
Qed.

(** C3, as the code has it.  The decoder is a function of its two
    arguments and the only exception it raises on a text is the format
    error.  It does not count digits.  On a text whose part before the
    first point is made of ASCII characters, it returns a float exactly
    when that part, cut after [number_len] characters and with a point
    at the cut, is a decimal literal: white space, a sign, digits with
    single underscores between them, the point, digits, an exponent,
    white space, every part optional but a digit beside the point; it
    raises the format error exactly when it is not.  So it fails on an
    empty part and on every part with a character other than a digit,
    white space, a sign, an underscore, [e] or [E].  A non-empty run of
    digits is always decoded, also one shorter than [number_len], to the
    float nearest to the digits read as an integer and divided by ten for
    each digit after the cut; so every numeric text is decoded. *)
Theorem get_coordinate_failures (angle : string) (number_len : Z) :
  (forall e, get_coordinate angle number_len = Raise e -> e = ValueError)
  /\ (ascii_text (before_dot angle) = true ->
        ((exists f, get_coordinate angle number_len = Ok f)
         <-> decimal_text (slice_to (before_dot angle) number_len)
                          (slice_from (before_dot angle) number_len))
        /\ (get_coordinate angle number_len = Raise ValueError
            <-> ~ decimal_text (slice_to (before_dot angle) number_len)
                               (slice_from (before_dot angle) number_len)))
  /\ (ascii_text (before_dot angle) = true ->
      all coordinate_char (before_dot angle) = false ->
        get_coordinate angle number_len = Raise ValueError)
  /\ (before_dot angle = "" -> get_coordinate angle number_len = Raise ValueError)
  /\ (before_dot angle <> "" ->
      all_digits (before_dot angle) = true ->
        get_coordinate angle number_len
        = Ok (round_decimal false (digits_value (before_dot angle))
                (0 - len (slice_from (before_dot angle) number_len))))
  /\ (numeric angle = true -> exists f, get_coordinate angle number_len = Ok f).
Proof.
  split; [|split; [|split; [|split; [|split]]]].
  - intros e H. rewrite get_coordinate_unfold in H. exact (py_float_raises _ _ H).
  - intros _. split; [apply get_coordinate_returns_iff | apply get_coordinate_raises_iff].
  - intros _ Hbad. apply get_coordinate_raises_iff. intros Hd.
    apply decimal_text_chars in Hd as [H1 H2]. unfold slice_to, slice_from in *.
    rewrite <- (all_take_drop coordinate_char (before_dot angle)
                  (clip number_len (before_dot angle))) in Hbad.
    rewrite H1, H2 in Hbad. discriminate.
  - intros Ha. rewrite get_coordinate_unfold, Ha. reflexivity.
  - apply get_coordinate_digits.
  - intros Hn. destruct (numeric_before_dot angle Hn) as [Hne Hd].
    eexists. exact (get_coordinate_digits angle number_len Hne Hd).
Qed.

(** One digit where two are asked for; a letter after the digits; the
    text of a special value; a comma among the digits; and a text that is
    not numeric, with its leading space, but is decoded. *)
Lemma get_coordinate_failures_witness :
  get_coordinate "4" 2 = Ok (round_decimal false 4 0)
  /\ get_coordinate "12a" 2 = Raise ValueError
  /\ get_coordinate "nan" 3 = Raise ValueError
  /\ get_coordinate "46,20100" 2 = Raise ValueError
  /\ (numeric " 12" = false /\ exists f, get_coordinate " 12" 2 = Ok f).
Proof.
  split; [|split; [|split; [|split]]].
  - apply (proj1 (proj2 (proj2 (proj2 (proj2 (get_coordinate_failures "4" 2))))));
      [discriminate | reflexivity].
  - apply (proj1 (proj2 (proj2 (get_coordinate_failures "12a" 2)))); reflexivity.
  - apply (proj1 (proj2 (proj2 (get_coordinate_failures "nan" 3)))); reflexivity.
  - apply (proj1 (proj2 (proj2 (get_coordinate_failures "46,20100" 2)))); reflexivity.
  - split; [reflexivity|].
    apply (proj1 (proj2 (get_coordinate_failures " 12" 2)) eq_refl).
    exists " ", "", "1", "2", "", "".
    repeat split; try reflexivity; [now left | now left | now left].
Defined.

End Decoder.

(* ===================================================================== *)
(** * Forward fill                                                        *)
(* ===================================================================== *)

Section ForwardFill.
Variable history : price_history.

Lemma fill_step_known series d p :
  history !! d = Some p -> fill_step history series d = (series ++ [Float p]).
Proof. intros H. unfold fill_step. now rewrite H. Qed.

Lemma fill_step_gap series d last_known :
  history !! d = None ->
  remembers series last_known ->
  fill_step history series d =
    (series ++ [match last_known with Some v => Float v | None => Int 0 end]).
Proof.
  intros H R. unfold fill_step. rewrite H.
  destruct last_known as [v|]; simpl in R.
  - now rewrite R.
  - destruct R as [-> | ->]; reflexivity.
Qed.

Lemma fold_fill_step window : forall series last_known,
  remembers series last_known ->
  fold_left (fill_step history) window series =
    (series ++ forward_fill history last_known window).
Proof.
  induction window as [|d window IH]; intros series lk R; simpl.
  - now rewrite app_nil_r.
  - destruct (history !! d) as [p|] eqn:Hd.
    + rewrite (fill_step_known _ _ _ Hd), (IH _ (Some p)).
      * now rewrite <- app_assoc.
      * simpl. apply last_snoc.
    + rewrite (fill_step_gap _ _ lk Hd R).
      destruct lk as [v|].
      * rewrite (IH _ (Some v)); [now rewrite <- app_assoc | simpl; apply last_snoc].
      * rewrite (IH _ None); [now rewrite <- app_assoc | simpl; right; apply last_snoc].
Qed.

Lemma fill_series_forward_fill window :
  fill_series window history = forward_fill history None window.
Proof.
  unfold fill_series. rewrite (fold_fill_step window [] None); [reflexivity | now left].
Qed.

Lemma forward_fill_length window : forall last_known,
  length (forward_fill history last_known window) = length window.
Proof.
  induction window as [|d window IH]; intros lk; simpl; [reflexivity|].
  destruct (history !! d); [|destruct lk]; simpl; now rewrite IH.
Qed.

Lemma last_stored_snoc_known earlier d p :
  history !! d = Some p -> last_stored history (earlier ++ [d]) = Some p.
Proof.
  intros H. unfold last_stored. rewrite omap_app. simpl. rewrite H.
  apply last_snoc.
Qed.

Lemma last_stored_snoc_gap earlier d :
  history !! d = None -> last_stored history (earlier ++ [d]) = last_stored history earlier.
Proof.
  intros H. unfold last_stored. rewrite omap_app. simpl. rewrite H.
  now rewrite app_nil_r.
Qed.

(** Position by position: [earlier] are the dates already iterated. *)
Lemma forward_fill_lookup window : forall earlier i d,
  window !! i = Some d ->
  forward_fill history (last_stored history earlier) window !! i =
    Some (filled history (earlier ++ take i window) d).
Proof.
  induction window as [|d0 window IH]; intros earlier i d Hi; [done|].
  destruct i as [|i]; simpl in Hi.
  - injection Hi as ->. simpl. rewrite app_nil_r. unfold filled.
    destruct (history !! d); [reflexivity|].
    destruct (last_stored history earlier); reflexivity.
  - replace (earlier ++ take (S i) (d0 :: window))%list
      with ((earlier ++ [d0]) ++ take i window)%list
      by (simpl; now rewrite <- app_assoc).
    rewrite <- (IH (earlier ++ [d0]) i d Hi). simpl.
    destruct (history !! d0) as [p|] eqn:H0.
    + now rewrite (last_stored_snoc_known _ _ _ H0).
    + rewrite (last_stored_snoc_gap _ _ H0).
      destruct (last_stored history earlier); reflexivity.
Qed.

End ForwardFill.

(** C1: for every price history and every window, the series built for
    a fuel type has, at each date of the window, the stored price when
    the date is a key of the history, otherwise the stored price of the
    latest earlier date of the window that has one, otherwise 0; it is the
    forward fill of the specification.  For a window [d1, d2, d3]: a
    history with [d1] alone gives its price three times, the empty history
    gives three zeros, a history with [d2] alone gives 0 and its price
    twice. *)
Theorem forward_fill_series :
  (forall (history : price_history) (window : list string),
      fill_series window history = forward_fill history None window
      /\ length (fill_series window history) = length window
      /\ forall (i : nat) (d : string),
           window !! i = Some d ->
           fill_series window history !! i =
             Some (filled history (take i window) d))
  /\ (forall (d1 d2 d3 : string) (p : float),
        fill_series [d1; d2; d3] {[d1 := p]} = [Float p; Float p; Float p])
  /\ (forall d1 d2 d3 : string,
        fill_series [d1; d2; d3] ∅ = [Int 0; Int 0; Int 0])
  /\ (forall (d1 d2 d3 : string) (p : float),
        d1 <> d2 ->
        fill_series [d1; d2; d3] {[d2 := p]} = [Int 0; Float p; Float p]).
Proof.
  split; [|split; [|split]].
  - intros history window. split; [|split].
    + apply fill_series_forward_fill.
    + rewrite fill_series_forward_fill. apply forward_fill_length.
    + intros i d Hi. rewrite fill_series_forward_fill.
      apply (forward_fill_lookup history window [] i d Hi).
  - intros d1 d2 d3 p. rewrite fill_series_forward_fill. simpl.
    rewrite lookup_singleton_eq.
    destruct (({[d1 := p]} : price_history) !! d2) as [q|] eqn:H2.
    + apply lookup_singleton_Some in H2 as [_ <-].
      destruct (({[d1 := p]} : price_history) !! d3) as [q|] eqn:H3; [|reflexivity].
      now apply lookup_singleton_Some in H3 as [_ <-].
    + destruct (({[d1 := p]} : price_history) !! d3) as [q|] eqn:H3; [|reflexivity].
      now apply lookup_singleton_Some in H3 as [_ <-].
  - intros d1 d2 d3. rewrite fill_series_forward_fill. simpl.
    now rewrite !lookup_empty.
  - intros d1 d2 d3 p Hne. rewrite fill_series_forward_fill. simpl.
    rewrite lookup_singleton_ne by congruence.
    rewrite lookup_singleton_eq.
    destruct (({[d2 := p]} : price_history) !! d3) as [q|] eqn:H3; [|reflexivity].
    now apply lookup_singleton_Some in H3 as [_ <-].
Qed.

(** The last case on dates of 2023 and the price 2.0. *)
Lemma forward_fill_series_witness :
  "2023-01-01" <> "2023-01-02"
  /\ fill_series ["2023-01-01"; "2023-01-02"; "2023-01-03"]
       {["2023-01-02" := S754_finite false 4503599627370496 (-51)]}
     = [Int 0; Float (S754_finite false 4503599627370496 (-51));
        Float (S754_finite false 4503599627370496 (-51))].
Proof.
  split; [discriminate|].
  apply (proj2 (proj2 (proj2 forward_fill_series))). discriminate.
Defined.

(* ===================================================================== *)
(** * Loops in the exception monad                                        *)
(* ===================================================================== *)

Lemma bind_Ok {A B} (r : result A) (k : A -> result B) (b : B) :
  r ≫= k = Ok b -> exists a, r = Ok a /\ k a = Ok b.
Proof. destruct r as [a|e]; [eauto | discriminate]. Qed.

Lemma bind_Raise {A B} (r : result A) (k : A -> result B) (e : exn) :
  r = Raise e -> r ≫= k = Raise e.
Proof. now intros ->. Qed.

Lemma traverse_total {A B} (f : A -> result B) (g : A -> B) (l : list A) :
  (forall x, x ∈ l -> f x = Ok (g x)) -> traverse f l = Ok (g <$> l).
Proof.
  induction l as [|x l IH]; intros H; [reflexivity|].
  simpl. rewrite (H x) by apply list_elem_of_here. simpl.
  rewrite IH; [reflexivity|]. intros y Hy. apply H. now apply list_elem_of_further.
Qed.

Lemma traverse_Ok {A B} (f : A -> result B) (l : list A) (ys : list B) :
  traverse f l = Ok ys -> Forall2 (fun x y => f x = Ok y) l ys.
Proof.
  revert ys. induction l as [|x l IH]; intros ys H; simpl in H.
  - injection H as <-. constructor.
  - apply bind_Ok in H as (y & Hy & H). apply bind_Ok in H as (ys' & Hys & H).
    injection H as <-. constructor; auto.
Qed.

Lemma foldM_app {A S} (f : S -> A -> result S) (l1 l2 : list A) (s : S) :
  foldM f s (l1 ++ l2) = foldM f s l1 ≫= fun s' => foldM f s' l2.
Proof.
  revert s. induction l1 as [|x l1 IH]; intros s; simpl; [reflexivity|].
  destruct (f s x) as [s'|e]; simpl; [apply IH | reflexivity].
Qed.

(* ===================================================================== *)
(** * The window of dates and the output arrays                           *)
(* ===================================================================== *)

Lemma day_numbers_length : length day_numbers = 365%nat.
Proof. unfold day_numbers. now rewrite length_fmap, length_seq. Qed.

Lemma day_numbers_lookup (k : nat) :
  (k < 365)%nat -> day_numbers !! k = Some (365 - Z.of_nat k).
Proof.
  intros Hk. unfold day_numbers. rewrite list_lookup_fmap.
  now rewrite (lookup_seq_lt _ _ _ Hk).
Qed.

Lemma day_numbers_range (n : Z) : n ∈ day_numbers -> 1 <= n <= 365.
Proof.
  unfold day_numbers. intros H.
  apply list_elem_of_fmap in H as (i & -> & Hi).
  apply elem_of_seq in Hi. lia.
Qed.

Lemma date_strings_total (today : Z) :
  365 < today <= Time.max_ordinal ->
  date_strings today = Ok ((fun n => isoformat (today - n)) <$> day_numbers).
Proof.
  intros Ht. unfold date_strings. apply traverse_total.
  intros n Hn. apply day_numbers_range in Hn. unfold date_string.
  replace ((1 <=? today - n) && (today - n <=? Time.max_ordinal)) with true;
    [reflexivity|].
  symmetry. apply andb_true_iff. split; apply Z.leb_le; lia.
Qed.

(** C8: on a day whose window the calendar can represent, the output has
    one entry per station, in order; in it every fuel type of the
    station's history has an array of 365 values, the one built over the
    dates [today - 365 .. today - 1] oldest first, and a fuel type absent
    from the history has no array. *)
Theorem heatmap_arrays (today : Z) (gas_stations : list GasStation) :
  365 < today <= Time.max_ordinal ->
  exists (dates : list string) (out : list station_json),
    date_strings today = Ok dates
    /\ create_json_heatmap today gas_stations = Ok out
    /\ length dates = 365%nat
    /\ (forall k : nat, (k < 365)%nat ->
          dates !! k = Some (isoformat (today - 365 + Z.of_nat k)))
    /\ length out = length gas_stations
    /\ forall (i : nat) (s : GasStation),
         gas_stations !! i = Some s ->
         exists e : station_json,
           out !! i = Some e
           /\ j_id e = id s
           /\ forall fuel_type : option string,
                match gas_price_history s !! fuel_type with
                | Some history =>
                    carburants e !! fuel_type = Some (fill_series dates history)
                    /\ length (fill_series dates history) = 365%nat
                | None => carburants e !! fuel_type = None
                end.
Proof.
  intros Ht.
  exists ((fun n => isoformat (today - n)) <$> day_numbers).
  exists (station_entry ((fun n => isoformat (today - n)) <$> day_numbers)
            <$> gas_stations).
  assert (Hlen : length ((fun n => isoformat (today - n)) <$> day_numbers) = 365%nat)
    by (rewrite length_fmap; apply day_numbers_length).
  split; [now apply date_strings_total|].
  split; [unfold create_json_heatmap; now rewrite date_strings_total|].
  split; [exact Hlen|].
  split.
  { intros k Hk. rewrite list_lookup_fmap, (day_numbers_lookup k Hk). simpl.
    do 2 f_equal. lia. }
  split; [apply length_fmap|].
  intros i s Hs. eexists. split; [rewrite list_lookup_fmap, Hs; reflexivity|].
  split; [reflexivity|].
  intros fuel_type. cbn [carburants station_entry]. rewrite lookup_fmap.
  destruct (gas_price_history s !! fuel_type) as [history|]; [|reflexivity].
  split; [reflexivity|].
  rewrite fill_series_forward_fill, forward_fill_length. exact Hlen.
Qed.


(* ===================================================================== *)
(** * Price history: the last update of a day wins                        *)
(* ===================================================================== *)

Lemma parse_prix_entry (h : fuel_history) (e : ET.element) :
  ET.has_attribs e = true ->
  parse_prix h e = prix_entry e ≫= fun entry => Ok (record_price h entry).
Proof.
  intros Ha. unfold parse_prix, prix_entry. rewrite Ha.
  destruct (need_str (ET.get "valeur" e)) as [s|]; [|reflexivity]. simpl.
  destruct (py_float s) as [price|]; [|reflexivity]. simpl.
  destruct (parse_update_date (ET.get "maj" e)) as [d|]; reflexivity.
Qed.

Lemma parse_prix_skip (h : fuel_history) (e : ET.element) :
  ET.has_attribs e = false -> parse_prix h e = Ok h.
Proof. intros Ha. unfold parse_prix. now rewrite Ha. Qed.

Lemma stored_record_same (h : fuel_history) fuel_type date price :
  stored (record_price h (fuel_type, date, price)) fuel_type date = Some price.
Proof.
  unfold stored, record_price. rewrite lookup_insert_eq. simpl.
  apply lookup_insert_eq.
Qed.

Lemma stored_record_other (h : fuel_history) fuel_type date price fuel_type' date' :
  (fuel_type, date) <> (fuel_type', date') ->
  stored (record_price h (fuel_type, date, price)) fuel_type' date'
  = stored h fuel_type' date'.
Proof.
  intros Hne. unfold stored, record_price.
  destruct (decide (fuel_type = fuel_type')) as [<-|Hf].
  - rewrite lookup_insert_eq. simpl.
    rewrite lookup_insert_ne by congruence.
    destruct (h !! fuel_type); reflexivity.
  - now rewrite lookup_insert_ne.
Qed.

(** Later elements that do not name the pair leave its price alone. *)
Lemma later_prices_keep (fuel_type : option string) (date : string) (p : float) :
  forall (after : list ET.element) (h h' : fuel_history),
    foldM parse_prix h after = Ok h' ->
    stored h fuel_type date = Some p ->
    (forall e' q, e' ∈ after -> ET.has_attribs e' = true ->
                  prix_entry e' <> Ok (fuel_type, date, q)) ->
    stored h' fuel_type date = Some p.
Proof.
  induction after as [|e after IH]; intros h h' Hfold Hst Hlast; simpl in Hfold.
  - now injection Hfold as <-.
  - apply bind_Ok in Hfold as (h1 & H1 & Hfold).
    apply (IH h1 h' Hfold).
    + destruct (ET.has_attribs e) eqn:Ha.
      * rewrite (parse_prix_entry _ _ Ha) in H1.
        apply bind_Ok in H1 as ([[f d] q] & He & H1). injection H1 as <-.
        change (stored (record_price h (f, d, q)) fuel_type date = Some p).
        rewrite stored_record_other; [exact Hst|].
        intros Heq. injection Heq as -> ->.
        apply (Hlast e q); [apply list_elem_of_here | exact Ha | exact He].
      * rewrite (parse_prix_skip _ _ Ha) in H1. now injection H1 as <-.
    + intros e' q He'. apply Hlast. now apply list_elem_of_further.
Qed.

(** C9: when the price updates of a record are read, the price stored
    for a fuel type and a date is the one of the last [prix] element, in
    document order, that names this fuel type and this date. *)
Theorem price_last_write_wins
    (pdv : ET.element) (h : fuel_history)
    (before after : list ET.element) (e : ET.element)
    (fuel_type : option string) (date : string) (price : float) :
  parse_prices pdv = Ok h ->
  ET.findall "prix" pdv = (before ++ e :: after) ->
  ET.has_attribs e = true ->
  prix_entry e = Ok (fuel_type, date, price) ->
  (forall e' q, e' ∈ after -> ET.has_attribs e' = true ->
                prix_entry e' <> Ok (fuel_type, date, q)) ->
  stored h fuel_type date = Some price.
Proof.
  intros Hparse Hsplit Ha He Hlast. unfold parse_prices in Hparse.
  rewrite Hsplit, foldM_app in Hparse.
  apply bind_Ok in Hparse as (h0 & _ & Hparse). simpl in Hparse.
  apply bind_Ok in Hparse as (h1 & H1 & Hparse).
  rewrite (parse_prix_entry _ _ Ha), He in H1. injection H1 as <-.
  apply (later_prices_keep fuel_type date price after _ h Hparse);
    [apply (stored_record_same h0) | exact Hlast].
Qed.

(* ===================================================================== *)
(** * The main loop of [parse_data]                                       *)
(* ===================================================================== *)

Lemma foldM_raises {A S} (f : S -> A -> result S) (l : list A) (x : A) :
  x ∈ l ->
  (forall s, exists e, f s x = Raise e) ->
  forall s, exists e, foldM f s l = Raise e.
Proof.
  intros Hx Hf. induction l as [|y l IH]; intros s; [now apply elem_of_nil in Hx|].
  simpl. apply elem_of_cons in Hx as [<-|Hx].
  - destruct (Hf s) as [e ->]. now exists e.
  - destruct (f s y) as [s'|e]; simpl; [now apply IH | now exists e].
Qed.

Lemma foldM_Ok_each {A S} (f : S -> A -> result S) (l : list A) (x : A) :
  x ∈ l ->
  forall s s', foldM f s l = Ok s' -> exists s1 s2, f s1 x = Ok s2.
Proof.
  intros Hx. induction l as [|y l IH]; intros s s' H; [now apply elem_of_nil in Hx|].
  simpl in H. apply bind_Ok in H as (s1 & H1 & H).
  apply elem_of_cons in Hx as [->|Hx]; [now exists s, s1 | eauto].
Qed.

Lemma take_upto_length {A} (l : list A) : forall n,
  Z.of_nat (length l) <= n -> take_upto n l = l.
Proof.
  induction l as [|x l IH]; intros n Hn; simpl in *; [reflexivity|].
  destruct (n <=? 0) eqn:H0; [apply Z.leb_le in H0; lia|].
  rewrite IH; [reflexivity | lia].
Qed.

Lemma take_upto_lookup {A} (l : list A) : forall n (i : nat),
  Z.of_nat i < n -> take_upto n l !! i = l !! i.
Proof.
  induction l as [|x l IH]; intros n i Hi; simpl; [reflexivity|].
  destruct (n <=? 0) eqn:H0; [apply Z.leb_le in H0; lia|].
  destruct i as [|i]; [reflexivity|]. simpl. apply IH. lia.
Qed.

Lemma take_upto_bound {A} (l : list A) : forall n,
  0 <= n -> Z.of_nat (length (take_upto n l)) <= n.
Proof.
  induction l as [|x l IH]; intros n Hn; simpl; [lia|].
  destruct (n <=? 0) eqn:H0; simpl; [lia|].
  apply Z.leb_gt in H0. specialize (IH (n - 1)). lia.
Qed.

Lemma traverse_length {A B} (f : A -> result B) (l : list A) (ys : list B) :
  traverse f l = Ok ys -> length ys = length l.
Proof. intros H. apply traverse_Ok in H. symmetry. eapply Forall2_length, H. Qed.

(** ** Opening hours *)

Lemma parse_day_open (days days' : gmap Z (option HoursRange)) (day : ET.element) :
  parse_day days day = Ok days' ->
  day_open day = true ->
  exists horaire, ET.find "horaire" day = Some horaire /\ times_parse horaire = true.
Proof.
  unfold parse_day, day_open. intros H Hopen. apply negb_true_iff in Hopen.
  apply bind_Ok in H as (day_id & _ & H). rewrite Hopen in H.
  apply bind_Ok in H as (hours & H & _).
  apply bind_Ok in H as (horaire & Hh & H).
  apply bind_Ok in H as (t1 & H1 & H). apply bind_Ok in H as (t2 & H2 & _).
  exists horaire. split.
  - destruct (ET.find "horaire" day); [now injection Hh as -> | discriminate].
  - unfold times_parse. now rewrite H1, H2.
Qed.

Lemma parse_day_unreadable (day : ET.element) :
  day_unreadable day -> forall days, exists e, parse_day days day = Raise e.
Proof.
  intros [Hopen Hbad] days. destruct (parse_day days day) as [days'|e] eqn:H;
    [|now exists e].
  destruct (parse_day_open _ _ _ H Hopen) as (horaire & Hf & Ht).
  rewrite Hf in Hbad. congruence.
Qed.

Lemma parse_horaires_unreadable (horaires_element day : ET.element) :
  day ∈ ET.children horaires_element ->
  day_unreadable day ->
  exists e, parse_horaires horaires_element = Raise e.
Proof.
  intros Hin Hbad. unfold parse_horaires.
  destruct (foldM_raises parse_day _ day Hin (parse_day_unreadable day Hbad) ∅)
    as [e ->].
  now exists e.
Qed.

(** ** One pass *)

Lemma process_station_dropped st pdv station_id name e :
  mandatory_fields pdv = Raise e ->
  process_station st (pdv, (station_id, name)) = Ok (st, false).
Proof. intros H. unfold process_station. now rewrite H. Qed.

Lemma process_station_hours_raise st pdv station_id name m horaires_element e :
  mandatory_fields pdv = Ok m ->
  ET.find "horaires" pdv = Some horaires_element ->
  parse_horaires horaires_element = Raise e ->
  process_station st (pdv, (station_id, name)) = Raise e.
Proof. intros Hm Hf Hh. unfold process_station. now rewrite Hm, Hf, Hh. Qed.

(** Without a [horaires] block the flag of the station is whatever
    [always_open] holds from an earlier pass. *)
Lemma process_station_without_horaires st pdv station_id name m h :
  mandatory_fields pdv = Ok m ->
  ET.find "horaires" pdv = None ->
  parse_prices pdv = Ok h ->
  process_station st (pdv, (station_id, name))
  = match always_open st with
    | Some flag =>
        Ok (mkLoop (Some flag)
              (gas_stations st ++
               [mkGasStation station_id name (m_address m) (m_latitude m)
                  (m_longitude m) (m_postal_code m) (m_city m) flag None h])
              (count st + 1),
            bool_decide (maxx < count st + 1))
    | None => Raise UnboundLocalError
    end.
Proof.
  intros Hm Hf Hp. unfold process_station. rewrite Hm, Hf. simpl.
  destruct (always_open st); simpl; [now rewrite Hp | reflexivity].
Qed.

Lemma process_station_Ok st item st' stop :
  process_station st item = Ok (st', stop) ->
  (stop = true -> maxx < count st')
  /\ count st <= count st' <= count st + 1
  /\ station_key <$> gas_stations st'
     = (station_key <$> gas_stations st) ++ option_list (assembled item).
Proof.
  destruct item as [pdv [station_id name]]. unfold process_station, assembled.
  simpl. destruct (mandatory_fields pdv) as [m|e].
  - intros H. apply bind_Ok in H as ([flag hours] & _ & H).
    apply bind_Ok in H as (b & _ & H). apply bind_Ok in H as (h & _ & H).
    injection H as <- <-. simpl. split; [apply bool_decide_eq_true_1|].
    split; [lia|]. rewrite fmap_app. simpl. now destruct m.
  - intros [= <- <-]. simpl. rewrite app_nil_r.
    split; [discriminate|]. split; [lia | reflexivity].
Qed.

(** ** The whole loop *)

(** When the loop returns, the stations are the records whose mandatory
    fields decode, in the order of the document, each with its own id
    and name. *)
Lemma main_loop_retained items : forall st st',
  main_loop st items = Ok st' ->
  count st + Z.of_nat (length items) <= maxx ->
  station_key <$> gas_stations st'
  = (station_key <$> gas_stations st) ++ omap assembled items.
Proof.
  induction items as [|item items IH]; intros st st' H Hc; simpl in H.
  - injection H as <-. now rewrite app_nil_r.
  - apply bind_Ok in H as ([st1 stop] & H1 & H).
    apply process_station_Ok in H1 as (Hstop & Hcount & Hkeys).
    simpl length in Hc.
    destruct stop; [specialize (Hstop eq_refl); lia|].
    rewrite (IH st1 st' H) by lia. rewrite Hkeys, <- app_assoc. f_equal.
    simpl. now destruct (assembled item).
Qed.

(** A pass that raises whatever the state, at a position the loop
    reaches, makes the loop raise. *)
Lemma main_loop_raises items : forall st (i : nat) item,
  items !! i = Some item ->
  (forall st0, exists e, process_station st0 item = Raise e) ->
  count st + Z.of_nat i < maxx ->
  exists e, main_loop st items = Raise e.
Proof.
  induction items as [|item0 items IH]; intros st i item Hi Hraise Hc; [done|].
  simpl. destruct i as [|i]; simpl in Hi.
  - injection Hi as ->. destruct (Hraise st) as [e ->]. now exists e.
  - destruct (process_station st item0) as [[st1 stop]|e] eqn:H1; [|now exists e].
    simpl. apply process_station_Ok in H1 as (Hstop & Hcount & _).
    destruct stop; [specialize (Hstop eq_refl); lia|].
    apply (IH st1 i item Hi Hraise). lia.
Qed.

Lemma parse_data_items net root station_ids (i : nat) pdv :
  traverse station_id_of (ET.children root) = Ok station_ids ->
  ET.children root !! i = Some pdv ->
  Z.of_nat i < maxx ->
  exists station_id,
    zip (ET.children root)
        (executor_map (get_station_name net) (take_upto maxx station_ids)) !! i
    = Some (pdv, get_station_name net station_id).
Proof.
  intros Hids Hi Hlt.
  assert (Hlen := traverse_length _ _ _ Hids).
  destruct (lookup_lt_is_Some_2 station_ids i) as [station_id Hid].
  { rewrite Hlen. eapply lookup_lt_Some, Hi. }
  exists station_id. apply lookup_zip_with_Some.
  exists pdv, (get_station_name net station_id). split; [reflexivity|].
  split; [exact Hi|]. unfold executor_map.
  now rewrite list_lookup_fmap, (take_upto_lookup _ _ _ Hlt), Hid.
Qed.

(** C10: the schedule of a [horaires] block is built only if every day
    that is not marked closed and has an [ouverture] child also has a
    [horaire] child whose two times are in the hour.minute form.  A day
    that passes the test on the [ouverture] child and has no [horaire]
    child, or one with a time that does not parse, makes [parse_data]
    raise: the record is neither given a schedule nor dropped. *)
Theorem opening_hours_partial :
  (forall (horaires_element : ET.element) (r : bool * OpeningHours),
      parse_horaires horaires_element = Ok r ->
      forall day : ET.element,
        day ∈ ET.children horaires_element ->
        ET.get "ferme" day <> Some "1" ->
        ET.find "ouverture" day <> None ->
        exists horaire : ET.element,
          ET.find "horaire" day = Some horaire
          /\ is_ok (parse_time (ET.get "ouverture" horaire)) = true
          /\ is_ok (parse_time (ET.get "fermeture" horaire)) = true)
  /\ (forall (net : network) (root pdv horaires_element day : ET.element)
             (i : nat) (m : mandatory),
        ET.children root !! i = Some pdv ->
        Z.of_nat i < maxx ->
        mandatory_fields pdv = Ok m ->
        ET.find "horaires" pdv = Some horaires_element ->
        day ∈ ET.children horaires_element ->
        ET.get "ferme" day <> Some "1" ->
        ET.find "ouverture" day <> None ->
        match ET.find "horaire" day with
        | Some horaire => times_parse horaire = false
        | None => True
        end ->
        exists e, parse_data net root = Raise e).
Proof.
  assert (Hopen : forall day, ET.get "ferme" day <> Some "1" ->
                              ET.find "ouverture" day <> None -> day_open day = true).
  { intros day H1 H2. unfold day_open. apply negb_true_iff, orb_false_iff.
    split; now apply bool_decide_eq_false. }
  split.
  - intros horaires_element r H day Hin Hferme Houv.
    unfold parse_horaires in H. apply bind_Ok in H as (days & H & _).
    destruct (foldM_Ok_each _ _ day Hin _ _ H) as (d1 & d2 & Hday).
    destruct (parse_day_open _ _ _ Hday (Hopen day Hferme Houv)) as (horaire & Hf & Ht).
    exists horaire. split; [exact Hf|]. unfold times_parse in Ht.
    now apply andb_true_iff in Ht.
  - intros net root pdv horaires_element day i m Hi Hlt Hm Hh Hin Hferme Houv Hbad.
    unfold parse_data.
    destruct (traverse station_id_of (ET.children root)) as [station_ids|e] eqn:Hids;
      [|now exists e].
    simpl.
    destruct (parse_data_items net root station_ids i pdv Hids Hi Hlt)
      as [station_id Hitem].
    destruct (parse_horaires_unreadable horaires_element day Hin
                (conj (Hopen day Hferme Houv) Hbad)) as [e He].
    destruct (main_loop_raises _ (mkLoop None [] 0) i _ Hitem) as [e' ->].
    + intros st0. exists e.
      apply (process_station_hours_raise st0 pdv _ _ m horaires_element e Hm Hh He).
    + simpl. lia.
    + now exists e'.
Qed.


Lemma omap_length_le {A B} (f : A -> option B) (l : list A) :
  (length (omap f l) <= length l)%nat.
Proof.
  induction l as [|x l IH]; csimpl; [lia|]. destruct (f x); csimpl; lia.
Qed.

(** When [parse_data] returns, it returns one station for each of the
    records (the first [maxx] of them) whose mandatory fields decode, in
    document order, with the id of the record and the name looked up for
    that id; so no more stations than records. *)
Lemma parse_data_retained (net : network) (root : ET.element)
    (stations : list GasStation) :
  parse_data net root = Ok stations ->
  exists station_ids : list Z,
    traverse station_id_of (ET.children root) = Ok station_ids
    /\ station_key <$> stations
       = omap assembled
           (zip (ET.children root)
                (get_station_name net <$> take_upto maxx station_ids))
    /\ (length stations <= length (ET.children root))%nat.
Proof.
  unfold parse_data. intros H.
  apply bind_Ok in H as (station_ids & Hids & H).
  apply bind_Ok in H as (st & Hloop & H). apply bind_Ok in H as (_x & _ & H).
  injection H as <-. exists station_ids. split; [exact Hids|].
  assert (Hlen : Z.of_nat (length (zip (ET.children root)
             (executor_map (get_station_name net) (take_upto maxx station_ids))))
           <= maxx).
  { rewrite length_zip_with. unfold executor_map. rewrite length_fmap.
    pose proof (take_upto_bound station_ids maxx). unfold maxx in *. lia. }
  apply main_loop_retained in Hloop; [|simpl; lia]. simpl in Hloop.
  split; [exact Hloop|].
  rewrite <- (length_fmap station_key), Hloop.
  etransitivity; [apply omap_length_le|]. rewrite length_zip_with. lia.
Qed.

(* ===================================================================== *)
(** * Records the loop mishandles                                         *)
(* ===================================================================== *)

(** C4 (the code departs from it): a record without a [horaires] block
    that follows an always-open station is assembled with no schedule but
    with [is_always_open] true, the flag of the station before; put
    first, it stops the run on the unbound [always_open]. *)
Theorem absent_hours_inherit_flag :
  ET.find "horaires" (Sample.pdv "1000002" []) = None
  /\ Sample.flags
       (parse_data Sample.net
          (Sample.document [Sample.pdv "1000001" [Sample.horaires];
                            Sample.pdv "1000002" []]))
     = Ok [(1000001, true, false); (1000002, true, true)]
  /\ parse_data Sample.net
       (Sample.document [Sample.pdv "1000002" [];
                         Sample.pdv "1000001" [Sample.horaires]])
     = Raise UnboundLocalError.
Proof. repeat split; vm_compute; reflexivity. Qed.

(** C5 (the code departs from it): a price that is not a number, or an
    update time that is not in the expected form, in one record raises
    out of [parse_data]; the well-formed record next to it, which alone
    gives a station, is lost with the rest of the run. *)
Theorem price_failure_aborts_run :
  Sample.flags
    (parse_data Sample.net
       (Sample.document [Sample.pdv "1000001" [Sample.horaires]]))
  = Ok [(1000001, true, false)]
  /\ parse_data Sample.net
       (Sample.document
          [Sample.pdv "1000002"
             [Sample.horaires; Sample.prix "Gazole" "n/a" "2023-01-02T10:00:00"];
           Sample.pdv "1000001" [Sample.horaires]])
     = Raise ValueError
  /\ parse_data Sample.net
       (Sample.document
          [Sample.pdv "1000001" [Sample.horaires];
           Sample.pdv "1000002"
             [Sample.horaires; Sample.prix "Gazole" "1.5" "02/01/2023 10:00"]])
     = Raise ValueError.
Proof. repeat split; vm_compute; reflexivity. Qed.

(** C7 (the code departs from it): a single record whose address, city
    and coordinates decode, and that has no [horaires] block, gives no
    station: the run stops on the unbound [always_open]. *)
Theorem valid_record_not_assembled :
  is_ok (mandatory_fields (Sample.pdv "1000002" [])) = true
  /\ parse_data Sample.net (Sample.document [Sample.pdv "1000002" []])
     = Raise UnboundLocalError.
Proof. split; vm_compute; reflexivity. Qed.

(* ===================================================================== *)
(** * Name resolution                                                     *)
(* ===================================================================== *)

Module FindFacts.
Import Str StrFacts.

Lemma str_length_app (s t : string) :
  String.length (s +:+ t) = (String.length s + String.length t)%nat.
Proof.
  induction s as [|c s IH]; [reflexivity|]. rewrite str_app_cons. simpl. now rewrite IH.
Qed.

Lemma strip_prefix_Some (pat s rest : string) :
  strip_prefix pat s = Some rest <-> s = pat +:+ rest.
Proof.
  revert s. induction pat as [|p pat IH]; intros s; simpl.
  - rewrite str_app_empty. split; congruence.
  - destruct s as [|c s]; [split; discriminate|].
    rewrite str_app_cons. destruct (Ascii.eqb p c) eqn:Hc.
    + apply Ascii.eqb_eq in Hc as ->. rewrite IH. split; congruence.
    + apply Ascii.eqb_neq in Hc. split; [discriminate | congruence].
Qed.

Lemma find_unfold (pat s : string) :
  find pat s =
    match strip_prefix pat s with
    | Some rest => Some ("", rest)
    | None =>
        match s with
        | EmptyString => None
        | String c s' =>
            match find pat s' with
            | Some (pre, post) => Some (String c pre, post)
            | None => None
            end
        end
    end.
Proof. destruct s; reflexivity. Qed.

(** [find] returns an occurrence. *)
Lemma find_Some (pat s pre post : string) :
  find pat s = Some (pre, post) -> s = pre +:+ pat +:+ post.
Proof.
  revert pre post. induction s as [|c s IH]; intros pre post; rewrite find_unfold.
  - destruct (strip_prefix pat "") as [rest|] eqn:Hp; [|discriminate].
    intros [= <- <-]. rewrite str_app_empty. now apply strip_prefix_Some.
  - destruct (strip_prefix pat (String c s)) as [rest|] eqn:Hp.
    + intros [= <- <-]. rewrite str_app_empty. now apply strip_prefix_Some.
    + destruct (find pat s) as [[pre1 post1]|]; [|discriminate].
      intros [= <- <-]. rewrite str_app_cons. f_equal. now apply IH.
Qed.

(** It finds one when there is one, and the leftmost. *)
Lemma find_leftmost (pat s pre' post' : string) :
  s = pre' +:+ pat +:+ post' ->
  exists pre post,
    find pat s = Some (pre, post) /\ (String.length pre <= String.length pre')%nat.
Proof.
  revert pre'. induction s as [|c s IH]; intros pre' Hs; rewrite find_unfold.
  - destruct pre' as [|c' pre']; [|discriminate].
    rewrite str_app_empty in Hs. apply strip_prefix_Some in Hs. rewrite Hs.
    exists "", post'. split; [reflexivity | simpl; lia].
  - destruct (strip_prefix pat (String c s)) as [rest|] eqn:Hp.
    + exists "", rest. split; [reflexivity | simpl; lia].
    + destruct pre' as [|c' pre'].
      { rewrite str_app_empty in Hs. apply strip_prefix_Some in Hs. congruence. }
      rewrite str_app_cons in Hs. injection Hs as <- Hs.
      destruct (IH pre' Hs) as (pre & post & -> & Hle).
      exists (String c pre), post. split; [reflexivity | simpl; lia].
Qed.

Lemma app_cut (a b c d : string) :
  a +:+ b = c +:+ d ->
  (String.length a <= String.length c)%nat ->
  exists e, c = a +:+ e /\ b = e +:+ d.
Proof.
  revert c. induction a as [|x a IH]; intros c H Hle.
  - exists c. now rewrite str_app_empty in *.
  - destruct c as [|y c]; [simpl in Hle; lia|].
    rewrite !str_app_cons in H. injection H as <- H.
    destruct (IH c H) as (e & -> & ->); [simpl in Hle; lia|].
    now exists e.
Qed.

End FindFacts.

Lemma search_strong_Some (html name : string) :
  search_strong html = Some name -> marked html name.
Proof.
  unfold search_strong, marked.
  destruct (Str.find "<strong>" html) as [[pre rest]|] eqn:H1; [|discriminate].
  destruct (Str.find "</strong>" rest) as [[inner post]|] eqn:H2; [|discriminate].
  intros [= <-]. exists pre, post.
  apply FindFacts.find_Some in H1, H2. now rewrite H1, H2.
Qed.

Lemma search_strong_None (html : string) :
  search_strong html = None <-> ~ (exists name, marked html name).
Proof.
  split.
  - intros Hnone (name & pre & post & Hhtml). unfold search_strong in Hnone.
    destruct (FindFacts.find_leftmost "<strong>" html pre _ Hhtml)
      as (pre1 & rest1 & Hf & Hle).
    rewrite Hf in Hnone. apply FindFacts.find_Some in Hf.
    assert (Hcut : (pre1 +:+ "<strong>") +:+ rest1
                   = (pre +:+ "<strong>" +:+ name) +:+ "</strong>" +:+ post).
    { rewrite !StrFacts.str_app_assoc, <- Hf. exact Hhtml. }
    apply FindFacts.app_cut in Hcut as (e & _ & Hrest).
    + destruct (FindFacts.find_leftmost "</strong>" rest1 e post Hrest)
        as (inner & post1 & Hf2 & _).
      rewrite Hf2 in Hnone. discriminate.
    + rewrite !FindFacts.str_length_app. simpl. lia.
  - intros Hno. destruct (search_strong html) as [name|] eqn:H; [|reflexivity].
    destruct Hno. exists name. now apply search_strong_Some.
Qed.

(** A lookup gives no name exactly when it fails, and a name it gives is
    one the answer to its own request carries. *)
Lemma get_name_station_None (net : network) (station_id : Z) :
  get_name_station net station_id = None <-> lookup_fails (net station_id).
Proof.
  unfold get_name_station, lookup_fails.
  destruct (net station_id) as [status html|]; [|tauto].
  destruct (status =? 200) eqn:Hs.
  - apply Z.eqb_eq in Hs. rewrite search_strong_None. tauto.
  - apply Z.eqb_neq in Hs. tauto.
Qed.

Lemma get_name_station_Some (net : network) (station_id : Z) (name : string) :
  get_name_station net station_id = Some name ->
  exists html, net station_id = Response 200 html /\ marked html name.
Proof.
  unfold get_name_station.
  destruct (net station_id) as [status html|]; [|discriminate].
  destruct (status =? 200) eqn:Hs; [|discriminate].
  apply Z.eqb_eq in Hs as ->. intros H. exists html.
  split; [reflexivity | now apply search_strong_Some].
Qed.

(** The entries with a name are as many as the lookups that succeed. *)
Lemma resolved_count (net : network) (ids : list Z) (k : nat) :
  successes net ids k ->
  length (filter (fun p : Z * option string => is_Some p.2)
            (executor_map (get_station_name net) ids)) = k.
Proof.
  unfold executor_map. induction 1 as [|station_id ids k Hok _ IH|station_id ids k Hf _ IH].
  - reflexivity.
  - rewrite fmap_cons, filter_cons_True; [simpl; now rewrite IH|].
    simpl. destruct (get_name_station net station_id) eqn:H; [eauto|].
    destruct Hok. now apply get_name_station_None.
  - rewrite fmap_cons, filter_cons_False; [exact IH|].
    simpl. apply get_name_station_None in Hf. rewrite Hf. now intros [? ?].
Qed.

Lemma successes_total (net : network) (ids : list Z) :
  exists k, successes net ids k.
Proof.
  induction ids as [|station_id ids [k IH]]; [exists 0%nat; constructor|].
  destruct (get_name_station net station_id) as [name|] eqn:H.
  - exists (S k). apply successes_hit; [|exact IH].
    intros Hf. apply get_name_station_None in Hf. congruence.
  - exists k. apply successes_miss; [|exact IH]. now apply get_name_station_None.
Qed.

(** ** The pool returns the results in the order of submission *)

Module PoolFacts.
Import Pool.
Section PoolFacts.
Context {A R : Type}.
Variable fn : A -> R.
Variable max_workers : nat.
Variable xs : list A.

Local Abbreviation step := (Pool.step fn max_workers xs).
Local Abbreviation reachable := (Pool.reachable fn max_workers xs).
Local Abbreviation invariant := (consistent fn xs).

Lemma init_consistent : invariant (init xs).
Proof.
  unfold init. split; [apply length_fmap|].
  intros i r H. rewrite list_lookup_fmap in H.
  destruct (xs !! i); discriminate.
Qed.

Lemma step_consistent st st' : step st st' -> invariant st -> invariant st'.
Proof.
  intros Hstep [Hlen Hdone]. destruct Hstep as [st i Hi _|st i x Hi Hx].
  - split; [now rewrite length_insert|]. intros j r Hj.
    destruct (decide (i = j)) as [->|Hne].
    + rewrite list_lookup_insert_eq in Hj by (eapply lookup_lt_Some, Hi).
      discriminate.
    + rewrite list_lookup_insert_ne in Hj by exact Hne. eauto.
  - split; [now rewrite length_insert|]. intros j r Hj.
    destruct (decide (i = j)) as [->|Hne].
    + rewrite list_lookup_insert_eq in Hj by (eapply lookup_lt_Some, Hi).
      injection Hj as <-. eauto.
    + rewrite list_lookup_insert_ne in Hj by exact Hne. eauto.
Qed.

Lemma reachable_consistent st : reachable st -> invariant st.
Proof.
  unfold Pool.reachable. revert st.
  apply (rtc_ind_r (R := step) invariant (init xs) init_consistent).
  intros y z _ Hstep IH. exact (step_consistent y z Hstep IH).
Qed.

Lemma results_Some (st : list (@slot R)) rs : results st = Some rs -> st = @Done R <$> rs.
Proof.
  revert rs. induction st as [|s st IH]; intros rs H; simpl in H.
  - now injection H as <-.
  - destruct s as [| |r]; try discriminate. simpl in H.
    destruct (results st) as [rs'|]; [|discriminate].
    injection H as <-. simpl. now rewrite (IH rs').
Qed.

Lemma results_Done rs : results (@Done R <$> rs) = Some rs.
Proof.
  induction rs as [|r rs IH]; [reflexivity|].
  rewrite fmap_cons. simpl. now rewrite IH.
Qed.

(** Whatever the order in which the calls start and finish, the list
    handed back is [fn] mapped over the items. *)
Lemma results_unique st rs :
  reachable st -> results st = Some rs -> rs = executor_map fn xs.
Proof.
  intros Hr Hres. apply reachable_consistent in Hr as [Hlen Hdone].
  apply results_Some in Hres as ->. rewrite length_fmap in Hlen.
  unfold executor_map. apply list_eq. intros i. rewrite list_lookup_fmap.
  destruct (rs !! i) as [r|] eqn:Hi.
  - destruct (Hdone i r) as (x & Hx & ->); [now rewrite list_lookup_fmap, Hi|].
    now rewrite Hx.
  - apply lookup_ge_None in Hi. rewrite Hlen in Hi.
    apply lookup_ge_None in Hi. now rewrite Hi.
Qed.

(** Each step uses up work. *)
Lemma work_insert (st : list (@slot R)) i (s s' : @slot R) :
  st !! i = Some s ->
  (work (<[i := s']> st) + slot_work s = work st + slot_work s')%nat.
Proof.
  unfold work. revert i. induction st as [|s0 st IH]; intros i Hi; [done|].
  destruct i as [|i]; csimpl in *.
  - injection Hi as ->. lia.
  - specialize (IH i Hi). lia.
Qed.

Lemma step_work st st' : step st st' -> (work st' < work st)%nat.
Proof.
  intros [st0 i Hi _|st0 i x Hi _].
  - pose proof (work_insert st0 i _ Running Hi) as H. simpl in H. lia.
  - pose proof (work_insert st0 i _ (Done (fn x)) Hi) as H. simpl in H. lia.
Qed.

Lemma running_zero (st : list (@slot R)) :
  running st = 0%nat -> forall i, st !! i <> Some Running.
Proof.
  unfold running. induction st as [|s st IH]; intros H i Hi; [done|].
  destruct i as [|i]; simpl in *.
  - injection Hi as ->. simpl in H. discriminate.
  - destruct (is_running s); simpl in H; [discriminate|]. exact (IH H i Hi).
Qed.

Lemma results_None (st : list (@slot R)) :
  results st = None -> exists i s, st !! i = Some s /\ slot_result s = None.
Proof.
  induction st as [|s st IH]; simpl; [discriminate|].
  destruct (slot_result s) as [r|] eqn:Hs.
  - destruct (results st) as [rs|]; [discriminate|]. intros _.
    destruct (IH eq_refl) as (i & s' & Hi & Hs'). now exists (S i), s'.
  - intros _. now exists 0%nat, s.
Qed.

(** With a worker at all, a pool that has not handed back its list
    can take a step. *)
Lemma progress (st : list (@slot R)) :
  (0 < max_workers)%nat -> length st = length xs ->
  results st = None -> exists st', step st st'.
Proof.
  intros Hw Hlen Hnone.
  destruct (Nat.eq_dec (running st) 0%nat) as [Hz|Hnz].
  - destruct (results_None st Hnone) as (i & s & Hi & Hs).
    destruct s as [| |r]; [|now destruct (running_zero st Hz i)|discriminate].
    eexists. apply (step_start fn max_workers xs st i Hi). lia.
  - assert (exists i, st !! i = Some Running) as [i Hi].
    { unfold running in Hnz. clear -Hnz.
      induction st as [|s st IH]; simpl in Hnz; [lia|].
      destruct s as [| |r]; simpl in Hnz.
      - destruct (IH Hnz) as [i Hi]. now exists (S i).
      - now exists 0%nat.
      - destruct (IH Hnz) as [i Hi]. now exists (S i). }
    destruct (lookup_lt_is_Some_2 xs i) as [x Hx].
    { rewrite <- Hlen. eapply lookup_lt_Some, Hi. }
    eexists. apply (step_finish fn max_workers xs st i x Hi Hx).
Qed.

(** So the call returns: from every state the pool reaches it goes on
    to one where every future has its value. *)
Lemma completes :
  (0 < max_workers)%nat ->
  forall st, reachable st ->
    exists st', rtc step st st' /\ results st' = Some (executor_map fn xs).
Proof.
  intros Hw st. remember (work st) as n eqn:Hn. revert st Hn.
  induction n as [n IH] using lt_wf_ind. intros st -> Hr.
  destruct (results st) as [rs|] eqn:Hres.
  - exists st. split; [apply rtc_refl|]. now rewrite <- (results_unique st rs Hr Hres).
  - destruct (reachable_consistent st Hr) as [Hlen _].
    destruct (progress st Hw Hlen Hres) as [st1 Hstep].
    destruct (IH (work st1) (step_work _ _ Hstep) st1 eq_refl) as (st' & Hrun & Hfin).
    { unfold Pool.reachable. eapply rtc_r; eauto. }
    exists st'. split; [eapply rtc_l; eauto | exact Hfin].
Qed.

End PoolFacts.
End PoolFacts.

(** C6: with a pool of 150 workers, whatever the order in which the
    lookups start and finish, the call returns, and the list it returns
    pairs each id, in the order of the ids, with the name of that id's own
    lookup; a lookup that fails (no answer, a status other than 200, no
    marker in the answer) gives an absent name and nothing is raised; the
    entries with a name are as many as the lookups that succeed. *)
Theorem name_resolution (net : network) (ids : list Z) :
  (forall st,
      Pool.reachable (get_station_name net) 150 ids st ->
      exists st',
        rtc (Pool.step (get_station_name net) 150 ids) st st'
        /\ Pool.results st' = Some (executor_map (get_station_name net) ids))
  /\ (forall st rs,
        Pool.reachable (get_station_name net) 150 ids st ->
        Pool.results st = Some rs ->
        rs = executor_map (get_station_name net) ids)
  /\ (forall (i : nat) (station_id : Z),
        ids !! i = Some station_id ->
        executor_map (get_station_name net) ids !! i
        = Some (station_id, get_name_station net station_id))
  /\ (forall station_id : Z,
        (get_name_station net station_id = None
         <-> lookup_fails (net station_id))
        /\ forall name, get_name_station net station_id = Some name ->
             exists html,
               net station_id = Response 200 html /\ marked html name)
  /\ (exists k, successes net ids k)
  /\ (forall k : nat,
        successes net ids k ->
        length (filter (fun p : Z * option string => is_Some p.2)
                  (executor_map (get_station_name net) ids)) = k).
Proof.
  split; [|split; [|split; [|split; [|split]]]].
  - apply PoolFacts.completes. lia.
  - apply PoolFacts.results_unique.
  - intros i station_id Hi. unfold executor_map.
    now rewrite list_lookup_fmap, Hi.
  - intros station_id. split.
    + apply get_name_station_None.
    + apply get_name_station_Some.
  - apply successes_total.
  - apply resolved_count.
Qed.

(* ===================================================================== *)
(** * Instances on the sample documents                                   *)
(* ===================================================================== *)

(** Two prices for Gazole on 2 January 2023, then one for another fuel. *)
Lemma price_last_write_wins_witness :
  exists h : fuel_history,
    parse_prices
      (Sample.pdv "1000001"
         [Sample.prix "Gazole" "1.5" "2023-01-02T08:00:00";
          Sample.prix "Gazole" "1.6" "2023-01-02T17:30:00";
          Sample.prix "SP95" "2.0" "2023-01-02T17:30:00"]) = Ok h
    /\ stored h (Some "Gazole") "2023-01-02" = Some Sample.f_1_6.
Proof.
  eexists. split; [vm_compute; reflexivity|].
  apply (price_last_write_wins
           (Sample.pdv "1000001"
              [Sample.prix "Gazole" "1.5" "2023-01-02T08:00:00";
               Sample.prix "Gazole" "1.6" "2023-01-02T17:30:00";
               Sample.prix "SP95" "2.0" "2023-01-02T17:30:00"])
           _
           [Sample.prix "Gazole" "1.5" "2023-01-02T08:00:00"]
           [Sample.prix "SP95" "2.0" "2023-01-02T17:30:00"]
           (Sample.prix "Gazole" "1.6" "2023-01-02T17:30:00")).
  - vm_compute. reflexivity.
  - vm_compute. reflexivity.
  - vm_compute. reflexivity.
  - vm_compute. reflexivity.
  - intros e' q Hin _ He. apply list_elem_of_singleton in Hin. subst e'.
    vm_compute in He. discriminate.
Defined.

(** A day that is read, and a record with a day that cannot be. *)
Lemma opening_hours_partial_witness :
  (exists horaire : ET.element,
      ET.find "horaire" Sample.jour_ouvert = Some horaire
      /\ is_ok (parse_time (ET.get "ouverture" horaire)) = true
      /\ is_ok (parse_time (ET.get "fermeture" horaire)) = true)
  /\ exists e,
       parse_data Sample.net
         (Sample.document
            [Sample.pdv "1000001"
               [Sample.node "horaires" [] [Sample.jour_sans_horaire]]])
       = Raise e.
Proof.
  split.
  - eapply (proj1 opening_hours_partial
              (Sample.node "horaires" [] [Sample.jour_ouvert])).
    + vm_compute. reflexivity.
    + apply list_elem_of_here.
    + intros H. vm_compute in H. discriminate.
    + intros H. vm_compute in H. discriminate.
  - eapply (proj2 opening_hours_partial Sample.net _
              (Sample.pdv "1000001"
                 [Sample.node "horaires" [] [Sample.jour_sans_horaire]])
              (Sample.node "horaires" [] [Sample.jour_sans_horaire])
              Sample.jour_sans_horaire 0%nat).
    + reflexivity.
    + reflexivity.
    + vm_compute. reflexivity.
    + vm_compute. reflexivity.
    + apply list_elem_of_here.
    + intros H. vm_compute in H. discriminate.
    + intros H. vm_compute in H. discriminate.
    + vm_compute. exact I.
Defined.

(** Two lookups, the second finishing first. *)
Lemma name_resolution_witness :
  [(1000001, Some "RELAIS DE LA GARE"); (1000002, None)]
  = executor_map (get_station_name Sample.net) [1000001; 1000002].
Proof.
  apply (proj1 (proj2 (name_resolution Sample.net [1000001; 1000002]))
           [Pool.Done (1000001, Some "RELAIS DE LA GARE");
            Pool.Done (1000002, None)]);
    [|reflexivity].
  unfold Pool.reachable.
  apply (rtc_l _ _ [Pool.Pending; Pool.Running]).
  { exact (Pool.step_start (get_station_name Sample.net) 150 [1000001; 1000002] [Pool.Pending; Pool.Pending] 1
             eq_refl (Nat.lt_0_succ 149)). }
  apply (rtc_l _ _ [Pool.Running; Pool.Running]).
  { apply (Pool.step_start (get_station_name Sample.net) 150 [1000001; 1000002] [Pool.Pending; Pool.Running] 0 eq_refl).
    change (1 < 150)%nat. lia. }
  apply (rtc_l _ _ [Pool.Running; Pool.Done (1000002, None)]).
  { exact (Pool.step_finish (get_station_name Sample.net) 150 [1000001; 1000002]
             [Pool.Running; Pool.Running] 1 1000002 eq_refl eq_refl). }
  apply rtc_once.
  exact (Pool.step_finish (get_station_name Sample.net) 150 [1000001; 1000002]
           [Pool.Running; Pool.Done (1000002, None)] 0 1000001 eq_refl eq_refl).
Defined.

(** The window of 1 January 2023 (ordinal 738521) and the sample station. *)
Lemma heatmap_arrays_witness :
  exists (dates : list string) (out : list station_json),
    date_strings 738521 = Ok dates
    /\ create_json_heatmap 738521 [Sample.station] = Ok out
    /\ length dates = 365%nat
    /\ (forall k : nat, (k < 365)%nat ->
          dates !! k = Some (isoformat (738521 - 365 + Z.of_nat k)))
    /\ length out = 1%nat
    /\ forall (i : nat) (s : GasStation),
         [Sample.station] !! i = Some s ->
         exists e : station_json,
           out !! i = Some e
           /\ j_id e = id s
           /\ forall fuel_type : option string,
                match gas_price_history s !! fuel_type with
                | Some history =>
                    carburants e !! fuel_type = Some (fill_series dates history)
                    /\ length (fill_series dates history) = 365%nat
                | None => carburants e !! fuel_type = None
                end.
Proof. apply (heatmap_arrays 738521 [Sample.station]). unfold Time.max_ordinal. lia. Defined.

(* ===================================================================== *)
(** * More on the coordinate decoder                                      *)
(* ===================================================================== *)

Section DecoderMore.
Import Str StrFacts FloatFacts.

(** X1: what follows the first point of the text plays no role: the
    decoder gives for [a.noise] what it gives for [a]. *)
Theorem get_coordinate_ignores_fraction
    (a noise : string) (number_len : Z) :
  all no_dot a = true ->
  get_coordinate (a +:+ "." +:+ noise) number_len = get_coordinate a number_len.
Proof.
  intros Ha. unfold get_coordinate.
  change ("." +:+ noise) with (String "." noise).
  now rewrite (before_dot_stop a noise Ha), (before_dot_id a Ha).
Qed.

Lemma get_coordinate_ignores_fraction_witness :
  get_coordinate ("4584829" +:+ "." +:+ "0858556") 1 = get_coordinate "4584829" 1.
Proof. apply get_coordinate_ignores_fraction. reflexivity. Defined.

(** ** A leading sign *)

Lemma binary_round_aux_opp (m e : Z) (l : location) :
  binary_round_aux prec emax true m e l
  = SFopp (binary_round_aux prec emax false m e l).
Proof.
  unfold binary_round_aux.
  destruct (shr_fexp prec emax m e l) as [mrs e'].
  destruct (shr_fexp prec emax _ e' loc_Exact) as [mrs' e''].
  destruct (shr_m mrs') as [|p|p]; [reflexivity| |reflexivity].
  now destruct (e'' <=? emax - prec).
Qed.

Lemma round_ratio_opp (n d : positive) :
  round_ratio true n d = SFopp (round_ratio false n d).
Proof.
  unfold round_ratio.
  destruct (SFdiv_core_binary prec emax (Z.pos n) 0 (Z.pos d) 0) as [[mz ez] lz].
  apply binary_round_aux_opp.
Qed.

Lemma round_decimal_opp (m e10 : Z) :
  round_decimal true m e10 = SFopp (round_decimal false m e10).
Proof.
  unfold round_decimal. destruct m as [|n|n]; [reflexivity| |reflexivity].
  destruct (0 <=? e10); apply round_ratio_opp.
Qed.

Lemma parse_decimal_point (ip fp : string) :
  all_digits ip = true -> all_digits fp = true -> ip +:+ fp <> "" ->
  parse_decimal (ip +:+ "." +:+ fp) = Some (Decimal ip fp 0).
Proof.
  intros Hip Hfp Hne. unfold parse_decimal.
  change ("." +:+ fp) with (String "." fp).
  rewrite (span_digits_stop ip "." fp Hip eq_refl).
  unfold parse_fraction. rewrite Ascii.eqb_refl, (span_digits_all fp Hfp).
  replace (is_empty ip && is_empty fp) with false; [reflexivity|].
  destruct ip; [|reflexivity]. destruct fp; [|reflexivity]. now destruct Hne.
Qed.

Lemma py_float_minus_point (ip fp : string) :
  all_digits ip = true -> all_digits fp = true -> ip +:+ fp <> "" ->
  py_float (String "-" (ip +:+ "." +:+ fp))
  = Ok (round_decimal true (digits_value (ip +:+ fp)) (0 - len fp)).
Proof.
  intros Hip Hfp Hne. unfold py_float.
  assert (Hplain : all plain (String "-" (ip +:+ "." +:+ fp)) = true).
  { simpl. rewrite all_app, (all_impl _ _ ip plain_digit Hip).
    change ("." +:+ fp) with (String "." fp). simpl.
    now rewrite (all_impl _ _ fp plain_digit Hfp). }
  rewrite strip_id
    by (apply (all_impl plain); [|exact Hplain]; intros c H;
        now apply andb_true_iff in H as [-> _]).
  rewrite strip_underscores_id;
    [ | apply (all_impl plain); [|exact Hplain]; intros c H;
        now apply andb_true_iff in H as [_ ->] | reflexivity ].
  change (split_sign (String "-" (ip +:+ "." +:+ fp)))
    with (true, ip +:+ "." +:+ fp).
  cbv beta iota. now rewrite (parse_decimal_point ip fp Hip Hfp Hne).
Qed.

(** X2: a minus sign in front of the digits is one of the [number_len]
    characters of the integer part: the decoder gives for [-digits] cut
    after [number_len] the opposite of what it gives for [digits] cut
    after [number_len - 1], so a negative angle keeps one integer digit
    less than a positive one. *)
Theorem get_coordinate_minus
    (digits : string) (number_len : Z) :
  digits <> "" ->
  all_digits digits = true ->
  1 <= number_len ->
  get_coordinate ("-" +:+ digits) number_len
  = Ok (round_decimal true (digits_value digits)
          (0 - len (drop (number_len - 1) digits)))
  /\ get_coordinate digits (number_len - 1)
     = Ok (round_decimal false (digits_value digits)
             (0 - len (drop (number_len - 1) digits)))
  /\ round_decimal true (digits_value digits)
       (0 - len (drop (number_len - 1) digits))
     = SFopp (round_decimal false (digits_value digits)
                (0 - len (drop (number_len - 1) digits))).
Proof.
  intros Hne Hd Hn.
  assert (Hnd : all no_dot digits = true)
    by (apply (all_impl is_digit); [apply digit_no_dot | exact Hd]).
  assert (Hboth : all_digits (take (number_len - 1) digits) = true
                  /\ all_digits (drop (number_len - 1) digits) = true).
  { apply andb_true_iff. unfold all_digits. now rewrite all_take_drop. }
  destruct Hboth as [H1 H2].
  split; [|split].
  - unfold get_coordinate. change ("-" +:+ digits) with (String "-" digits).
    assert (Hb : before_dot (String "-" digits) = String "-" digits).
    { simpl. now rewrite (before_dot_id digits Hnd). }
    rewrite Hb. unfold slice_to, slice_from, clip.
    replace (number_len <? 0) with false by (symmetry; apply Z.ltb_ge; lia).
    simpl.
    replace (number_len <=? 0) with false by (symmetry; apply Z.leb_gt; lia).
    rewrite str_app_cons.
    rewrite (py_float_minus_point _ _ H1 H2) by now rewrite take_drop.
    now rewrite take_drop.
  - rewrite get_coordinate_digits;
      [ | now rewrite (before_dot_id digits Hnd)
        | now rewrite (before_dot_id digits Hnd) ].
    rewrite (before_dot_id digits Hnd). unfold slice_from, clip.
    replace (number_len - 1 <? 0) with false by (symmetry; apply Z.ltb_ge; lia).
    reflexivity.
  - apply round_decimal_opp.
Qed.

(** The longitude -4.486 of the data set, written [-448600]: decoded with
    one integer digit it is -0.4486. *)
Lemma get_coordinate_minus_witness :
  get_coordinate ("-" +:+ "448600") 1
  = Ok (round_decimal true 448600 (0 - 6)).
Proof.
  apply (get_coordinate_minus "448600" 1); [discriminate | reflexivity | lia].
Defined.

End DecoderMore.

(* ===================================================================== *)
(** * More on name resolution                                             *)
(* ===================================================================== *)

Lemma find_first (pat s pre post a b : string) :
  Str.find pat s = Some (pre, post) ->
  s = a +:+ pat +:+ b ->
  (String.length pre <= String.length a)%nat.
Proof.
  intros Hf Hs.
  destruct (FindFacts.find_leftmost pat s a b Hs) as (pre' & post' & Hf' & Hle).
  rewrite Hf in Hf'. now injection Hf' as <- <-.
Qed.

(** X3: the name of a station is the text between the first opening
    marker of the answer and the first closing marker after it: no
    opening marker starts earlier, and no closing marker starts inside
    the name. *)
Theorem get_name_station_first_marker
    (net : network) (station_id : Z) (name : string) :
  get_name_station net station_id = Some name ->
  exists html pre post,
    net station_id = Response 200 html
    /\ html = pre +:+ "<strong>" +:+ name +:+ "</strong>" +:+ post
    /\ (forall a b, html = a +:+ "<strong>" +:+ b ->
          (String.length pre <= String.length a)%nat)
    /\ (forall a b, name +:+ "</strong>" +:+ post = a +:+ "</strong>" +:+ b ->
          (String.length name <= String.length a)%nat).
Proof.
  unfold get_name_station.
  destruct (net station_id) as [status html|]; [|discriminate].
  destruct (status =? 200) eqn:Hs; [|discriminate].
  apply Z.eqb_eq in Hs as ->. unfold search_strong.
  destruct (Str.find "<strong>" html) as [[pre rest]|] eqn:H1; [|discriminate].
  destruct (Str.find "</strong>" rest) as [[inner post]|] eqn:H2; [|discriminate].
  intros [= <-]. exists html, pre, post.
  pose proof (FindFacts.find_Some _ _ _ _ H1) as E1.
  pose proof (FindFacts.find_Some _ _ _ _ H2) as E2.
  split; [reflexivity|]. split; [now rewrite E1, E2|]. split.
  - intros a b Hab. exact (find_first _ _ _ _ a b H1 Hab).
  - intros a b Hab. rewrite <- E2 in Hab. exact (find_first _ _ _ _ a b H2 Hab).
Qed.

(** An answer with two marked texts: the first one is the name. *)
Lemma get_name_station_first_marker_witness :
  exists html pre post,
    (fun _ : Z => Response 200 "<b>x</b><strong>A</strong><strong>B</strong>") 7
    = Response 200 html
    /\ html = pre +:+ "<strong>" +:+ "A" +:+ "</strong>" +:+ post
    /\ (forall a b, html = a +:+ "<strong>" +:+ b ->
          (String.length pre <= String.length a)%nat)
    /\ (forall a b, "A" +:+ "</strong>" +:+ post = a +:+ "</strong>" +:+ b ->
          (String.length "A" <= String.length a)%nat).
Proof.
  apply (get_name_station_first_marker
           (fun _ => Response 200 "<b>x</b><strong>A</strong><strong>B</strong>")
           7 "A").
  reflexivity.
Defined.

(* ===================================================================== *)
(** * More on station assembly                                            *)
(* ===================================================================== *)

Lemma traverse_app {A B} (f : A -> result B) (l1 l2 : list A) :
  traverse f (l1 ++ l2)
  = ys1 ← traverse f l1; ys2 ← traverse f l2; Ok (ys1 ++ ys2).
Proof.
  induction l1 as [|x l1 IH]; simpl.
  - destruct (traverse f l2); reflexivity.
  - destruct (f x) as [y|e]; simpl; [|reflexivity]. rewrite IH.
    destruct (traverse f l1) as [ys1|e]; simpl; [|reflexivity].
    destruct (traverse f l2); reflexivity.
Qed.

Lemma traverse_first_raise {A B} (f : A -> result B) (l : list A) (x : A) :
  x ∈ l -> is_ok (f x) = false ->
  exists y e, y ∈ l /\ f y = Raise e /\ traverse f l = Raise e.
Proof.
  induction l as [|z l IH]; intros Hx Hf; [now apply elem_of_nil in Hx|].
  simpl. destruct (f z) as [v|e] eqn:Hz.
  - apply elem_of_cons in Hx as [->|Hx]; [rewrite Hz in Hf; discriminate|].
    destruct (IH Hx Hf) as (y & e & Hy & Hfy & ->).
    exists y, e. split; [now apply list_elem_of_further | now split].
  - exists z, e. split; [apply list_elem_of_here | now split].
Qed.

Lemma py_int_raises (s : string) (e : exn) : py_int s = Raise e -> e = ValueError.
Proof.
  unfold py_int.
  destruct (Str.strip_underscores None (Str.strip s)) as [t|]; [|congruence].
  destruct (Str.split_sign t) as [neg body].
  destruct (Str.is_empty body || negb (Str.all_digits body)
            || (max_str_digits <? Str.len body));
    [congruence | discriminate].
Qed.

Lemma station_id_of_raises (pdv : ET.element) (e : exn) :
  station_id_of pdv = Raise e -> e = TypeError \/ e = ValueError.
Proof.
  unfold station_id_of. destruct (ET.get "id" pdv) as [s|]; simpl.
  - intros H. right. exact (py_int_raises s e H).
  - intros [= <-]. now left.
Qed.

(** X5: a record, anywhere in the document, whose [id] attribute is
    missing or is not an integer stops the run before any lookup is made:
    [parse_data] raises [TypeError] or [ValueError] and returns no
    station. *)
Theorem bad_id_aborts_run (net : network) (root pdv : ET.element) :
  pdv ∈ ET.children root ->
  match ET.get "id" pdv with
  | Some s => is_ok (py_int s) = false
  | None => True
  end ->
  exists e, parse_data net root = Raise e /\ (e = TypeError \/ e = ValueError).
Proof.
  intros Hin Hbad.
  assert (Hf : is_ok (station_id_of pdv) = false).
  { unfold station_id_of. destruct (ET.get "id" pdv) as [s|]; simpl; [|reflexivity].
    destruct (py_int s); [discriminate | reflexivity]. }
  destruct (traverse_first_raise station_id_of _ pdv Hin Hf) as (y & e & _ & Hy & Ht).
  exists e. split; [|exact (station_id_of_raises y e Hy)].
  unfold parse_data. now rewrite Ht.
Qed.

(** A station whose mandatory fields do not even decode, with an id
    that is not a number, after a station in good order. *)
Lemma bad_id_aborts_run_witness :
  exists e,
    parse_data Sample.net
      (Sample.document
         [Sample.pdv "1000001" [Sample.horaires];
          Sample.node "pdv" [("id", "n/a")] []])
    = Raise e /\ (e = TypeError \/ e = ValueError).
Proof.
  apply (bad_id_aborts_run Sample.net _ (Sample.node "pdv" [("id", "n/a")] [])).
  - apply list_elem_of_further, list_elem_of_here.
  - vm_compute. reflexivity.
Defined.

(** ** What a pass of the loop does *)

Lemma parse_horaires_flag (h : ET.element) (flag : bool) (hours : OpeningHours) :
  parse_horaires h = Ok (flag, hours) -> flag = ET.has_attr "automate-24-24" h.
Proof.
  unfold parse_horaires. intros H. apply bind_Ok in H as (d & _ & H).
  now injection H as <- _.
Qed.

Lemma process_station_cases st item st' stop :
  process_station st item = Ok (st', stop) ->
  (decodes item.1 = false /\ st' = st /\ stop = false)
  \/ (decodes item.1 = true
      /\ exists s,
           gas_stations st' = gas_stations st ++ [s]
           /\ built_item item s
           /\ always_open st' = Some (is_always_open s)
           /\ (opening_hours s = None -> always_open st = Some (is_always_open s))
           /\ count st' = count st + 1
           /\ stop = bool_decide (maxx < count st')).
Proof.
  destruct item as [pdv [station_id name]]. unfold process_station, decodes.
  simpl. destruct (mandatory_fields pdv) as [m|e] eqn:Hm.
  - intros H. right. split; [reflexivity|].
    apply bind_Ok in H as ([flag hours] & Hh & H).
    apply bind_Ok in H as (b & Hb & H). apply bind_Ok in H as (h & Hp & H).
    injection H as <- <-. eexists. split; [reflexivity|]. simpl.
    unfold built_item. simpl. rewrite Hm, Hp.
    destruct (ET.find "horaires" pdv) as [horaires_element|].
    + apply bind_Ok in Hh as ([fl hrs] & Hpar & Hh). injection Hh as <- <-.
      simpl in Hb. injection Hb as <-.
      pose proof (parse_horaires_flag _ _ _ Hpar) as ->.
      repeat split; try (now destruct m); try discriminate.
      exists hrs. now repeat split.
    + injection Hh as <- <-. destruct (always_open st) as [b0|]; [|discriminate].
      simpl in Hb. injection Hb as <-.
      repeat split; now destruct m.
  - intros [= <- <-]. now left.
Qed.

Lemma main_loop_built items : forall st st',
  main_loop st items = Ok st' ->
  count st + Z.of_nat (length items) <= maxx ->
  exists new,
    gas_stations st' = gas_stations st ++ new
    /\ Forall2 built_item (List.filter (fun item => decodes item.1) items) new
    /\ flags_chain (always_open st) new.
Proof.
  induction items as [|item items IH]; intros st st' H Hc; simpl in H.
  - injection H as <-. exists []. now rewrite app_nil_r.
  - apply bind_Ok in H as ([st1 stop] & H1 & H). simpl length in Hc.
    apply process_station_cases in H1
      as [(Hd & -> & ->)|(Hd & s & Hs & Hb & Ha & Hinh & Hcount & ->)].
    + destruct (IH st st' H) as (new & Hnew & Hall & Hchain); [lia|].
      exists new. simpl. now rewrite Hd.
    + rewrite bool_decide_eq_false_2 in H by lia.
      destruct (IH st1 st' H) as (new & Hnew & Hall & Hchain); [lia|].
      exists (s :: new). simpl. rewrite Hd. split; [|split].
      * now rewrite Hnew, Hs, <- app_assoc.
      * now constructor.
      * split; [exact Hinh | now rewrite <- Ha].
Qed.

Lemma take_upto_fmap {A B} (f : A -> B) (l : list A) : forall n,
  f <$> take_upto n l = take_upto n (f <$> l).
Proof.
  induction l as [|x l IH]; intros n; [reflexivity|].
  rewrite fmap_cons. simpl. destruct (n <=? 0); [reflexivity|].
  now rewrite fmap_cons, IH.
Qed.

Lemma zip_take_upto {A B} (l : list A) : forall (k : list B) n,
  zip l (take_upto n k) = zip (take_upto n l) (take_upto n k).
Proof.
  induction l as [|x l IH]; intros k n; [reflexivity|].
  destruct k as [|y k]; [simpl; now destruct (n <=? 0)|].
  simpl. destruct (n <=? 0); [reflexivity|]. simpl. now rewrite IH.
Qed.

Lemma Forall2_take_upto {A B} (P : A -> B -> Prop) (l : list A) (k : list B) :
  Forall2 P l k -> forall n, Forall2 P (take_upto n l) (take_upto n k).
Proof.
  induction 1 as [|x y l k Hxy _ IH]; intros n; simpl; [constructor|].
  destruct (n <=? 0); constructor; auto.
Qed.

Lemma built_items_records (net : network) (cs : list ET.element) (ids : list Z) :
  Forall2 (fun pdv i => station_id_of pdv = Ok i) cs ids ->
  forall new,
    Forall2 built_item
      (List.filter (fun item => decodes item.1)
         (zip cs (get_station_name net <$> ids))) new ->
    Forall2 (built_from net) (List.filter decodes cs) new.
Proof.
  induction 1 as [|pdv i cs ids Hid _ IH]; intros new Hnew; simpl in *;
    [inversion Hnew; constructor|].
  destruct (decodes pdv); [|now apply IH].
  inversion Hnew as [|item s items new' Hb Hrest]; subst.
  constructor; [|now apply IH].
  destruct Hb as (Hi & Hn & Hm & Hp & Hh). simpl in *.
  unfold built_from. rewrite Hi, Hn. now repeat split.
Qed.

Lemma parse_data_loop (net : network) (root : ET.element) (stations : list GasStation) :
  parse_data net root = Ok stations ->
  exists new,
    stations = new
    /\ Forall2 (built_from net)
         (List.filter decodes (take_upto maxx (ET.children root))) new
    /\ flags_chain None new.
Proof.
  unfold parse_data. intros H.
  apply bind_Ok in H as (station_ids & Hids & H).
  apply bind_Ok in H as (st & Hloop & H). apply bind_Ok in H as (_x & _ & H).
  injection H as <-.
  assert (Hlen : Z.of_nat (length (zip (ET.children root)
             (executor_map (get_station_name net) (take_upto maxx station_ids))))
           <= maxx).
  { rewrite length_zip_with. unfold executor_map. rewrite length_fmap.
    pose proof (take_upto_bound station_ids maxx). unfold maxx in *. lia. }
  apply main_loop_built in Hloop as (new & Hnew & Hall & Hchain); [|simpl; lia].
  simpl in Hnew, Hchain. exists new. split; [exact Hnew|]. split; [|exact Hchain].
  unfold executor_map in Hall.
  rewrite take_upto_fmap, zip_take_upto, <- take_upto_fmap in Hall.
  apply (built_items_records net _ (take_upto maxx station_ids)); [|exact Hall].
  apply Forall2_take_upto. now apply traverse_Ok.
Qed.

(** X6: when [parse_data] returns, its stations are, in document order,
    the records (of the first 9999999) whose mandatory fields decode, and
    each station is made of its own record: the id is the record's, the
    name is the one looked up for this id, the address, city, postal code
    and coordinates are the record's, the price history is the one read
    from its [prix] children, and the schedule is the one read from its
    [horaires] block, absent when the block is; a station with a block is
    always open exactly when the block has an [automate-24-24] attribute,
    whatever the value of the attribute. *)
Theorem stations_from_records
    (net : network) (root : ET.element) (stations : list GasStation) :
  parse_data net root = Ok stations ->
  Forall2 (built_from net)
    (List.filter decodes (take_upto maxx (ET.children root))) stations.
Proof.
  intros H. apply parse_data_loop in H as (new & -> & Hall & _). exact Hall.
Qed.

Lemma flags_chain_lookup (l : list GasStation) : forall prev,
  flags_chain prev l ->
  (forall s, head l = Some s -> opening_hours s = None ->
             prev = Some (is_always_open s))
  /\ forall (j : nat) s' s,
       l !! j = Some s' -> l !! S j = Some s -> opening_hours s = None ->
       is_always_open s = is_always_open s'.
Proof.
  induction l as [|s0 l IH]; intros prev H; [split; intros; discriminate|].
  destruct H as [H0 Hrest]. destruct (IH _ Hrest) as [Hhead Hnext]. split.
  - intros s [= <-]. exact H0.
  - intros j s' s Hj HSj Hnone. destruct j as [|j]; simpl in *.
    + injection Hj as <-.
      assert (Hh : head l = Some s) by (destruct l; [discriminate | exact HSj]).
      specialize (Hhead s Hh Hnone). now injection Hhead.
    + exact (Hnext j s' s Hj HSj Hnone).
Qed.

(** X7: when [parse_data] returns, the first station has a schedule, and
    a station without a schedule has the [is_always_open] of the station
    before it in the result. *)
Theorem flag_without_schedule
    (net : network) (root : ET.element) (stations : list GasStation) :
  parse_data net root = Ok stations ->
  (forall s, head stations = Some s -> opening_hours s <> None)
  /\ forall (j : nat) s' s,
       stations !! j = Some s' -> stations !! S j = Some s ->
       opening_hours s = None ->
       is_always_open s = is_always_open s'.
Proof.
  intros H. apply parse_data_loop in H as (new & -> & _ & Hchain).
  destruct (flags_chain_lookup new None Hchain) as [Hhead Hnext].
  split; [|exact Hnext].
  intros s Hs Hnone. specialize (Hhead s Hs Hnone). discriminate.
Qed.

(** Two stations and, between them, a record without coordinates. *)
Lemma stations_from_records_witness :
  exists stations,
    parse_data Sample.net
      (Sample.document
         [Sample.pdv "1000001" [Sample.horaires];
          Sample.node "pdv" [("id", "1000003")] [];
          Sample.pdv "1000002" []]) = Ok stations
    /\ Forall2 (built_from Sample.net)
         (List.filter decodes
            (take_upto maxx
               (ET.children
                  (Sample.document
                     [Sample.pdv "1000001" [Sample.horaires];
                      Sample.node "pdv" [("id", "1000003")] [];
                      Sample.pdv "1000002" []]))))
         stations.
Proof.
  eexists. split; [vm_compute; reflexivity|].
  apply stations_from_records. vm_compute. reflexivity.
Defined.

Lemma flag_without_schedule_witness :
  exists stations,
    parse_data Sample.net
      (Sample.document
         [Sample.pdv "1000001" [Sample.horaires];
          Sample.pdv "1000002" []]) = Ok stations
    /\ (forall s, head stations = Some s -> opening_hours s <> None)
    /\ forall (j : nat) s' s,
         stations !! j = Some s' -> stations !! S j = Some s ->
         opening_hours s = None ->
         is_always_open s = is_always_open s'.
Proof.
  eexists. split; [vm_compute; reflexivity|].
  apply (flag_without_schedule Sample.net
           (Sample.document
              [Sample.pdv "1000001" [Sample.horaires];
               Sample.pdv "1000002" []])).
  vm_compute. reflexivity.
Defined.

(** ** A dropped record leaves no trace *)

Lemma main_loop_skip (x : ET.element * (Z * option string)) items2 :
  (forall st0, process_station st0 x = Ok (st0, false)) ->
  forall items1 st,
    main_loop st (items1 ++ x :: items2) = main_loop st (items1 ++ items2).
Proof.
  intros Hx. induction items1 as [|item items1 IH]; intros st; simpl.
  - now rewrite Hx.
  - destruct (process_station st item) as [[st1 stop]|e]; simpl; [|reflexivity].
    destruct stop; [reflexivity | apply IH].
Qed.

Lemma traverse_skip {A B C} (f : A -> result B) (x : A) (y : B)
    (k : result C) (l1 l2 : list A) :
  f x = Ok y ->
  (traverse f (l1 ++ x :: l2) ≫= fun _ => k)
  = (traverse f (l1 ++ l2) ≫= fun _ => k).
Proof.
  intros Hx. rewrite !traverse_app. simpl. rewrite Hx. simpl.
  destruct (traverse f l1) as [ys1|e]; simpl; [|reflexivity].
  destruct (traverse f l2) as [ys2|e]; reflexivity.
Qed.

Lemma zip_app_same {A B} (l1 l2 : list A) (k1 k2 : list B) :
  length l1 = length k1 ->
  zip (l1 ++ l2) (k1 ++ k2) = zip l1 k1 ++ zip l2 k2.
Proof.
  revert k1. induction l1 as [|x l1 IH]; intros [|y k1] H; simpl in *;
    try discriminate; [reflexivity|].
  f_equal. apply IH. lia.
Qed.

(** X8: a record that is dropped for its mandatory fields, and whose id
    is an integer, leaves no trace: the run on the document with the
    record gives what the run on the document without it gives, stations
    and exceptions alike. *)
Theorem dropped_record_leaves_no_trace
    (net : network) (tag : string) (attributes : gmap string string)
    (text : option string) (before after : list ET.element)
    (dropped : ET.element) :
  is_ok (station_id_of dropped) = true ->
  decodes dropped = false ->
  Z.of_nat (length (before ++ dropped :: after)) <= maxx ->
  parse_data net (ET.Element tag attributes text (before ++ dropped :: after))
  = parse_data net (ET.Element tag attributes text (before ++ after)).
Proof.
  intros Hid Hdrop Hlen. unfold parse_data. simpl ET.children.
  destruct (station_id_of dropped) as [sid|] eqn:Hsid; [|discriminate].
  rewrite !(traverse_app station_id_of). simpl. rewrite Hsid. simpl.
  destruct (traverse station_id_of before) as [ids1|e] eqn:H1; simpl;
    [|reflexivity].
  destruct (traverse station_id_of after) as [ids2|e] eqn:H2; simpl;
    [|reflexivity].
  pose proof (traverse_length _ _ _ H1) as L1.
  pose proof (traverse_length _ _ _ H2) as L2.
  rewrite length_app in Hlen. simpl in Hlen.
  rewrite !take_upto_length
    by (rewrite length_app; simpl; rewrite ?L1, ?L2; lia).
  unfold executor_map. rewrite !fmap_app, fmap_cons.
  rewrite (zip_app_same before (dropped :: after))
    by now rewrite length_fmap.
  rewrite (zip_app_same before after) by now rewrite length_fmap.
  simpl zip.
  rewrite main_loop_skip.
  - destruct (main_loop _ _) as [st|e]; simpl; [|reflexivity].
    assert (Ha : attrib_id dropped = Ok
                   (default "" (ET.attrib dropped !! "id"))).
    { unfold attrib_id. unfold station_id_of, ET.get in Hsid.
      destruct (ET.attrib dropped !! "id"); [reflexivity | discriminate]. }
    apply (traverse_skip attrib_id dropped _ (Ok (gas_stations st)) before after Ha).
  - intros st0. unfold decodes in Hdrop.
    destruct (mandatory_fields dropped) as [m|e] eqn:Hm; [discriminate|].
    exact (process_station_dropped st0 dropped _ _ e Hm).
Qed.

Lemma dropped_record_leaves_no_trace_witness :
  parse_data Sample.net
    (ET.Element "pdv_liste" ∅ None
       ([Sample.pdv "1000001" [Sample.horaires]]
        ++ Sample.node "pdv" [("id", "1000003")] []
        :: [Sample.pdv "1000002" []]))
  = parse_data Sample.net
      (ET.Element "pdv_liste" ∅ None
         ([Sample.pdv "1000001" [Sample.horaires]]
          ++ [Sample.pdv "1000002" []])).
Proof.
  apply dropped_record_leaves_no_trace.
  - vm_compute. reflexivity.
  - vm_compute. reflexivity.
  - vm_compute. discriminate.
Defined.

(* ===================================================================== *)
(** * More on schedules and prices                                        *)
(* ===================================================================== *)

(** An invariant of a loop that returns holds at its end. *)
Lemma foldM_invariant {A S} (f : S -> A -> result S) (P : S -> Prop) (l : list A) :
  (forall s x s', x ∈ l -> P s -> f s x = Ok s' -> P s') ->
  forall s s', P s -> foldM f s l = Ok s' -> P s'.
Proof.
  induction l as [|x l IH]; intros Hstep s s' Hs H; simpl in H.
  - now injection H as <-.
  - apply bind_Ok in H as (s1 & H1 & H).
    apply (IH (fun s0 y s0' Hy => Hstep s0 y s0' (list_elem_of_further _ _ _ Hy)) s1 s');
      [|exact H].
    exact (Hstep s x s1 (list_elem_of_here _ _) Hs H1).
Qed.

Lemma parse_day_entry (days : gmap Z (option HoursRange)) (day : ET.element) :
  parse_day days day
  = day_entry day ≫= fun entry => Ok (<[entry.1 := entry.2]> days).
Proof.
  unfold parse_day, day_entry.
  destruct (need_str (ET.get "id" day) ≫= py_int) as [k|]; [|reflexivity].
  simpl.
  destruct (bool_decide (ET.get "ferme" day = Some "1")
            || bool_decide (ET.find "ouverture" day = None)); [reflexivity|].
  destruct (deref (ET.find "horaire" day)) as [h|]; [|reflexivity]. simpl.
  destruct (parse_time (ET.get "ouverture" h)) as [t1|]; [|reflexivity]. simpl.
  destruct (parse_time (ET.get "fermeture" h)) as [t2|]; reflexivity.
Qed.

Lemma later_days_keep (k : Z) (v : option HoursRange) :
  forall (after : list ET.element) (days days' : gmap Z (option HoursRange)),
    foldM parse_day days after = Ok days' ->
    days !! k = Some v ->
    (forall day' v', day' ∈ after -> day_entry day' <> Ok (k, v')) ->
    days' !! k = Some v.
Proof.
  induction after as [|d after IH]; intros days days' Hfold Hk Hlast; simpl in Hfold.
  - now injection Hfold as <-.
  - apply bind_Ok in Hfold as (d1 & H1 & Hfold).
    apply (IH d1 days' Hfold).
    + rewrite parse_day_entry in H1. apply bind_Ok in H1 as ([k' v'] & He & H1).
      injection H1 as <-. simpl. rewrite lookup_insert_ne; [exact Hk|].
      intros ->. exact (Hlast d v' (list_elem_of_here _ _) He).
    + intros day' v' Hin. apply Hlast. now apply list_elem_of_further.
Qed.

(** X9: the weekly schedule read from a [horaires] block has, for a day
    number, the range of the last [jour] child with this number; it has
    no other day numbers than those of the children; and a child marked
    closed, or without an [ouverture] child, counts as a closed day. *)
Theorem schedule_of_last_day
    (horaires_element : ET.element) (flag : bool) (hours : OpeningHours) :
  parse_horaires horaires_element = Ok (flag, hours) ->
  (forall (before after : list ET.element) (day : ET.element)
          (k : Z) (v : option HoursRange),
      ET.children horaires_element = before ++ day :: after ->
      day_entry day = Ok (k, v) ->
      (forall day' v', day' ∈ after -> day_entry day' <> Ok (k, v')) ->
      days hours !! k = Some v)
  /\ (forall (k : Z) (v : option HoursRange),
        days hours !! k = Some v ->
        exists day, day ∈ ET.children horaires_element /\ day_entry day = Ok (k, v))
  /\ (forall (day : ET.element) (k : Z) (v : option HoursRange),
        day_entry day = Ok (k, v) ->
        ET.get "ferme" day = Some "1" \/ ET.find "ouverture" day = None ->
        v = None).
Proof.
  intros H. unfold parse_horaires in H. apply bind_Ok in H as (d & Hfold & H).
  injection H as _ <-. simpl. split; [|split].
  - intros before after day k v Hsplit He Hlast.
    rewrite Hsplit, foldM_app in Hfold.
    apply bind_Ok in Hfold as (d0 & _ & Hfold). simpl in Hfold.
    apply bind_Ok in Hfold as (d1 & H1 & Hfold).
    rewrite parse_day_entry, He in H1. injection H1 as <-.
    apply (later_days_keep k v after _ d Hfold); [apply lookup_insert_eq | exact Hlast].
  - apply (foldM_invariant parse_day
             (fun m => forall k v, m !! k = Some v ->
                exists day, day ∈ ET.children horaires_element
                            /\ day_entry day = Ok (k, v))
             (ET.children horaires_element)) with (s := ∅); [| |exact Hfold].
    + intros m x m' Hx Hm Hstep k v Hk.
      rewrite parse_day_entry in Hstep.
      apply bind_Ok in Hstep as ([k' v'] & He & Hstep). injection Hstep as <-.
      simpl in Hk. destruct (decide (k' = k)) as [->|Hne].
      * rewrite lookup_insert_eq in Hk. injection Hk as <-. now exists x.
      * rewrite lookup_insert_ne in Hk by exact Hne. now apply Hm.
    + intros k v Hk. now rewrite lookup_empty in Hk.
  - intros day k v He Hclosed. unfold day_entry in He.
    apply bind_Ok in He as (k' & _ & He).
    replace (bool_decide (ET.get "ferme" day = Some "1")
             || bool_decide (ET.find "ouverture" day = None)) with true in He.
    + simpl in He. now injection He as _ <-.
    + symmetry. apply orb_true_iff.
      destruct Hclosed as [Hc|Hc]; [left | right]; now apply bool_decide_eq_true_2.
Qed.

(** A block with day 1 twice, closed and then open from 07:00 to 18:30,
    between a day 2 and a closed day 3: the schedule has the range of the
    second one. *)
Lemma schedule_of_last_day_witness :
  exists (hours : OpeningHours) (range : HoursRange),
    parse_horaires horaires_repeated = Ok (false, hours)
    /\ day_entry lundi_ferme = Ok (1, None)
    /\ day_entry Sample.jour_ouvert = Ok (1, Some range)
    /\ days hours !! 1 = Some (Some range).
Proof.
  eexists. eexists.
  split; [vm_compute; reflexivity|].
  split; [vm_compute; reflexivity|].
  split; [vm_compute; reflexivity|].
  eapply (proj1 (schedule_of_last_day horaires_repeated false _ _)
            [lundi_ferme; mardi] [mercredi_ferme] Sample.jour_ouvert 1 (Some _)).
  - reflexivity.
  - vm_compute. reflexivity.
  - intros day' v' Hin. apply list_elem_of_singleton in Hin as ->.
    vm_compute. discriminate.
  Unshelve. vm_compute. reflexivity.
Defined.

(** ** Prices *)

(** X10: a price history holds nothing but what the [prix] children
    with attributes say: a price stored for a fuel type and a date is the
    price of such a child with this fuel type and, once the time of day is
    dropped, this date. *)
Theorem stored_price_has_source
    (pdv : ET.element) (h : fuel_history)
    (fuel_type : option string) (date : string) (price : float) :
  parse_prices pdv = Ok h ->
  stored h fuel_type date = Some price ->
  exists e,
    e ∈ ET.findall "prix" pdv
    /\ ET.has_attribs e = true
    /\ prix_entry e = Ok (fuel_type, date, price).
Proof.
  unfold parse_prices. intros Hfold. revert fuel_type date price.
  apply (foldM_invariant parse_prix
           (fun m => forall f d p, stored m f d = Some p ->
              exists e, e ∈ ET.findall "prix" pdv
                        /\ ET.has_attribs e = true
                        /\ prix_entry e = Ok (f, d, p))
           (ET.findall "prix" pdv)) with (s := ∅); [| |exact Hfold].
  - intros m x m' Hx Hm Hstep f d p Hs.
    destruct (ET.has_attribs x) eqn:Ha.
    + rewrite (parse_prix_entry _ _ Ha) in Hstep.
      apply bind_Ok in Hstep as ([[f' d'] p'] & He & Hstep). injection Hstep as <-.
      change (stored (record_price m (f', d', p')) f d = Some p) in Hs.
      destruct (decide ((f', d') = (f, d))) as [Heq|Hne].
      * injection Heq as -> ->. rewrite stored_record_same in Hs.
        injection Hs as <-. now exists x.
      * rewrite stored_record_other in Hs by exact Hne. now apply Hm.
    + rewrite (parse_prix_skip _ _ Ha) in Hstep. injection Hstep as <-.
      now apply Hm.
  - intros f d p Hs. unfold stored in Hs. now rewrite lookup_empty in Hs.
Qed.

Lemma stored_price_has_source_witness :
  exists e,
    e ∈ ET.findall "prix"
          (Sample.pdv "1000001"
             [Sample.prix "Gazole" "1.5" "2023-01-02T08:00:00"])
    /\ ET.has_attribs e = true
    /\ prix_entry e = Ok (Some "Gazole", "2023-01-02", Sample.f_1_5).
Proof.
  eapply (stored_price_has_source
            (Sample.pdv "1000001"
               [Sample.prix "Gazole" "1.5" "2023-01-02T08:00:00"])).
  - vm_compute. reflexivity.
  - vm_compute. reflexivity.
Defined.

(* ===================================================================== *)
(** * More on the time series                                             *)
(* ===================================================================== *)

Section SeriesMore.
Variable history : price_history.

Lemma forward_fill_values (window : list string) : forall last_known v,
  v ∈ forward_fill history last_known window ->
  (last_known = None /\ v = Int 0)
  \/ (exists q, last_known = Some q /\ v = Float q)
  \/ exists d p, d ∈ window /\ history !! d = Some p /\ v = Float p.
Proof.
  induction window as [|d window IH]; intros lk v Hv; simpl in Hv;
    [now apply elem_of_nil in Hv|].
  destruct (history !! d) as [p|] eqn:Hd.
  - apply elem_of_cons in Hv as [->|Hv].
    + right. right. exists d, p. split; [apply list_elem_of_here | now split].
    + destruct (IH _ _ Hv) as [[H _]|[(q & [= <-] & ->)|(d' & p' & Hin & Hk & ->)]];
        [discriminate | |]; right; right.
      * exists d, p. split; [apply list_elem_of_here | now split].
      * exists d', p'. split; [now apply list_elem_of_further | now split].
  - destruct lk as [q|].
    + apply elem_of_cons in Hv as [->|Hv]; [right; left; now exists q|].
      destruct (IH _ _ Hv) as [[H _]|[H|(d' & p' & Hin & Hk & ->)]];
        [discriminate | right; left; exact H |].
      right. right. exists d', p'. split; [now apply list_elem_of_further | now split].
    + apply elem_of_cons in Hv as [->|Hv]; [now left|].
      destruct (IH _ _ Hv) as [H|[(q & H & _)|(d' & p' & Hin & Hk & ->)]];
        [now left | discriminate |].
      right. right. exists d', p'. split; [now apply list_elem_of_further | now split].
Qed.

Lemma forward_fill_zeros (lead window : list string) :
  (forall x, x ∈ lead -> history !! x = None) ->
  forward_fill history None (lead ++ window)
  = replicate (length lead) (Int 0) ++ forward_fill history None window.
Proof.
  induction lead as [|x lead IH]; intros H; [reflexivity|].
  simpl. rewrite (H x) by apply list_elem_of_here.
  rewrite IH; [reflexivity|]. intros y Hy. apply H. now apply list_elem_of_further.
Qed.

Lemma forward_fill_floats (window : list string) : forall q,
  Forall (fun v => is_float v = true) (forward_fill history (Some q) window).
Proof.
  induction window as [|d window IH]; intros q; simpl; [constructor|].
  destruct (history !! d) as [p|]; constructor; auto.
Qed.

End SeriesMore.

(** X11: a series holds nothing but zeros and prices stored for dates of
    the window: a price of the history whose date is not in the window
    never shows, not even as a first value; with no date of the window in
    the history the series is all zeros. *)
Theorem series_values_from_window
    (history : price_history) (window : list string) :
  (forall v, v ∈ fill_series window history ->
     v = Int 0
     \/ exists d p, d ∈ window /\ history !! d = Some p /\ v = Float p)
  /\ ((forall d, d ∈ window -> history !! d = None) ->
      fill_series window history = replicate (length window) (Int 0)).
Proof.
  rewrite fill_series_forward_fill. split.
  - intros v Hv.
    destruct (forward_fill_values history window None v Hv)
      as [[_ ->]|[(q & H & _)|H]]; [now left | discriminate | now right].
  - intros Hnone.
    rewrite <- (app_nil_r window) at 1.
    rewrite (forward_fill_zeros history window [] Hnone). simpl.
    now rewrite app_nil_r.
Qed.

(** X12: zeros come first and only first: up to the first date of the
    window that has a stored price the series is 0, at that date it is
    the price, and after it every value is a price. *)
Theorem series_zeros_then_prices
    (history : price_history) (lead tail : list string) (d : string) (p : float) :
  (forall x, x ∈ lead -> history !! x = None) ->
  history !! d = Some p ->
  exists rest,
    fill_series (lead ++ d :: tail) history
    = replicate (length lead) (Int 0) ++ Float p :: rest
    /\ length rest = length tail
    /\ Forall (fun v => is_float v = true) rest.
Proof.
  intros Hlead Hd. exists (forward_fill history (Some p) tail).
  rewrite fill_series_forward_fill, (forward_fill_zeros history lead _ Hlead).
  simpl. rewrite Hd. split; [reflexivity|]. split.
  - apply forward_fill_length.
  - apply forward_fill_floats.
Qed.

Lemma series_zeros_then_prices_witness :
  exists rest,
    fill_series (["2023-01-01"] ++ "2023-01-02" :: ["2023-01-03"; "2023-01-04"])
      {["2023-01-02" := Sample.f_2_0; "2022-12-25" := Sample.f_1_5]}
    = replicate (length ["2023-01-01"]) (Int 0) ++ Float Sample.f_2_0 :: rest
    /\ length rest = length ["2023-01-03"; "2023-01-04"]
    /\ Forall (fun v => is_float v = true) rest.
Proof.
  apply series_zeros_then_prices.
  - intros x Hx. apply list_elem_of_singleton in Hx as ->. reflexivity.
  - reflexivity.
Defined.

(* ===================================================================== *)
(** * Dates: writing and reading back                                     *)
(* ===================================================================== *)

Section ReadBack.
Import Time.

(** The first way a matcher reads the text. *)
Lemma head_bind {A B} (p : matcher A) (k : A -> matcher B)
    (s r : string) (a : A) (x : B * string) :
  head (p s) = Some (a, r) -> head (k a r) = Some x ->
  head (m_bind p k s) = Some x.
Proof.
  unfold m_bind. destruct (p s) as [|[a0 r0] l]; [discriminate|].
  intros [= -> ->]. simpl. destruct (k a r) as [|x0 l0]; [discriminate|].
  now intros [= ->].
Qed.

Lemma head_lit (c : ascii) (r : string) :
  head (m_lit c (String c r)) = Some (tt, r).
Proof. unfold m_lit. now rewrite Ascii.eqb_refl. Qed.

Local Tactic Notation "below" integer(n) :=
  do n (let k := fresh "k" in
        intros [|k]; [intros _ r; vm_compute; reflexivity | revert k]);
  intros k Hk; exfalso; lia.

Lemma head_two_digits : forall k : nat, (k < 100)%nat -> forall r,
  head (m_two m_digit m_digit (pad2 (Z.of_nat k) +:+ r)) = Some (Z.of_nat k, r).
Proof. below 100. Qed.

Lemma head_H : forall k : nat, (k < 24)%nat -> forall r,
  head (m_H (pad2 (Z.of_nat k) +:+ r)) = Some (Z.of_nat k, r).
Proof. below 24. Qed.

Lemma head_M : forall k : nat, (k < 60)%nat -> forall r,
  head (m_M (pad2 (Z.of_nat k) +:+ r)) = Some (Z.of_nat k, r).
Proof. below 60. Qed.

Lemma head_S : forall k : nat, (k < 60)%nat -> forall r,
  head (m_S (pad2 (Z.of_nat k) +:+ r)) = Some (Z.of_nat k, r).
Proof. below 60. Qed.

Lemma head_m : forall k : nat, (k < 12)%nat -> forall r,
  head (m_m (pad2 (Z.of_nat (S k)) +:+ r)) = Some (Z.of_nat (S k), r).
Proof. below 12. Qed.

Lemma head_d : forall k : nat, (k < 31)%nat -> forall r,
  head (m_d (pad2 (Z.of_nat (S k)) +:+ r)) = Some (Z.of_nat (S k), r).
Proof. below 31. Qed.

Lemma head_Y (y : Z) (r : string) :
  0 <= y <= 9999 ->
  head (m_Y (pad4 y +:+ r)) = Some (y, r).
Proof.
  intros Hy. unfold m_Y, pad4. rewrite StrFacts.str_app_assoc.
  apply (head_bind _ _ _ (pad2 (y mod 100) +:+ r) (y / 100)).
  - rewrite <- (Z2Nat.id (y / 100)) by (apply Z.div_pos; lia).
    apply head_two_digits.
    apply Nat2Z.inj_lt. rewrite Z2Nat.id by (apply Z.div_pos; lia).
    simpl. apply Z.div_lt_upper_bound; lia.
  - apply (head_bind _ _ _ r (y mod 100)).
    + rewrite <- (Z2Nat.id (y mod 100)) by (apply Z.mod_pos_bound; lia).
      apply head_two_digits.
      apply Nat2Z.inj_lt. rewrite Z2Nat.id by (apply Z.mod_pos_bound; lia).
      simpl. apply Z.mod_pos_bound. lia.
    + unfold m_ret. simpl. do 2 f_equal.
      pose proof (Z.div_mod y 100). lia.
Qed.

Lemma as_nat (n hi : Z) : 0 <= n < hi -> exists k : nat, n = Z.of_nat k /\ (k < Z.to_nat hi)%nat.
Proof. intros H. exists (Z.to_nat n). split; lia. Qed.

Lemma as_succ (n hi : Z) :
  1 <= n <= hi -> exists k : nat, n = Z.of_nat (S k) /\ (k < Z.to_nat hi)%nat.
Proof. intros H. exists (Z.to_nat (n - 1)). split; lia. Qed.

Lemma days_in_month_le (y m : Z) : days_in_month y m <= 31.
Proof.
  unfold days_in_month. destruct (m =? 2); [destruct (is_leap y); lia|].
  destruct ((m =? 4) || (m =? 6) || (m =? 9) || (m =? 11)); lia.
Qed.

Lemma valid_bounds (t : datetime) :
  valid t = true ->
  (1 <= year t <= 9999) /\ (1 <= month t <= 12)
  /\ (1 <= day t <= days_in_month (year t) (month t))
  /\ (0 <= hour t <= 23) /\ (0 <= minute t <= 59) /\ (0 <= second t <= 59).
Proof.
  unfold valid. rewrite !andb_true_iff, !Z.leb_le. tauto.
Qed.

Lemma strptime_timestamp_text (t : datetime) :
  valid t = true -> strptime m_timestamp (timestamp_text t) = Ok t.
Proof.
  intros Hv. pose proof (valid_bounds t Hv) as (Hy & Hm & Hd & HH & HM & HS).
  pose proof (days_in_month_le (year t) (month t)) as Hdim.
  assert (Hhead : head (m_timestamp (timestamp_text t)) = Some (t, "")).
  { unfold timestamp_text, strftime_date, m_timestamp.
    rewrite !StrFacts.str_app_assoc.
    eapply head_bind; [apply head_Y; lia|].
    eapply head_bind; [apply (head_lit "-")|].
    destruct (as_succ (month t) 12 Hm) as (km & Ekm & Hkm).
    eapply head_bind; [rewrite Ekm; apply head_m; exact Hkm|].
    eapply head_bind; [apply (head_lit "-")|].
    destruct (as_succ (day t) 31 ltac:(lia)) as (kd & Ekd & Hkd).
    eapply head_bind; [rewrite Ekd; apply head_d; exact Hkd|].
    eapply head_bind; [apply (head_lit "T")|].
    destruct (as_nat (hour t) 24 ltac:(lia)) as (kH & EkH & HkH).
    eapply head_bind; [rewrite EkH; apply head_H; exact HkH|].
    eapply head_bind; [apply (head_lit ":")|].
    destruct (as_nat (minute t) 60 ltac:(lia)) as (kM & EkM & HkM).
    eapply head_bind; [rewrite EkM; apply head_M; exact HkM|].
    eapply head_bind; [apply (head_lit ":")|].
    destruct (as_nat (second t) 60 ltac:(lia)) as (kS & EkS & HkS).
    eapply head_bind;
      [rewrite EkS; rewrite <- (StrFacts.str_app_nil_r (pad2 _));
       apply head_S; exact HkS|].
    unfold m_ret. simpl. rewrite <- Ekm, <- Ekd, <- EkH, <- EkM, <- EkS.
    now destruct t. }
  unfold strptime. destruct (m_timestamp (timestamp_text t)) as [|[t0 rest] l];
    [discriminate|].
  simpl in Hhead. injection Hhead as -> ->. simpl. now rewrite Hv.
Qed.

(** X13: a timestamp in the form YYYY-MM-DDTHH:MM:SS of a real date and
    time of day is read back whole, and from the year 1000 on the key it
    gives to the price history is its date YYYY-MM-DD: the time of day
    plays no role.  (Of an earlier year the C library writes fewer than
    four digits.) *)
Theorem timestamp_read_back (t : datetime) :
  valid t = true ->
  strptime m_timestamp (timestamp_text t) = Ok t
  /\ (1000 <= year t ->
      parse_update_date (Some (timestamp_text t))
      = Ok (strftime_date (year t) (month t) (day t))).
Proof.
  intros Hv. split; [now apply strptime_timestamp_text|]. intros _.
  unfold parse_update_date. simpl. now rewrite (strptime_timestamp_text t Hv).
Qed.

Lemma timestamp_read_back_witness :
  strptime m_timestamp "2024-02-29T23:59:59" = Ok (Datetime 2024 2 29 23 59 59)
  /\ parse_update_date (Some "2024-02-29T23:59:59") = Ok "2024-02-29".
Proof.
  destruct (timestamp_read_back (Datetime 2024 2 29 23 59 59) eq_refl) as [H1 H2].
  split; [exact H1 | apply H2; discriminate].
Defined.

End ReadBack.

(* ===================================================================== *)
(** * The calendar of the window                                          *)
(* ===================================================================== *)

Section Calendar.
Import Time.

Lemma days_checked_spec (fuel : nat) : forall lo len,
  days_checked fuel lo len = true ->
  len <= 2 ^ Z.of_nat fuel ->
  forall n, lo <= n < lo + len -> day_checked n = true.
Proof.
  induction fuel as [|fuel IH]; intros lo len H Hlen n Hn.
  - simpl in H, Hlen. apply orb_true_iff in H as [H|H].
    + apply Z.leb_le in H. lia.
    + apply andb_true_iff in H as [H1 H2]. apply Z.eqb_eq in H1.
      now replace n with lo by lia.
  - simpl in H. apply andb_true_iff in H as [H1 H2].
    rewrite Nat2Z.inj_succ, Z.pow_succ_r in Hlen by lia.
    destruct (Z_lt_le_dec n (lo + len / 2)) as [Hlt|Hge].
    + apply (IH lo (len / 2) H1); [|lia].
      apply Z.div_le_upper_bound; lia.
    + apply (IH (lo + len / 2) (len - len / 2) H2); [|lia].
      pose proof (Z.div_mod len 2 ltac:(lia)).
      pose proof (Z.mod_pos_bound len 2 ltac:(lia)). lia.
Qed.

Lemma cycle_checked : days_checked 18 0 cycle_days = true.
Proof. vm_compute. reflexivity. Qed.

Lemma day_checked_cycle (n : Z) : 0 <= n < cycle_days -> day_checked n = true.
Proof.
  intros Hn. apply (days_checked_spec 18 0 cycle_days cycle_checked); [|lia].
  vm_compute. discriminate.
Qed.

(** [ord2ymd] from one cycle to the next. *)
Lemma ord2ymd_cycle (ordinal : Z) :
  ord2ymd ordinal
  = let '(y, m, d) := ord2ymd ((ordinal - 1) mod cycle_days + 1) in
    (400 * ((ordinal - 1) / cycle_days) + y, m, d).
Proof.
  unfold ord2ymd, cycle_days.
  pose proof (Z.mod_pos_bound (ordinal - 1) 146097 ltac:(lia)) as Hn.
  set (q := (ordinal - 1) / 146097).
  set (n := (ordinal - 1) mod 146097) in *.
  replace (n + 1 - 1) with n by lia.
  rewrite (Z.div_small n 146097), (Z.mod_small n 146097) by lia.
  cbv zeta.
  destruct ((n mod 36524 mod 1461 / 365 =? 4) || (n / 36524 =? 4)).
  - repeat (apply pair_equal_spec; split); try reflexivity. lia.
  - match goal with |- context [if ?c then _ else _] => destruct c end;
      repeat (apply pair_equal_spec; split); try reflexivity; lia.
Qed.

Lemma is_leap_cycle (q y : Z) : is_leap (400 * q + y) = is_leap y.
Proof.
  unfold is_leap.
  replace ((400 * q + y) mod 4) with (y mod 4)
    by (rewrite <- (Z.mod_add y (100 * q) 4) by lia; f_equal; lia).
  replace ((400 * q + y) mod 100) with (y mod 100)
    by (rewrite <- (Z.mod_add y (4 * q) 100) by lia; f_equal; lia).
  replace ((400 * q + y) mod 400) with (y mod 400)
    by (rewrite <- (Z.mod_add y q 400) by lia; f_equal; lia).
  reflexivity.
Qed.

Lemma days_in_month_cycle (q y m : Z) :
  days_in_month (400 * q + y) m = days_in_month y m.
Proof. unfold days_in_month. now rewrite is_leap_cycle. Qed.

(** Every ordinal of the library is a real date of the years 1 to 9999. *)
Lemma ord2ymd_valid (ordinal : Z) :
  1 <= ordinal <= max_ordinal ->
  forall y m d, ord2ymd ordinal = (y, m, d) ->
  valid (Datetime y m d 0 0 0) = true.
Proof.
  intros Ho y m d E. rewrite ord2ymd_cycle in E.
  pose proof (Z.mod_pos_bound (ordinal - 1) cycle_days ltac:(unfold cycle_days; lia)) as Hn.
  pose proof (day_checked_cycle _ Hn) as Hc. unfold day_checked in Hc.
  assert (Hq : 0 <= (ordinal - 1) / cycle_days <= 24).
  { unfold cycle_days, max_ordinal in *. split.
    - apply Z.div_pos; lia.
    - apply Z.lt_succ_r, Z.div_lt_upper_bound; lia. }
  assert (Hlast : (ordinal - 1) / cycle_days = 24 ->
                  (ordinal - 1) mod cycle_days <= 145730).
  { intros E24. pose proof (Z.div_mod (ordinal - 1) cycle_days
                              ltac:(unfold cycle_days; lia)) as Hdm.
    rewrite E24 in Hdm. unfold cycle_days, max_ordinal in *. lia. }
  destruct (ord2ymd ((ordinal - 1) mod cycle_days + 1)) as [[y0 m0] d0].
  injection E as <- <- <-.
  rewrite !andb_true_iff, orb_true_iff, !Z.leb_le, !Z.ltb_lt in Hc.
  destruct Hc as (((((((H1 & H2) & H3) & H4) & H5) & H6) & H7) & _).
  unfold valid. simpl. rewrite days_in_month_cycle.
  rewrite !andb_true_iff, !Z.leb_le.
  repeat split; lia.
Qed.

Lemma date_number_increasing (a : Z) : forall k : nat,
  0 <= a -> a + Z.of_nat (S k) < cycle_days ->
  date_number (ord2ymd (a + 1)) < date_number (ord2ymd (a + Z.of_nat (S k) + 1)).
Proof.
  assert (Hstep : forall n, 0 <= n < cycle_days ->
            date_number (ord2ymd (n + 1)) < date_number (ord2ymd (n + 2))).
  { intros n Hn. pose proof (day_checked_cycle n Hn) as Hc. unfold day_checked in Hc.
    destruct (ord2ymd (n + 1)) as [[y m] d].
    rewrite !andb_true_iff in Hc. destruct Hc as [_ Hc]. now apply Z.ltb_lt in Hc. }
  induction k as [|k IH]; intros Ha Hb.
  - replace (a + Z.of_nat 1 + 1) with (a + 2) by lia. apply Hstep. lia.
  - etransitivity; [apply IH; lia|].
    replace (a + Z.of_nat (S (S k)) + 1) with (a + Z.of_nat (S k) + 2) by lia.
    apply Hstep. lia.
Qed.

Lemma ord2ymd_inj_cycle (a b : Z) :
  0 <= a < cycle_days -> 0 <= b < cycle_days ->
  ord2ymd (a + 1) = ord2ymd (b + 1) -> a = b.
Proof.
  intros Ha Hb E.
  destruct (Z.lt_trichotomy a b) as [Hlt|[Heq|Hgt]]; [|exact Heq|]; exfalso.
  - pose proof (date_number_increasing a (Z.to_nat (b - a - 1)) ltac:(lia)) as H.
    replace (a + Z.of_nat (S (Z.to_nat (b - a - 1)))) with b in H by lia.
    specialize (H ltac:(lia)). rewrite E in H. lia.
  - pose proof (date_number_increasing b (Z.to_nat (a - b - 1)) ltac:(lia)) as H.
    replace (b + Z.of_nat (S (Z.to_nat (a - b - 1)))) with a in H by lia.
    specialize (H ltac:(lia)). rewrite E in H. lia.
Qed.

(** Two days have two dates. *)
Lemma ord2ymd_inj (o1 o2 : Z) : ord2ymd o1 = ord2ymd o2 -> o1 = o2.
Proof.
  intros E. rewrite (ord2ymd_cycle o1), (ord2ymd_cycle o2) in E.
  pose proof (Z.mod_pos_bound (o1 - 1) cycle_days ltac:(unfold cycle_days; lia)) as H1.
  pose proof (Z.mod_pos_bound (o2 - 1) cycle_days ltac:(unfold cycle_days; lia)) as H2.
  pose proof (day_checked_cycle _ H1) as C1. pose proof (day_checked_cycle _ H2) as C2.
  pose proof (ord2ymd_inj_cycle _ _ H1 H2) as Hinj.
  unfold day_checked in C1, C2.
  destruct (ord2ymd ((o1 - 1) mod cycle_days + 1)) as [[y1 m1] d1].
  destruct (ord2ymd ((o2 - 1) mod cycle_days + 1)) as [[y2 m2] d2].
  rewrite !andb_true_iff, !Z.leb_le in C1, C2.
  destruct C1 as (((((((A1 & A2) & _) & _) & _) & _) & _) & _).
  destruct C2 as (((((((B1 & B2) & _) & _) & _) & _) & _) & _).
  injection E as Ey Em Ed.
  assert (Hq : (o1 - 1) / cycle_days = (o2 - 1) / cycle_days) by lia.
  assert (Hn : (o1 - 1) mod cycle_days = (o2 - 1) mod cycle_days).
  { apply Hinj. f_equal; [f_equal|]; lia. }
  pose proof (Z.div_mod (o1 - 1) cycle_days ltac:(unfold cycle_days; lia)).
  pose proof (Z.div_mod (o2 - 1) cycle_days ltac:(unfold cycle_days; lia)).
  rewrite Hq, Hn in *. lia.
Qed.

End Calendar.

Section Window.
Import Time.

Lemma isoformat_read_back (ordinal : Z) (h mi s : Z) :
  1 <= ordinal <= max_ordinal ->
  0 <= h <= 23 -> 0 <= mi <= 59 -> 0 <= s <= 59 ->
  exists y m d,
    ord2ymd ordinal = (y, m, d)
    /\ isoformat ordinal = strftime_date y m d
    /\ strptime m_timestamp (timestamp_text (Datetime y m d h mi s))
       = Ok (Datetime y m d h mi s).
Proof.
  intros Ho Hh Hmi Hs. unfold isoformat.
  destruct (ord2ymd ordinal) as [[y m] d] eqn:E. exists y, m, d.
  split; [reflexivity|]. split; [reflexivity|].
  apply strptime_timestamp_text.
  pose proof (ord2ymd_valid ordinal Ho y m d E) as Hv.
  unfold valid in *. simpl in *.
  rewrite !andb_true_iff, !Z.leb_le in *. repeat split; lia.
Qed.

(** The date of a day is the date of no other day. *)
Lemma isoformat_inj (o1 o2 : Z) :
  1 <= o1 <= max_ordinal -> 1 <= o2 <= max_ordinal ->
  isoformat o1 = isoformat o2 -> o1 = o2.
Proof.
  intros H1 H2 E. apply ord2ymd_inj.
  destruct (isoformat_read_back o1 0 0 0 H1) as (y1 & m1 & d1 & E1 & F1 & P1);
    try lia.
  destruct (isoformat_read_back o2 0 0 0 H2) as (y2 & m2 & d2 & E2 & F2 & P2);
    try lia.
  rewrite E1, E2. unfold timestamp_text in P1, P2. simpl in P1, P2.
  rewrite <- F1 in P1. rewrite <- F2, <- E, P1 in P2. now injection P2 as -> -> ->.
Qed.

Lemma date_string_Ok (today n : Z) (d : string) :
  date_string today n = Ok d ->
  d = isoformat (today - n) /\ 1 <= today - n <= max_ordinal.
Proof.
  unfold date_string.
  destruct ((1 <=? today - n) && (today - n <=? max_ordinal)) eqn:H; [|discriminate].
  intros [= <-]. apply andb_true_iff in H as [H1 H2].
  apply Z.leb_le in H1, H2. now split.
Qed.

Lemma date_strings_lookup (today : Z) (dates : list string) (k : nat) (d : string) :
  date_strings today = Ok dates ->
  dates !! k = Some d ->
  (k < 365)%nat
  /\ d = isoformat (today - 365 + Z.of_nat k)
  /\ 1 <= today - 365 + Z.of_nat k <= max_ordinal.
Proof.
  intros H Hk. unfold date_strings in H. apply traverse_Ok in H.
  destruct (Forall2_lookup_r _ _ _ _ _ H Hk) as (n & Hn & Hd).
  assert (Hlt : (k < 365)%nat).
  { rewrite <- day_numbers_length. eapply lookup_lt_Some, Hn. }
  rewrite (day_numbers_lookup k Hlt) in Hn. injection Hn as <-.
  apply date_string_Ok in Hd as [-> Hr]. split; [exact Hlt|].
  replace (today - 365 + Z.of_nat k) with (today - (365 - Z.of_nat k)) by lia.
  now split.
Qed.

(** X14: the dates of the window are 365 different dates. *)
Theorem window_dates_distinct (today : Z) (dates : list string) :
  date_strings today = Ok dates ->
  length dates = 365%nat /\ NoDup dates.
Proof.
  intros H. split.
  - unfold date_strings in H. apply traverse_length in H.
    now rewrite H, day_numbers_length.
  - apply NoDup_alt. intros i j d Hi Hj.
    destruct (date_strings_lookup today dates i d H Hi) as (_ & Ei & Ri).
    destruct (date_strings_lookup today dates j d H Hj) as (_ & Ej & Rj).
    rewrite Ei in Ej. apply isoformat_inj in Ej; [lia | exact Ri | exact Rj].
Qed.

Lemma window_dates_distinct_witness :
  exists dates,
    date_strings 738521 = Ok dates
    /\ length dates = 365%nat /\ NoDup dates.
Proof.
  eexists. split; [vm_compute; reflexivity|].
  apply (window_dates_distinct 738521). vm_compute. reflexivity.
Defined.

(** X15: the two halves of the program write a day the same way: a
    timestamp of any time of a day of the window gives the price history
    the very key the window has for this day, so an update made on a day
    of the window is found by the series at that day. *)
Theorem window_date_is_history_key
    (today : Z) (dates : list string) (k : nat) (d : string) (h mi s : Z) :
  date_strings today = Ok dates ->
  dates !! k = Some d ->
  0 <= h <= 23 -> 0 <= mi <= 59 -> 0 <= s <= 59 ->
  parse_update_date
    (Some (d +:+ "T" +:+ pad2 h +:+ ":" +:+ pad2 mi +:+ ":" +:+ pad2 s))
  = Ok d.
Proof.
  intros H Hk Hh Hmi Hs.
  destruct (date_strings_lookup today dates k d H Hk) as (_ & -> & Hr).
  destruct (isoformat_read_back _ h mi s Hr Hh Hmi Hs) as (y & m & dd & _ & F & P).
  unfold parse_update_date. simpl. unfold timestamp_text in P. simpl in P.
  rewrite <- F in P. rewrite P. simpl. now rewrite F.
Qed.

Lemma window_date_is_history_key_witness :
  exists dates d,
    date_strings 738521 = Ok dates
    /\ dates !! 364%nat = Some d
    /\ parse_update_date
         (Some (d +:+ "T" +:+ pad2 17 +:+ ":" +:+ pad2 30 +:+ ":" +:+ pad2 0))
       = Ok d.
Proof.
  eexists. eexists. split; [vm_compute; reflexivity|].
  split; [vm_compute; reflexivity|].
  eapply window_date_is_history_key with (today := 738521) (k := 364%nat);
    try lia.
  - vm_compute. reflexivity.
  - vm_compute. reflexivity.
Defined.

End Window.

(* ===================================================================== *)
(** * From the document to the series                                     *)
(* ===================================================================== *)

(** X16: when the whole program returns, its output has one entry for
    each record whose mandatory fields decode, in document order, with
    the id of the record, the name looked up for it, and for each fuel
    type of the record's prices the series of these prices over the
    window. *)
Theorem run_entries
    (net : network) (today : Z) (root : ET.element) (out : list station_json) :
  run net today root = Ok out ->
  exists dates,
    date_strings today = Ok dates
    /\ Forall2 (entry_of net dates)
         (List.filter decodes (take_upto maxx (ET.children root))) out.
Proof.
  unfold run. intros H. apply bind_Ok in H as (stations & Hp & H).
  unfold create_json_heatmap in H. apply bind_Ok in H as (dates & Hd & H).
  injection H as <-. exists dates. split; [exact Hd|].
  apply parse_data_loop in Hp as (new & -> & Hall & _).
  apply Forall2_fmap_r. eapply Forall2_impl; [exact Hall|].
  intros pdv s (Hid & Hn & _ & Hprices & _). unfold entry_of. simpl.
  split; [exact Hid|]. split; [exact Hn|]. now exists (gas_price_history s).
Qed.

Lemma run_entries_witness :
  exists out,
    run Sample.net 738521
      (Sample.document
         [Sample.pdv "1000001"
            [Sample.horaires;
             Sample.prix "Gazole" "1.5" "2022-06-01T08:00:00"]]) = Ok out
    /\ exists dates,
         date_strings 738521 = Ok dates
         /\ Forall2 (entry_of Sample.net dates)
              (List.filter decodes
                 (take_upto maxx
                    (ET.children
                       (Sample.document
                          [Sample.pdv "1000001"
                             [Sample.horaires;
                              Sample.prix "Gazole" "1.5"
                                "2022-06-01T08:00:00"]]))))
              out.
Proof.
  eexists. split; [vm_compute; reflexivity|].
  apply run_entries. vm_compute. reflexivity.
Defined.

(** The prices of a record, then the series: the last update of a fuel
    type dated on a day of the window is the value of the series of this
    fuel type at this day. *)
Lemma last_entry_stored
    (pdv : ET.element) (h : fuel_history)
    (before after : list ET.element) (e : ET.element)
    (fuel_type : option string) (date : string) (price : float) :
  parse_prices pdv = Ok h ->
  ET.findall "prix" pdv = before ++ e :: after ->
  ET.has_attribs e = true ->
  prix_entry e = Ok (fuel_type, date, price) ->
  (forall e' q, e' ∈ after -> ET.has_attribs e' = true ->
                prix_entry e' <> Ok (fuel_type, date, q)) ->
  stored h fuel_type date = Some price.
Proof.
  intros Hparse Hsplit Ha He Hlast. unfold parse_prices in Hparse.
  rewrite Hsplit, foldM_app in Hparse.
  apply bind_Ok in Hparse as (h0 & _ & Hparse). simpl in Hparse.
  apply bind_Ok in Hparse as (h1 & H1 & Hparse).
  rewrite (parse_prix_entry _ _ Ha), He in H1. injection H1 as <-.
  apply (later_prices_keep fuel_type date price after _ h Hparse);
    [apply (stored_record_same h0) | exact Hlast].
Qed.

(** X17: reading the prices of a record and building the series fit
    together: the price of the last [prix] child of a fuel type dated on
    the day at position [k] of the window is the value of the series of
    this fuel type at position [k]. *)
Theorem update_shows_at_its_day
    (pdv : ET.element) (h : fuel_history) (dates : list string)
    (before after : list ET.element) (e : ET.element)
    (fuel_type : option string) (date : string) (price : float) (k : nat) :
  parse_prices pdv = Ok h ->
  ET.findall "prix" pdv = before ++ e :: after ->
  ET.has_attribs e = true ->
  prix_entry e = Ok (fuel_type, date, price) ->
  (forall e' q, e' ∈ after -> ET.has_attribs e' = true ->
                prix_entry e' <> Ok (fuel_type, date, q)) ->
  dates !! k = Some date ->
  exists series,
    (fill_series dates <$> h) !! fuel_type = Some series
    /\ series !! k = Some (Float price).
Proof.
  intros Hparse Hsplit Ha He Hlast Hk.
  pose proof (last_entry_stored pdv h before after e fuel_type date price
                Hparse Hsplit Ha He Hlast) as Hs.
  unfold stored in Hs. destruct (h !! fuel_type) as [by_date|] eqn:Hf;
    [|discriminate]. simpl in Hs.
  exists (fill_series dates by_date). split; [now rewrite lookup_fmap, Hf|].
  rewrite fill_series_forward_fill.
  change (forward_fill by_date (last_stored by_date []) dates !! k
          = Some (Float price)).
  rewrite (forward_fill_lookup by_date dates [] k date Hk).
  unfold filled. now rewrite Hs.
Qed.

(** An update of 1 June 2022 in the window of 1 January 2023. *)
Lemma update_shows_at_its_day_witness :
  exists series,
    (fill_series ((fun n => isoformat (738521 - n)) <$> day_numbers)
       <$> ({[Some "Gazole" := {["2022-06-01" := Sample.f_1_5]}]} : fuel_history))
      !! Some "Gazole" = Some series
    /\ series !! 151%nat = Some (Float Sample.f_1_5).
Proof.
  apply (update_shows_at_its_day
           (Sample.pdv "1000001"
              [Sample.prix "Gazole" "1.6" "2022-06-01T08:00:00";
               Sample.prix "Gazole" "1.5" "2022-06-01T17:30:00"])
           _ _
           [Sample.prix "Gazole" "1.6" "2022-06-01T08:00:00"] []
           (Sample.prix "Gazole" "1.5" "2022-06-01T17:30:00")
           (Some "Gazole") "2022-06-01" Sample.f_1_5 151).
  - vm_compute. reflexivity.
  - vm_compute. reflexivity.
  - vm_compute. reflexivity.
  - vm_compute. reflexivity.
  - intros e' q Hin. now apply elem_of_nil in Hin.
  - vm_compute. reflexivity.
Defined.
